(** * api-group-chat: room registry, access control and voice orchestration

    A shallow embedding of the NestJS signalling server:

    - [Chat]  embeds [chat.service.ts] (class [ChatService]) and
      [chat.gateway.ts] (class [ChatGateway]);
    - [Voice] embeds [voice.service.ts] (class [VoiceService]) over a model of
      the mediasoup objects it drives.

    JavaScript [Map<string, V>] objects are [gmap string V] and [Set<string>]
    is [gset string]; iteration order of a [Map] (insertion order in
    JavaScript) is therefore not represented, and no statement below depends
    on it.  Objects mutated through a reference obtained from a map
    ([room.users.set(...)], [user.isMuted = ...]) become an [alter] at the key
    the reference was read from.  Every handler runs to completion before the
    next one starts. *)

From stdpp Require Import gmap strings list fin_maps pretty.

(** JavaScript truthiness of a [string | undefined]: [undefined] and the empty
    string are falsy, every other string is truthy. *)
Definition truthy (s : option string) : bool :=
  match s with
  | Some s => bool_decide (s ≠ "")
  | None => false
  end.

(** [a || b] on a [string | undefined] left operand. *)
Definition js_or (a : option string) (b : string) : string :=
  match a with
  | Some s => if bool_decide (s ≠ "") then s else b
  | None => b
  end.

(** [s.slice(0, n)] for [0 <= n]. *)
Definition slice0 (n : nat) (s : string) : string := String.substring 0 n s.

Module Chat.

(** ** chat.service.ts *)

Record Message := mkMessage {
  userId : string;
  userName : string;
  message : string;
  timestamp : nat;
}.

(** [interface RoomUser { id; name }] *)
Record RoomUser := mkRoomUser {
  uid : string;
  uname : string;
}.

Record Room := mkRoom {
  users : gmap string RoomUser;
  messages : list Message;
  isPrivate : bool;
  password : option string;
  allowedUsers : option (gset string);
  creatorId : string;
}.

Record ChatService := mkChatService {
  rooms : gmap string Room;
  userNames : gmap string string;
}.

Definition newChatService : ChatService :=
  {| rooms := ∅; userNames := ∅ |}.

Definition with_rooms (f : gmap string Room → gmap string Room)
    (s : ChatService) : ChatService :=
  {| rooms := f (rooms s); userNames := userNames s |}.

Definition with_users (f : gmap string RoomUser → gmap string RoomUser)
    (r : Room) : Room :=
  {| users := f (users r); messages := messages r; isPrivate := isPrivate r;
     password := password r; allowedUsers := allowedUsers r;
     creatorId := creatorId r |}.

Definition with_messages (f : list Message → list Message) (r : Room) : Room :=
  {| users := users r; messages := f (messages r); isPrivate := isPrivate r;
     password := password r; allowedUsers := allowedUsers r;
     creatorId := creatorId r |}.

Definition with_allowedUsers (f : gset string → gset string) (r : Room) : Room :=
  {| users := users r; messages := messages r; isPrivate := isPrivate r;
     password := password r; allowedUsers := f <$> allowedUsers r;
     creatorId := creatorId r |}.

Definition createRoom (roomId creatorId : string) (isPrivate : bool)
    (password : option string) (s : ChatService) : ChatService :=
  if bool_decide (is_Some (rooms s !! roomId)) then s
  else
    with_rooms
      (insert roomId
         {| users := ∅; messages := []; isPrivate := isPrivate;
            password := password; allowedUsers := Some ∅;
            creatorId := creatorId |}) s.

Definition setUserName (userId userName : string) (s : ChatService)
    : ChatService :=
  {| rooms := rooms s; userNames := <[userId := userName]> (userNames s) |}.

Definition getUserName (s : ChatService) (userId : string) : string :=
  js_or (userNames s !! userId) ("User " +:+ slice0 6 userId).

Definition removeRoom (roomId : string) (s : ChatService) : ChatService :=
  with_rooms (delete roomId) s.

Definition addUserToRoom (roomId userId : string) (s : ChatService)
    : ChatService :=
  match rooms s !! roomId with
  | None => s
  | Some _ =>
      let userName := getUserName s userId in
      with_rooms
        (alter (with_users (insert userId {| uid := userId; uname := userName |}))
           roomId) s
  end.

Definition removeUserFromRoom (roomId userId : string) (s : ChatService)
    : ChatService :=
  match rooms s !! roomId with
  | None => s
  | Some _ => with_rooms (alter (with_users (delete userId)) roomId) s
  end.

Definition addMessage (roomId : string) (m : Message) (s : ChatService)
    : ChatService :=
  match rooms s !! roomId with
  | None => s
  | Some _ => with_rooms (alter (with_messages (λ ms, ms ++ [m])) roomId) s
  end.

Definition getRoom (s : ChatService) (roomId : string) : option Room :=
  rooms s !! roomId.

Definition getRooms (s : ChatService) : list string :=
  fst <$> map_to_list (rooms s).

Definition getRoomsByUserId (s : ChatService) (userId : string) : list string :=
  fst <$>
    List.filter (λ e, bool_decide (is_Some (users e.2 !! userId)))
      (map_to_list (rooms s)).

(** Returns the boolean result together with the service after the call. *)
Definition addUserToPrivateRoom (roomId userId : string) (s : ChatService)
    : bool * ChatService :=
  match rooms s !! roomId with
  | None => (false, s)
  | Some room =>
      if negb (isPrivate room) then (false, s)
      else
        (true,
         with_rooms (alter (with_allowedUsers (λ a, {[userId]} ∪ a)) roomId) s)
  end.

Definition canAccessRoom (s : ChatService) (roomId userId : string) : bool :=
  match rooms s !! roomId with
  | None => false
  | Some room =>
      if negb (isPrivate room) then true
      else
        match allowedUsers room with
        | Some a => bool_decide (userId ∈ a)
        | None => false
        end
  end.

Definition verifyRoomPassword (s : ChatService) (roomId password : string)
    : bool :=
  match rooms s !! roomId with
  | None => false
  | Some room =>
      if negb (isPrivate room) then false
      else bool_decide (Chat.password room = Some password)
  end.

Definition isRoomCreator (s : ChatService) (roomId userId : string) : bool :=
  match rooms s !! roomId with
  | None => false
  | Some room => bool_decide (creatorId room = userId)
  end.

Definition getRoomCreator (s : ChatService) (roomId : string) : option string :=
  creatorId <$> rooms s !! roomId.

(** ** chat.gateway.ts

    What a handler sends is returned as a list of [Emit]s, oldest first.
    [client.emit] targets one connection, [server.to(room).emit] the socket.io
    group of that name, [server.emit] every connection. *)

Inductive Target :=
| ToClient (client : string)
| ToRoom (roomId : string)
| ToAll.

Inductive Payload :=
| Connected (userId : string)
| RoomList (roomIds : list string)
(** [creatorId]: [None] when the payload has no such key, [Some None] for
    [null]. *)
| RoomUsers (roomId : string) (roster : list RoomUser)
    (creatorId : option (option string))
| Error (message : string)
| RoomCreated (roomId : string) (isPrivate : bool) (creatorId : string)
| NewMessage (m : Message)
| RoomListUpdated
| RoomRemoved (roomId : string)
| RemovedFromRoom (roomId : string).

Record Emit := emit {
  target : Target;
  event : string;
  payload : Payload;
}.

(** [connected] is [server.sockets.sockets]; [memberOf] holds the pairs
    (connection, group) of the transport's broadcast groups, changed by
    [client.join] and [client.leave]. *)
Record ChatGateway := mkChatGateway {
  chatService : ChatService;
  userRooms : gmap string string;
  connected : gset string;
  memberOf : gset (string * string);
}.

Definition newChatGateway : ChatGateway :=
  {| chatService := newChatService; userRooms := ∅; connected := ∅;
     memberOf := ∅ |}.

Definition with_service (f : ChatService → ChatService) (g : ChatGateway)
    : ChatGateway :=
  {| chatService := f (chatService g); userRooms := userRooms g;
     connected := connected g; memberOf := memberOf g |}.

Definition with_userRooms (f : gmap string string → gmap string string)
    (g : ChatGateway) : ChatGateway :=
  {| chatService := chatService g; userRooms := f (userRooms g);
     connected := connected g; memberOf := memberOf g |}.

(** Modelled from the spec: the transport's [joinGroup] for a connection
    (socket.io's [client.join]), which is not in the repository. *)
Definition client_join (client group : string) (g : ChatGateway) : ChatGateway :=
  {| chatService := chatService g; userRooms := userRooms g;
     connected := connected g; memberOf := {[(client, group)]} ∪ memberOf g |}.

(** Modelled from the spec: the transport's [leaveGroup] for a connection
    (socket.io's [client.leave]), which is not in the repository. *)
Definition client_leave (client group : string) (g : ChatGateway) : ChatGateway :=
  {| chatService := chatService g; userRooms := userRooms g;
     connected := connected g; memberOf := memberOf g ∖ {[(client, group)]} |}.

(** [room ? Array.from(room.users.values()).map(u => ({id, name})) : []] *)
Definition roster (room : option Room) : list RoomUser :=
  match room with
  | Some r => snd <$> map_to_list (users r)
  | None => []
  end.

Definition handleConnection (g : ChatGateway) (client : string)
    : ChatGateway * list Emit :=
  (g, [emit (ToClient client) "connected" (Connected client);
       emit (ToClient client) "room_list"
         (RoomList (getRooms (chatService g)))]).

Definition handleDisconnect (g : ChatGateway) (client : string)
    : ChatGateway * list Emit :=
  match userRooms g !! client with
  | Some currentRoom =>
      if truthy (Some currentRoom) then
        let g1 := with_service (removeUserFromRoom currentRoom client) g in
        let g2 := client_leave client currentRoom g1 in
        let room := getRoom (chatService g2) currentRoom in
        (g2, [emit (ToRoom currentRoom) "room_users"
                (RoomUsers currentRoom (roster room) None)])
      else (g, [])
  | None => (g, [])
  end.

Definition handleSetUserName (g : ChatGateway) (client userName : string)
    : ChatGateway * list Emit :=
  let g1 := with_service (setUserName client userName) g in
  match userRooms g1 !! client with
  | Some currentRoom =>
      if truthy (Some currentRoom) then
        let room := getRoom (chatService g1) currentRoom in
        (g1, [emit (ToRoom currentRoom) "room_users"
                (RoomUsers currentRoom (roster room) None)])
      else (g1, [])
  | None => (g1, [])
  end.

(** [data.isPrivate] is optional and defaults to [false]. *)
Definition handleCreateRoom (g : ChatGateway) (client roomName : string)
    (isPrivate : option bool) (password : option string)
    : ChatGateway * list Emit :=
  let isPrivate := default false isPrivate in
  let g1 := with_service (createRoom roomName client isPrivate password) g in
  let g2 :=
    if isPrivate
    then with_service (λ s, (addUserToPrivateRoom roomName client s).2) g1
    else g1 in
  (g2, [emit ToAll "room_created" (RoomCreated roomName isPrivate client)]).

Definition handleGetRooms (g : ChatGateway) (client : string)
    : ChatGateway * list Emit :=
  let allRooms := getRooms (chatService g) in
  let accessibleRooms :=
    List.filter (λ roomId, canAccessRoom (chatService g) roomId client)
      allRooms in
  (g, [emit (ToClient client) "room_list" (RoomList accessibleRooms)]).

(** [password && this.chatService.verifyRoomPassword(roomId, password)] *)
Definition passwordAccepted (s : ChatService) (roomId : string)
    (password : option string) : bool :=
  match password with
  | Some p => truthy (Some p) && verifyRoomPassword s roomId p
  | None => false
  end.

(** Lines 107-119 of [handleJoinRoom], after the access check has passed. *)
Definition admitToRoom (g : ChatGateway) (client roomId : string)
    : ChatGateway * list Emit :=
  let g1 := with_service (addUserToRoom roomId client) g in
  let g2 := client_join client roomId g1 in
  let updatedRoom := getRoom (chatService g2) roomId in
  let creatorId := getRoomCreator (chatService g2) roomId in
  (g2, [emit (ToRoom roomId) "room_users"
          (RoomUsers roomId (roster updatedRoom) (Some creatorId))]).

Definition handleJoinRoom (g : ChatGateway) (client roomId : string)
    (password : option string) : ChatGateway * list Emit :=
  match getRoom (chatService g) roomId with
  | None => (g, [emit (ToClient client) "error" (Error "Room not found")])
  | Some room =>
      if isPrivate room && negb (canAccessRoom (chatService g) roomId client)
      then
        if passwordAccepted (chatService g) roomId password then
          admitToRoom
            (with_service (λ s, (addUserToPrivateRoom roomId client s).2) g)
            client roomId
        else (g, [emit (ToClient client) "error" (Error "Unauthorized")])
      else admitToRoom g client roomId
  end.

Definition handleLeaveRoom (g : ChatGateway) (client roomId : string)
    : ChatGateway * list Emit :=
  let g1 := with_service (removeUserFromRoom roomId client) g in
  let g2 := client_leave client roomId g1 in
  let g3 := with_userRooms (delete client) g2 in
  let room := getRoom (chatService g3) roomId in
  let creatorId := getRoomCreator (chatService g3) roomId in
  (g3, [emit (ToRoom roomId) "room_users"
          (RoomUsers roomId (roster room) (Some creatorId))]).

Definition handleSendMessage (g : ChatGateway) (client : string) (now : nat)
    (roomId text : string) : ChatGateway * list Emit :=
  let userName := getUserName (chatService g) client in
  let m := {| userId := client; userName := userName; message := text;
              timestamp := now |} in
  let g1 := with_service (addMessage roomId m) g in
  (g1, [emit (ToRoom roomId) "new_message" (NewMessage m)]).

Definition handleAddUserToPrivateRoom (g : ChatGateway)
    (client roomId userId : string) : ChatGateway * list Emit :=
  match getRoom (chatService g) roomId with
  | Some room =>
      if negb (isPrivate room)
      then (g, [emit (ToClient client) "error" (Error "Invalid room")])
      else
        (with_service (λ s, (addUserToPrivateRoom roomId userId s).2) g,
         [emit ToAll "room_list_updated" RoomListUpdated])
  | None => (g, [emit (ToClient client) "error" (Error "Invalid room")])
  end.

Definition handleRemoveRoom (g : ChatGateway) (client roomId : string)
    : ChatGateway * list Emit :=
  if negb (isRoomCreator (chatService g) roomId client) then
    (g, [emit (ToClient client) "error"
           (Error "Apenas o criador pode deletar a sala")])
  else
    (with_service (removeRoom roomId) g,
     [emit ToAll "room_removed" (RoomRemoved roomId)]).

Definition handleRemoveUserFromRoom (g : ChatGateway)
    (client roomId userId : string) : ChatGateway * list Emit :=
  if negb (isRoomCreator (chatService g) roomId client) then
    (g, [emit (ToClient client) "error"
           (Error "Apenas o criador pode remover usuários")])
  else
    let g1 := with_service (removeUserFromRoom roomId userId) g in
    let '(g2, out1) :=
      if bool_decide (userId ∈ connected g1)
      then (client_leave userId roomId g1,
            [emit (ToClient userId) "removed_from_room"
               (RemovedFromRoom roomId)])
      else (g1, []) in
    let room := getRoom (chatService g2) roomId in
    let creatorId := getRoomCreator (chatService g2) roomId in
    (g2, out1 ++ [emit (ToRoom roomId) "room_users"
                    (RoomUsers roomId (roster room) (Some creatorId))]).

(** *** The gateway as a transition system

    One [Input] is one thing the transport delivers: a connection opening or
    closing, or a subscribed event from a connection together with the clock
    reading [new Date()] would give while it is handled.  A new connection is
    in the group named by its own id, and a closing one is out of every group
    before [handleDisconnect] runs. *)

Inductive ClientEvent :=
| SetUserName (userName : string)
| CreateRoom (roomName : string) (isPrivate : option bool)
    (password : option string)
| GetRooms
| JoinRoom (roomId : string) (password : option string)
| LeaveRoom (roomId : string)
| SendMessage (roomId text : string)
| AddUserToPrivateRoom (roomId userId : string)
| RemoveRoom (roomId : string)
| RemoveUserFromRoom (roomId userId : string).

Inductive Input :=
| Connect (client : string)
| Disconnect (client : string)
| Receive (client : string) (now : nat) (e : ClientEvent).

(** Modelled from the spec: the transport's [onConnect] hook, which is not in
    the repository; the connection becomes known to the server. *)
Definition socket_opened (client : string) (g : ChatGateway) : ChatGateway :=
  {| chatService := chatService g; userRooms := userRooms g;
     connected := {[client]} ∪ connected g;
     memberOf := {[(client, client)]} ∪ memberOf g |}.

(** Modelled from the spec: the transport's [onDisconnect] hook, which is not
    in the repository; the connection is gone from the server and from every
    group. *)
Definition socket_closed (client : string) (g : ChatGateway) : ChatGateway :=
  {| chatService := chatService g; userRooms := userRooms g;
     connected := connected g ∖ {[client]};
     memberOf := filter (λ p, p.1 ≠ client) (memberOf g) |}.

Definition dispatch (g : ChatGateway) (client : string) (now : nat)
    (e : ClientEvent) : ChatGateway * list Emit :=
  match e with
  | SetUserName userName => handleSetUserName g client userName
  | CreateRoom roomName isPrivate password =>
      handleCreateRoom g client roomName isPrivate password
  | GetRooms => handleGetRooms g client
  | JoinRoom roomId password => handleJoinRoom g client roomId password
  | LeaveRoom roomId => handleLeaveRoom g client roomId
  | SendMessage roomId text => handleSendMessage g client now roomId text
  | AddUserToPrivateRoom roomId userId =>
      handleAddUserToPrivateRoom g client roomId userId
  | RemoveRoom roomId => handleRemoveRoom g client roomId
  | RemoveUserFromRoom roomId userId =>
      handleRemoveUserFromRoom g client roomId userId
  end.

Definition step (g : ChatGateway) (i : Input) : ChatGateway * list Emit :=
  match i with
  | Connect client => handleConnection (socket_opened client g) client
  | Disconnect client => handleDisconnect (socket_closed client g) client
  | Receive client now e => dispatch g client now e
  end.

(** Runs a trace; the state after it, and everything sent. *)
Fixpoint run (g : ChatGateway) (trace : list Input) : ChatGateway * list Emit :=
  match trace with
  | [] => (g, [])
  | i :: rest =>
      let '(g1, out1) := step g i in
      let '(g2, out2) := run g1 rest in
      (g2, out1 ++ out2)
  end.

Inductive reachable : ChatGateway → Prop :=
| reachable_init : reachable newChatGateway
| reachable_step g i : reachable g → reachable (step g i).1.

(** Modelled from the spec: the transport's [send] to one connection and
    [broadcast] to every connection currently in a group, which are not in
    the repository.  The connections that get an [Emit]. *)
Definition recipients (g : ChatGateway) (t : Target) : gset string :=
  match t with
  | ToClient c => {[c]} ∩ connected g
  | ToRoom r => filter (λ c, (c, r) ∈ memberOf g) (connected g)
  | ToAll => connected g
  end.

(** *** Vocabulary of the statements about the gateway *)

(** The room's allow-list contains the connection. *)
Definition on_allowList (room : Room) (client : string) : Prop :=
  match allowedUsers room with
  | Some a => client ∈ a
  | None => False
  end.

(** A room has an allow-list, and a private one lists its creator. *)
Definition creator_listed (room : Room) : Prop :=
  is_Some (allowedUsers room)
  ∧ (isPrivate room = true → on_allowList room (creatorId room)).

Definition rooms_listed (s : ChatService) : Prop :=
  ∀ roomId room, rooms s !! roomId = Some room → creator_listed room.

Definition is_member (g : ChatGateway) (roomId client : string) : Prop :=
  ∃ room, rooms (chatService g) !! roomId = Some room
          ∧ is_Some (users room !! client).

(** The room exists, is private and lists the connection. *)
Definition allowed_in (s : ChatService) (roomId client : string) : Prop :=
  ∃ room, rooms s !! roomId = Some room
          ∧ isPrivate room = true ∧ on_allowList room client.

Definition is_allowed (g : ChatGateway) (roomId client : string) : Prop :=
  allowed_in (chatService g) roomId client.

Definition unauthorized (client : string) : list Emit :=
  [emit (ToClient client) "error" (Error "Unauthorized")].

(** A [join_room] went through: the connection is in the room's membership
    map and in its broadcast group, and the only thing sent is the roster,
    with the connection on it, to the room. *)
Definition joined (after : ChatGateway * list Emit) (roomId client : string)
    : Prop :=
  is_member after.1 roomId client
  ∧ (client, roomId) ∈ memberOf after.1
  ∧ ∃ members creator,
      after.2 = [emit (ToRoom roomId) "room_users"
                   (RoomUsers roomId members (Some creator))]
      ∧ client ∈ uid <$> members.

Definition removes_room (roomId : string) (i : Input) : bool :=
  match i with
  | Receive _ _ (RemoveRoom r) => bool_decide (r = roomId)
  | _ => false
  end.

(** Two connections open, A creates the public room "general", both join. *)
Definition two_joined : list Input :=
  [Connect "A"; Connect "B";
   Receive "A" 0 (CreateRoom "general" None None);
   Receive "A" 1 (JoinRoom "general" None);
   Receive "B" 2 (JoinRoom "general" None)].

(** A creates the private room "secret" with the given password. *)
Definition secret_created (pw : string) : list Input :=
  [Connect "A"; Connect "B";
   Receive "A" 0 (CreateRoom "secret" (Some true) (Some pw))].

(** The room [secret_created "x"] leaves in the registry. *)
Definition secret_room : Room :=
  {| users := ∅; messages := []; isPrivate := true; password := Some "x";
     allowedUsers := Some {["A"]}; creatorId := "A" |}.

End Chat.

Module Voice.

(** ** The media engine (mediasoup), as far as voice.service.ts drives it

    The engine is not in the repository; what follows is its contract as the
    spec's interface section gives it.  A [Worker] stands for the worker
    process with everything created through it.  Routers, transports,
    producers and consumers are held by the service as handles; their mutable
    side (closed, connected, paused) lives in the [Worker].  Ids are minted
    from a counter. *)

Inductive MediaKind := audio | video.

Inductive Direction := send | recv.

Record WebRtcTransport := mkTransport {
  transport_id : string;
  transport_router : nat;
}.

Record Producer := mkProducer {
  producer_id : string;
  producer_kind : MediaKind;
}.

Record Consumer := mkConsumer {
  consumer_id : string;
  consumer_producerId : string;
  consumer_kind : MediaKind;
  consumer_rtpParameters : string;
}.

Inductive Handle :=
| HRouter (router : nat)
| HTransport (id : string)
| HProducer (id : string)
| HConsumer (id : string).

(** Modelled from the spec: the worker created once at startup and the state
    of what [createRouter], [createTransport], [produce], [consume],
    [connect], [pause], [resume] and [close] act on. *)
Record Worker := mkWorker {
  minted : nat;
  (** handles on which [close()] was called, newest first *)
  closed : list Handle;
  connectedTransports : gset string;
  producerPaused : gmap string bool;
  consumerPaused : gmap string bool;
}.

Definition newWorker : Worker :=
  {| minted := 0; closed := []; connectedTransports := ∅;
     producerPaused := ∅; consumerPaused := ∅ |}.

(** The awaited engine calls; each may be rejected by the engine. *)
Inductive Request :=
| CreateRouter
| CreateWebRtcTransport (router : nat)
| TransportConnect (t : WebRtcTransport) (dtlsParameters : string)
| TransportProduce (t : WebRtcTransport) (kind : MediaKind)
    (rtpParameters : string)
| TransportConsume (t : WebRtcTransport) (producerId rtpCapabilities : string)
| ConsumerResume (c : Consumer)
| ProducerPause (p : Producer)
| ProducerResume (p : Producer).

(** Modelled from the spec: what the engine decides and the service cannot,
    namely which requests are rejected (the spec's "engine rejected
    operation"), what [router.canConsume(producerId, rtpCapabilities)]
    answers, and the negotiated data handed back. *)
Record MediaEngine := mkMediaEngine {
  rejects : Worker → Request → bool;
  canConsume : Worker → nat → string → string → bool;
  rtpCapabilitiesOf : nat → string;
  consumerParams : Worker → string → string → MediaKind * string;
}.

(** Modelled from the spec: [createRouter(codecConfig) -> Router]. *)
Definition worker_createRouter (w : Worker) : nat * Worker :=
  (minted w,
   {| minted := S (minted w); closed := closed w;
      connectedTransports := connectedTransports w;
      producerPaused := producerPaused w;
      consumerPaused := consumerPaused w |}).

(** Modelled from the spec: [router.createTransport(iceConfig) -> Transport]. *)
Definition router_createWebRtcTransport (router : nat) (w : Worker)
    : WebRtcTransport * Worker :=
  ({| transport_id := pretty (minted w); transport_router := router |},
   {| minted := S (minted w); closed := closed w;
      connectedTransports := connectedTransports w;
      producerPaused := producerPaused w;
      consumerPaused := consumerPaused w |}).

(** Modelled from the spec: [transport.connect(dtlsParameters)]. *)
Definition transport_connect (t : WebRtcTransport) (w : Worker) : unit * Worker :=
  (tt,
   {| minted := minted w; closed := closed w;
      connectedTransports := {[transport_id t]} ∪ connectedTransports w;
      producerPaused := producerPaused w;
      consumerPaused := consumerPaused w |}).

(** Modelled from the spec: [transport.produce(kind, rtpParameters) ->
    Producer{id}].  The producer starts paused only when asked to: a call
    without the [paused] option gives an unpaused one. *)
Definition transport_produce (kind : MediaKind) (paused : option bool)
    (w : Worker) : Producer * Worker :=
  let id := pretty (minted w) in
  ({| producer_id := id; producer_kind := kind |},
   {| minted := S (minted w); closed := closed w;
      connectedTransports := connectedTransports w;
      producerPaused := <[id := default false paused]> (producerPaused w);
      consumerPaused := consumerPaused w |}).

(** Modelled from the spec: [transport.consume(producerId, rtpCapabilities,
    startPaused) -> Consumer{id, producerId, kind, rtpParameters}]. *)
Definition transport_consume (E : MediaEngine) (producerId rtpCapabilities : string)
    (paused : option bool) (w : Worker) : Consumer * Worker :=
  let id := pretty (minted w) in
  let params := consumerParams E w producerId rtpCapabilities in
  ({| consumer_id := id; consumer_producerId := producerId;
      consumer_kind := params.1; consumer_rtpParameters := params.2 |},
   {| minted := S (minted w); closed := closed w;
      connectedTransports := connectedTransports w;
      producerPaused := producerPaused w;
      consumerPaused := <[id := default false paused]> (consumerPaused w) |}).

(** Modelled from the spec: [producer.pause()] and [producer.resume()]. *)
Definition set_producerPaused (p : Producer) (b : bool) (w : Worker)
    : unit * Worker :=
  (tt,
   {| minted := minted w; closed := closed w;
      connectedTransports := connectedTransports w;
      producerPaused := <[producer_id p := b]> (producerPaused w);
      consumerPaused := consumerPaused w |}).

(** Modelled from the spec: [consumer.resume()]. *)
Definition consumer_resume (c : Consumer) (w : Worker) : unit * Worker :=
  (tt,
   {| minted := minted w; closed := closed w;
      connectedTransports := connectedTransports w;
      producerPaused := producerPaused w;
      consumerPaused := <[consumer_id c := false]> (consumerPaused w) |}).

(** Modelled from the spec: [close()] of a transport, producer, consumer or
    router. *)
Definition close (h : Handle) (w : Worker) : Worker :=
  {| minted := minted w; closed := h :: closed w;
     connectedTransports := connectedTransports w;
     producerPaused := producerPaused w;
     consumerPaused := consumerPaused w |}.

(** ** voice.service.ts *)

Record VoiceUser := mkVoiceUser {
  userId : string;
  userName : string;
  producerTransport : option WebRtcTransport;
  consumerTransport : option WebRtcTransport;
  producer : option Producer;
  consumers : gmap string Consumer;
  isMuted : bool;
}.

Record VoiceRoom := mkVoiceRoom {
  roomId : string;
  router : nat;
  users : gmap string VoiceUser;
}.

Record VoiceService := mkVoiceService {
  worker : Worker;
  voiceRooms : gmap string VoiceRoom;
}.

(** The service once [onModuleInit] has created the worker. *)
Definition newVoiceService : VoiceService :=
  {| worker := newWorker; voiceRooms := ∅ |}.

Definition with_worker (f : Worker → Worker) (s : VoiceService) : VoiceService :=
  {| worker := f (worker s); voiceRooms := voiceRooms s |}.

Definition with_voiceRooms (f : gmap string VoiceRoom → gmap string VoiceRoom)
    (s : VoiceService) : VoiceService :=
  {| worker := worker s; voiceRooms := f (voiceRooms s) |}.

Definition with_users (f : gmap string VoiceUser → gmap string VoiceUser)
    (r : VoiceRoom) : VoiceRoom :=
  {| roomId := roomId r; router := router r; users := f (users r) |}.

Definition set_producerTransport (t : WebRtcTransport) (u : VoiceUser) : VoiceUser :=
  {| userId := userId u; userName := userName u; producerTransport := Some t;
     consumerTransport := consumerTransport u; producer := producer u;
     consumers := consumers u; isMuted := isMuted u |}.

Definition set_consumerTransport (t : WebRtcTransport) (u : VoiceUser) : VoiceUser :=
  {| userId := userId u; userName := userName u;
     producerTransport := producerTransport u; consumerTransport := Some t;
     producer := producer u; consumers := consumers u; isMuted := isMuted u |}.

Definition set_producer (p : Producer) (u : VoiceUser) : VoiceUser :=
  {| userId := userId u; userName := userName u;
     producerTransport := producerTransport u;
     consumerTransport := consumerTransport u; producer := Some p;
     consumers := consumers u; isMuted := isMuted u |}.

Definition add_consumer (c : Consumer) (u : VoiceUser) : VoiceUser :=
  {| userId := userId u; userName := userName u;
     producerTransport := producerTransport u;
     consumerTransport := consumerTransport u; producer := producer u;
     consumers := <[consumer_id c := c]> (consumers u); isMuted := isMuted u |}.

Definition set_isMuted (b : bool) (u : VoiceUser) : VoiceUser :=
  {| userId := userId u; userName := userName u;
     producerTransport := producerTransport u;
     consumerTransport := consumerTransport u; producer := producer u;
     consumers := consumers u; isMuted := b |}.

(** A write through the reference [voiceRooms.get(roomId).users.get(userId)]. *)
Definition update_user (roomId userId : string) (f : VoiceUser → VoiceUser)
    (s : VoiceService) : VoiceService :=
  with_voiceRooms (alter (with_users (alter f userId)) roomId) s.

(** *** Methods as state transformers that may throw

    A method takes the service to a result and the service after the call;
    what was written before a [throw] stays written. *)

Inductive Exn :=
| Err (message : string)
| EngineRejected (r : Request).

Inductive Result (A : Type) :=
| Ok (a : A)
| Throw (e : Exn).
Arguments Ok {A} a.
Arguments Throw {A} e.

Definition is_ok {A} (r : Result A) : bool :=
  match r with Ok _ => true | Throw _ => false end.

Definition M (A : Type) : Type := VoiceService → Result A * VoiceService.

Definition ret {A} (a : A) : M A := λ s, (Ok a, s).

Definition throw {A} (message : string) : M A := λ s, (Throw (Err message), s).

Definition bind {A B} (m : M A) (k : A → M B) : M B :=
  λ s, match m s with
       | (Ok a, s1) => k a s1
       | (Throw e, s1) => (Throw e, s1)
       end.

Definition gets {A} (f : VoiceService → A) : M A := λ s, (Ok (f s), s).

Definition modify (f : VoiceService → VoiceService) : M unit := λ s, (Ok tt, f s).

Notation "'let!' x ':=' m 'in' k" := (bind m (λ x, k))
  (at level 10, x name, m at level 100, k at level 200).
Notation "'do!' m 'in' k" := (bind m (λ _, k))
  (at level 10, m at level 100, k at level 200).

Section Service.

Variable E : MediaEngine.

(** [await] of an engine call. *)
Definition request {A} (r : Request) (run : Worker → A * Worker) : M A :=
  λ s, if rejects E (worker s) r then (Throw (EngineRejected r), s)
       else let '(a, w) := run (worker s) in
            (Ok a, {| worker := w; voiceRooms := voiceRooms s |}).

Definition getOrCreateRouter (roomId : string) : M nat :=
  let! voiceRoom := gets (λ s, voiceRooms s !! roomId) in
  match voiceRoom with
  | Some voiceRoom => ret (router voiceRoom)
  | None =>
      let! router := request CreateRouter worker_createRouter in
      do! modify (with_voiceRooms
                    (insert roomId
                       {| roomId := roomId; router := router; users := ∅ |})) in
      ret router
  end.

Definition getRouterRtpCapabilities (roomId : string) : M string :=
  let! router := getOrCreateRouter roomId in
  ret (rtpCapabilitiesOf E router).

Definition setUserTransport (roomId userId : string)
    (transport : WebRtcTransport) (direction : Direction) : M unit :=
  let! voiceRoom := gets (λ s, voiceRooms s !! roomId) in
  match voiceRoom with
  | None => throw "Voice room not found"
  | Some voiceRoom =>
      match users voiceRoom !! userId with
      | None => throw "User not found"
      | Some _ =>
          match direction with
          | send =>
              modify (update_user roomId userId (set_producerTransport transport))
          | recv =>
              modify (update_user roomId userId (set_consumerTransport transport))
          end
      end
  end.

(** The returned [transportData] is the transport's id and its ICE and DTLS
    parameters, all read off the handle returned here. *)
Definition createWebRtcTransport (roomId userId : string)
    (direction : Direction) : M WebRtcTransport :=
  let! router := getOrCreateRouter roomId in
  let! voiceRoom := gets (λ s, voiceRooms s !! roomId) in
  match voiceRoom with
  | None => throw "Voice room not found"
  | Some _ =>
      let! transport := request (CreateWebRtcTransport router)
                    (router_createWebRtcTransport router) in
      do! setUserTransport roomId userId transport direction in
      ret transport
  end.

(** [a?.id === transportId ? a : b?.id === transportId ? b : null] *)
Definition findTransport (user : VoiceUser) (transportId : string)
    : option WebRtcTransport :=
  if bool_decide (transport_id <$> producerTransport user = Some transportId)
  then producerTransport user
  else if bool_decide
            (transport_id <$> consumerTransport user = Some transportId)
  then consumerTransport user
  else None.

Definition connectWebRtcTransport (roomId userId transportId : string)
    (dtlsParameters : string) : M unit :=
  let! voiceRoom := gets (λ s, voiceRooms s !! roomId) in
  match voiceRoom with
  | None => throw "Voice room not found"
  | Some voiceRoom =>
      match users voiceRoom !! userId with
      | None => throw "User not found"
      | Some user =>
          match findTransport user transportId with
          | Some transport =>
              request (TransportConnect transport dtlsParameters)
                (transport_connect transport)
          | None => throw "Transport not found"
          end
      end
  end.

(** Returns [{ id: producer.id }]. *)
Definition produce (roomId userId transportId : string) (kind : MediaKind)
    (rtpParameters : string) : M string :=
  let! voiceRoom := gets (λ s, voiceRooms s !! roomId) in
  match voiceRoom with
  | None => throw "Voice room not found"
  | Some voiceRoom =>
      match users voiceRoom !! userId with
      | None => throw "User or transport not found"
      | Some user =>
          match producerTransport user with
          | None => throw "User or transport not found"
          | Some transport =>
              let! producer := request (TransportProduce transport kind rtpParameters)
                           (transport_produce kind None) in
              do! modify (update_user roomId userId (set_producer producer)) in
              ret (producer_id producer)
          end
      end
  end.

(** Returns the consumer's [id], [producerId], [kind] and [rtpParameters],
    which are the fields of the handle. *)
Definition consume (roomId userId producerId rtpCapabilities : string)
    : M Consumer :=
  let! voiceRoom := gets (λ s, voiceRooms s !! roomId) in
  match voiceRoom with
  | None => throw "Voice room not found"
  | Some voiceRoom =>
      let router := router voiceRoom in
      let! can := gets (λ s, canConsume E (worker s) router producerId rtpCapabilities) in
      if negb can then throw "Cannot consume"
      else
        match users voiceRoom !! userId with
        | None => throw "User or transport not found"
        | Some user =>
            match consumerTransport user with
            | None => throw "User or transport not found"
            | Some transport =>
                let! consumer := request (TransportConsume transport producerId rtpCapabilities)
                    (transport_consume E producerId rtpCapabilities (Some true)) in
                do! modify (update_user roomId userId (add_consumer consumer)) in
                ret consumer
            end
        end
  end.

Definition resumeConsumer (roomId userId consumerId : string) : M unit :=
  let! voiceRoom := gets (λ s, voiceRooms s !! roomId) in
  match voiceRoom with
  | None => throw "Voice room not found"
  | Some voiceRoom =>
      match users voiceRoom !! userId with
      | None => throw "User not found"
      | Some user =>
          match consumers user !! consumerId with
          | None => throw "Consumer not found"
          | Some consumer =>
              request (ConsumerResume consumer) (consumer_resume consumer)
          end
      end
  end.

Record VoiceUserInfo := mkVoiceUserInfo {
  info_userId : string;
  info_userName : string;
  info_isMuted : bool;
  info_hasProducer : bool;
}.

Definition userInfo (u : VoiceUser) : VoiceUserInfo :=
  {| info_userId := userId u; info_userName := userName u;
     info_isMuted := isMuted u;
     info_hasProducer := bool_decide (is_Some (producer u)) |}.

Definition joinVoiceChannel (roomId userId userName : string)
    : M (list VoiceUserInfo) :=
  let! router := getOrCreateRouter roomId in
  let! voiceRoom := gets (λ s, voiceRooms s !! roomId) in
  match voiceRoom with
  | None => throw "Voice room not found"
  | Some voiceRoom =>
      do! (if bool_decide (is_Some (users voiceRoom !! userId)) then ret tt
           else
             modify (with_voiceRooms
                       (alter
                          (with_users
                             (insert userId
                                {| userId := userId; userName := userName;
                                   producerTransport := None;
                                   consumerTransport := None; producer := None;
                                   consumers := ∅; isMuted := false |}))
                          roomId))) in
      let! voiceRoom := gets (λ s, voiceRooms s !! roomId) in
      ret (from_option (λ r, userInfo <$> (snd <$> map_to_list (users r))) []
             voiceRoom)
  end.

(** The [close()] calls [leaveVoiceChannel] makes for one user, in order. *)
Definition closeUser (user : VoiceUser) (w : Worker) : Worker :=
  let w1 := match producer user with
            | Some p => close (HProducer (producer_id p)) w
            | None => w
            end in
  let w2 := foldl (λ w c, close (HConsumer (consumer_id c)) w) w1
              (snd <$> map_to_list (consumers user)) in
  let w3 := match producerTransport user with
            | Some t => close (HTransport (transport_id t)) w2
            | None => w2
            end in
  match consumerTransport user with
  | Some t => close (HTransport (transport_id t)) w3
  | None => w3
  end.

Definition leaveVoiceChannel (roomId userId : string) : M unit :=
  let! voiceRoom := gets (λ s, voiceRooms s !! roomId) in
  match voiceRoom with
  | None => ret tt
  | Some voiceRoom =>
      do! match users voiceRoom !! userId with
          | Some user =>
              do! modify (with_worker (closeUser user)) in
              modify (with_voiceRooms (alter (with_users (delete userId)) roomId))
          | None => ret tt
          end in
      let! voiceRoom := gets (λ s, voiceRooms s !! roomId) in
      match voiceRoom with
      | Some voiceRoom =>
          if bool_decide (size (users voiceRoom) = 0) then
            do! modify (with_worker (close (HRouter (router voiceRoom)))) in
            modify (with_voiceRooms (delete roomId))
          else ret tt
      | None => ret tt
      end
  end.

(** Returns [{ isMuted }]. *)
Definition toggleMute (roomId userId : string) (isMuted : bool) : M bool :=
  let! voiceRoom := gets (λ s, voiceRooms s !! roomId) in
  match voiceRoom with
  | None => throw "Voice room not found"
  | Some voiceRoom =>
      match users voiceRoom !! userId with
      | None => throw "User not found in voice room"
      | Some user =>
          do! modify (update_user roomId userId (set_isMuted isMuted)) in
          do! match producer user with
              | Some p =>
                  if isMuted
                  then request (ProducerPause p) (set_producerPaused p true)
                  else request (ProducerResume p) (set_producerPaused p false)
              | None => ret tt
              end in
          ret isMuted
      end
  end.

Record ProducerEntry := mkProducerEntry {
  entry_userId : string;
  entry_userName : string;
  entry_producerId : string;
}.

Definition getProducersForUser (s : VoiceService) (roomId userId : string)
    : list ProducerEntry :=
  match voiceRooms s !! roomId with
  | None => []
  | Some voiceRoom =>
      omap (λ e : string * VoiceUser,
              match producer e.2 with
              | Some p =>
                  if bool_decide (e.1 ≠ userId)
                  then Some {| entry_userId := e.1;
                               entry_userName := userName e.2;
                               entry_producerId := producer_id p |}
                  else None
              | None => None
              end)
        (map_to_list (users voiceRoom))
  end.

Definition getVoiceUsers (s : VoiceService) (roomId : string)
    : list VoiceUserInfo :=
  match voiceRooms s !! roomId with
  | None => []
  | Some voiceRoom => userInfo <$> (snd <$> map_to_list (users voiceRoom))
  end.

(** *** The service as a transition system: the methods the voice gateway
    calls, with any arguments. *)

Inductive Call :=
| JoinVoiceChannel (roomId userId userName : string)
| LeaveVoiceChannel (roomId userId : string)
| ToggleMute (roomId userId : string) (isMuted : bool)
| GetRouterRtpCapabilities (roomId : string)
| CreateTransport (roomId userId : string) (direction : Direction)
| ConnectTransport (roomId userId transportId dtlsParameters : string)
| Produce (roomId userId transportId : string) (kind : MediaKind)
    (rtpParameters : string)
| Consume (roomId userId producerId rtpCapabilities : string)
| ResumeConsumer (roomId userId consumerId : string).

Definition exec (c : Call) (s : VoiceService) : VoiceService :=
  match c with
  | JoinVoiceChannel r u n => (joinVoiceChannel r u n s).2
  | LeaveVoiceChannel r u => (leaveVoiceChannel r u s).2
  | ToggleMute r u b => (toggleMute r u b s).2
  | GetRouterRtpCapabilities r => (getRouterRtpCapabilities r s).2
  | CreateTransport r u d => (createWebRtcTransport r u d s).2
  | ConnectTransport r u t d => (connectWebRtcTransport r u t d s).2
  | Produce r u t k p => (produce r u t k p s).2
  | Consume r u p c => (consume r u p c s).2
  | ResumeConsumer r u c => (resumeConsumer r u c s).2
  end.

Inductive reachable : VoiceService → Prop :=
| reachable_init : reachable newVoiceService
| reachable_exec s c : reachable s → reachable (exec c s).

End Service.

(** *** Vocabulary of the statements about the voice service *)

(** An engine that rejects nothing and lets every producer be consumed. *)
Definition permissive : MediaEngine :=
  {| rejects := λ _ _, false;
     canConsume := λ _ _ _ _, true;
     rtpCapabilitiesOf := λ _, "opus";
     consumerParams := λ _ _ _, (audio, "opus") |}.

(** Every room in the table has at least one participant. *)
Definition populated (s : VoiceService) : Prop :=
  ∀ roomId room, voiceRooms s !! roomId = Some room → 1 ≤ size (users room).

(** The routers the service holds or has closed came from the worker. *)
Definition routers_minted (s : VoiceService) : Prop :=
  (∀ roomId room, voiceRooms s !! roomId = Some room →
     router room < minted (worker s))
  ∧ (∀ n, HRouter n ∈ closed (worker s) → n < minted (worker s)).

(** The calls that reach [getOrCreateRouter] without being a join, made for
    a room that is not in the table. *)
Definition router_only (s : VoiceService) (c : Call) : bool :=
  match c with
  | GetRouterRtpCapabilities r | CreateTransport r _ _ =>
      bool_decide (voiceRooms s !! r = None)
  | _ => false
  end.

(** The states reached when rooms come into the table through
    [joinVoiceChannel] only. *)
Inductive reachable_by_joining (E : MediaEngine) : VoiceService → Prop :=
| by_joining_init : reachable_by_joining E newVoiceService
| by_joining_exec s c :
    reachable_by_joining E s → router_only s c = false →
    reachable_by_joining E (exec E c s).

(** A is alone in voice room "r1". *)
Definition alone : VoiceService :=
  exec permissive (JoinVoiceChannel "r1" "A" "Ann") newVoiceService.

(** A is in "r1" with a send and a receive transport. *)
Definition with_transports : VoiceService :=
  exec permissive (CreateTransport "r1" "A" recv)
    (exec permissive (CreateTransport "r1" "A" send) alone).

(** A mutes, then produces. *)
Definition muted_then_produced : Result string * VoiceService :=
  produce permissive "r1" "A" "1" audio "opus"
    (exec permissive (ToggleMute "r1" "A" true) with_transports).

(** A produces without muting. *)
Definition producing : VoiceService :=
  exec permissive (Produce "r1" "A" "1" audio "opus") with_transports.

End Voice.

Module VoiceSpec.
Import Voice.

(** *** Further vocabulary for the voice service *)

(** The room a call names. *)
Definition room_of (c : Call) : string :=
  match c with
  | JoinVoiceChannel r _ _ | LeaveVoiceChannel r _ | ToggleMute r _ _
  | GetRouterRtpCapabilities r | CreateTransport r _ _
  | ConnectTransport r _ _ _ | Produce r _ _ _ _ | Consume r _ _ _
  | ResumeConsumer r _ _ => r
  end.

(** The participant a call names, if it names one. *)
Definition user_of (c : Call) : option string :=
  match c with
  | JoinVoiceChannel _ u _ | LeaveVoiceChannel _ u | ToggleMute _ u _
  | CreateTransport _ u _ | ConnectTransport _ u _ _ | Produce _ u _ _ _
  | Consume _ u _ _ | ResumeConsumer _ u _ => Some u
  | GetRouterRtpCapabilities _ => None
  end.

(** An engine like [permissive] that refuses to pause a producer. *)
Definition no_pause : MediaEngine :=
  {| rejects := λ _ r, match r with ProducerPause _ => true | _ => false end;
     canConsume := λ _ _ _ _, true;
     rtpCapabilitiesOf := λ _, "opus";
     consumerParams := λ _ _ _, (audio, "opus") |}.

(** A and B are in "r1"; A has both transports and a producer. *)
Definition two_in_room : VoiceService :=
  exec permissive (JoinVoiceChannel "r1" "B" "Bob") producing.

(** The participant record of A in [producing]. *)
Definition ann_producing : VoiceUser :=
  {| userId := "A"; userName := "Ann";
     producerTransport := Some (mkTransport "1" 0);
     consumerTransport := Some (mkTransport "2" 0);
     producer := Some (mkProducer "3" audio);
     consumers := ∅; isMuted := false |}.

(** The participant record of A in [with_transports]. *)
Definition ann_ready : VoiceUser :=
  {| userId := "A"; userName := "Ann";
     producerTransport := Some (mkTransport "1" 0);
     consumerTransport := Some (mkTransport "2" 0);
     producer := None; consumers := ∅; isMuted := false |}.

End VoiceSpec.

Module VoiceGw.
Import Voice.

(** ** voice.gateway.ts

    The handlers of [VoiceGateway] over the service above.  A handler's
    [try { ... } catch (error) { client.emit('voice_error', ...) }] becomes a
    case on the [Result] of the service call; the payload of [voice_error]
    carries what was thrown.  Logging is left out. *)

Inductive Target :=
| ToClient (client : string)
| ToRoom (group : string).

Inductive Payload :=
| VoiceUserLeft (userId roomId : string)
| VoiceUsersUpdated (roomId : string) (users : list VoiceUserInfo)
| JoinedVoiceChannel (roomId : string) (users : list VoiceUserInfo)
| LeftVoiceChannel (roomId : string)
| UserMuteChanged (userId : string) (isMuted : bool) (roomId : string)
| MuteToggled (isMuted : bool)
| RouterRtpCapabilities (roomId rtpCapabilities : string)
(** [id], [iceParameters], [iceCandidates] and [dtlsParameters] are read off
    the transport. *)
| WebRtcTransportCreated (roomId : string) (direction : Direction)
    (transport : WebRtcTransport)
| WebRtcTransportConnected (transportId : string)
| Produced (id : string)
| NewProducer (userId producerId roomId : string)
| Consumed (c : Consumer)
| ConsumerResumed (consumerId : string)
| ProducersList (roomId : string) (producers : list ProducerEntry)
| VoiceError (e : Exn).

Record Emit := emit {
  target : Target;
  event : string;
  payload : Payload;
}.

(** [memberOf] holds the pairs (connection, group) of the transport's
    broadcast groups, changed by [client.join] and [client.leave]. *)
Record VoiceGateway := mkVoiceGateway {
  voiceService : VoiceService;
  userVoiceRooms : gmap string string;
  memberOf : gset (string * string);
}.

Definition newVoiceGateway : VoiceGateway :=
  {| voiceService := newVoiceService; userVoiceRooms := ∅; memberOf := ∅ |}.

Definition with_service (s : VoiceService) (g : VoiceGateway) : VoiceGateway :=
  {| voiceService := s; userVoiceRooms := userVoiceRooms g;
     memberOf := memberOf g |}.

Definition with_userVoiceRooms (f : gmap string string → gmap string string)
    (g : VoiceGateway) : VoiceGateway :=
  {| voiceService := voiceService g; userVoiceRooms := f (userVoiceRooms g);
     memberOf := memberOf g |}.

(** Modelled from the spec: the transport's [joinGroup] for a connection
    (socket.io's [client.join]), which is not in the repository. *)
Definition client_join (client group : string) (g : VoiceGateway) : VoiceGateway :=
  {| voiceService := voiceService g; userVoiceRooms := userVoiceRooms g;
     memberOf := {[(client, group)]} ∪ memberOf g |}.

(** Modelled from the spec: the transport's [leaveGroup] for a connection
    (socket.io's [client.leave]), which is not in the repository. *)
Definition client_leave (client group : string) (g : VoiceGateway) : VoiceGateway :=
  {| voiceService := voiceService g; userVoiceRooms := userVoiceRooms g;
     memberOf := memberOf g ∖ {[(client, group)]} |}.

(** [`voice_${roomId}`] *)
Definition voiceGroup (roomId : string) : string := "voice_" +:+ roomId.

Definition voice_error (client : string) (e : Exn) : list Emit :=
  [emit (ToClient client) "voice_error" (VoiceError e)].

Section Gateway.

Variable E : MediaEngine.

Definition handleConnection (g : VoiceGateway) (client : string)
    : VoiceGateway * list Emit :=
  (g, []).

Definition handleDisconnect (g : VoiceGateway) (client : string)
    : VoiceGateway * list Emit :=
  match userVoiceRooms g !! client with
  | Some roomId =>
      if truthy (Some roomId) then
        let s := (leaveVoiceChannel roomId client (voiceService g)).2 in
        let g1 := with_userVoiceRooms (delete client) (with_service s g) in
        (g1, [emit (ToRoom roomId) "voice_user_left"
                (VoiceUserLeft client roomId)])
      else (g, [])
  | None => (g, [])
  end.

Definition handleJoinVoiceChannel (g : VoiceGateway)
    (client roomId userName : string) : VoiceGateway * list Emit :=
  match joinVoiceChannel E roomId client userName (voiceService g) with
  | (Ok users, s) =>
      let g1 := with_userVoiceRooms (insert client roomId) (with_service s g) in
      let g2 := client_join client (voiceGroup roomId) g1 in
      (g2, [emit (ToRoom (voiceGroup roomId)) "voice_users_updated"
              (VoiceUsersUpdated roomId users);
            emit (ToClient client) "joined_voice_channel"
              (JoinedVoiceChannel roomId users)])
  | (Throw e, s) => (with_service s g, voice_error client e)
  end.

Definition handleLeaveVoiceChannel (g : VoiceGateway) (client roomId : string)
    : VoiceGateway * list Emit :=
  match leaveVoiceChannel roomId client (voiceService g) with
  | (Ok _, s) =>
      let g1 := with_userVoiceRooms (delete client) (with_service s g) in
      let g2 := client_leave client (voiceGroup roomId) g1 in
      let users := getVoiceUsers (voiceService g2) roomId in
      (g2, [emit (ToRoom (voiceGroup roomId)) "voice_user_left"
              (VoiceUserLeft client roomId);
            emit (ToRoom (voiceGroup roomId)) "voice_users_updated"
              (VoiceUsersUpdated roomId users);
            emit (ToClient client) "left_voice_channel"
              (LeftVoiceChannel roomId)])
  | (Throw e, s) => (with_service s g, voice_error client e)
  end.

Definition handleToggleMute (g : VoiceGateway) (client roomId : string)
    (isMuted : bool) : VoiceGateway * list Emit :=
  match toggleMute E roomId client isMuted (voiceService g) with
  | (Ok _, s) =>
      (with_service s g,
       [emit (ToRoom (voiceGroup roomId)) "user_mute_changed"
          (UserMuteChanged client isMuted roomId);
        emit (ToClient client) "mute_toggled" (MuteToggled isMuted)])
  | (Throw e, s) => (with_service s g, voice_error client e)
  end.

Definition handleGetRouterRtpCapabilities (g : VoiceGateway)
    (client roomId : string) : VoiceGateway * list Emit :=
  match getRouterRtpCapabilities E roomId (voiceService g) with
  | (Ok rtpCapabilities, s) =>
      (with_service s g,
       [emit (ToClient client) "router_rtp_capabilities"
          (RouterRtpCapabilities roomId rtpCapabilities)])
  | (Throw e, s) => (with_service s g, voice_error client e)
  end.

Definition handleCreateWebRtcTransport (g : VoiceGateway)
    (client roomId : string) (direction : Direction)
    : VoiceGateway * list Emit :=
  match createWebRtcTransport E roomId client direction (voiceService g) with
  | (Ok transportData, s) =>
      (with_service s g,
       [emit (ToClient client) "webrtc_transport_created"
          (WebRtcTransportCreated roomId direction transportData)])
  | (Throw e, s) => (with_service s g, voice_error client e)
  end.

Definition handleConnectWebRtcTransport (g : VoiceGateway)
    (client roomId transportId dtlsParameters : string)
    : VoiceGateway * list Emit :=
  match connectWebRtcTransport E roomId client transportId dtlsParameters
          (voiceService g) with
  | (Ok _, s) =>
      (with_service s g,
       [emit (ToClient client) "webrtc_transport_connected"
          (WebRtcTransportConnected transportId)])
  | (Throw e, s) => (with_service s g, voice_error client e)
  end.

Definition handleProduce (g : VoiceGateway)
    (client roomId transportId : string) (kind : MediaKind)
    (rtpParameters : string) : VoiceGateway * list Emit :=
  match produce E roomId client transportId kind rtpParameters
          (voiceService g) with
  | (Ok id, s) =>
      let users := getVoiceUsers s roomId in
      (with_service s g,
       [emit (ToClient client) "produced" (Produced id);
        emit (ToRoom (voiceGroup roomId)) "voice_users_updated"
          (VoiceUsersUpdated roomId users);
        emit (ToRoom (voiceGroup roomId)) "new_producer"
          (NewProducer client id roomId)])
  | (Throw e, s) => (with_service s g, voice_error client e)
  end.

Definition handleConsume (g : VoiceGateway)
    (client roomId producerId rtpCapabilities : string)
    : VoiceGateway * list Emit :=
  match consume E roomId client producerId rtpCapabilities
          (voiceService g) with
  | (Ok result, s) =>
      (with_service s g, [emit (ToClient client) "consumed" (Consumed result)])
  | (Throw e, s) => (with_service s g, voice_error client e)
  end.

Definition handleResumeConsumer (g : VoiceGateway)
    (client roomId consumerId : string) : VoiceGateway * list Emit :=
  match resumeConsumer E roomId client consumerId (voiceService g) with
  | (Ok _, s) =>
      (with_service s g,
       [emit (ToClient client) "consumer_resumed"
          (ConsumerResumed consumerId)])
  | (Throw e, s) => (with_service s g, voice_error client e)
  end.

Definition handleGetProducers (g : VoiceGateway) (client roomId : string)
    : VoiceGateway * list Emit :=
  let producers := getProducersForUser (voiceService g) roomId client in
  (g, [emit (ToClient client) "producers_list"
         (ProducersList roomId producers)]).

(** *** The voice gateway as a transition system *)

Inductive ClientEvent :=
| JoinVoice (roomId userName : string)
| LeaveVoice (roomId : string)
| Mute (roomId : string) (isMuted : bool)
| GetCapabilities (roomId : string)
| CreateWebRtc (roomId : string) (direction : Direction)
| ConnectWebRtc (roomId transportId dtlsParameters : string)
| DoProduce (roomId transportId : string) (kind : MediaKind)
    (rtpParameters : string)
| DoConsume (roomId producerId rtpCapabilities : string)
| Resume (roomId consumerId : string)
| GetProducers (roomId : string).

Inductive Input :=
| Connect (client : string)
| Disconnect (client : string)
| Receive (client : string) (e : ClientEvent).

(** Modelled from the spec: the transport's [onDisconnect] hook, which is not
    in the repository; the connection is out of every group. *)
Definition socket_closed (client : string) (g : VoiceGateway) : VoiceGateway :=
  {| voiceService := voiceService g; userVoiceRooms := userVoiceRooms g;
     memberOf := filter (λ p, p.1 ≠ client) (memberOf g) |}.

Definition dispatch (g : VoiceGateway) (client : string) (e : ClientEvent)
    : VoiceGateway * list Emit :=
  match e with
  | JoinVoice roomId userName => handleJoinVoiceChannel g client roomId userName
  | LeaveVoice roomId => handleLeaveVoiceChannel g client roomId
  | Mute roomId isMuted => handleToggleMute g client roomId isMuted
  | GetCapabilities roomId => handleGetRouterRtpCapabilities g client roomId
  | CreateWebRtc roomId direction =>
      handleCreateWebRtcTransport g client roomId direction
  | ConnectWebRtc roomId transportId dtlsParameters =>
      handleConnectWebRtcTransport g client roomId transportId dtlsParameters
  | DoProduce roomId transportId kind rtpParameters =>
      handleProduce g client roomId transportId kind rtpParameters
  | DoConsume roomId producerId rtpCapabilities =>
      handleConsume g client roomId producerId rtpCapabilities
  | Resume roomId consumerId => handleResumeConsumer g client roomId consumerId
  | GetProducers roomId => handleGetProducers g client roomId
  end.

Definition step (g : VoiceGateway) (i : Input) : VoiceGateway * list Emit :=
  match i with
  | Connect client => handleConnection g client
  | Disconnect client => handleDisconnect (socket_closed client g) client
  | Receive client e => dispatch g client e
  end.

Fixpoint run (g : VoiceGateway) (trace : list Input)
    : VoiceGateway * list Emit :=
  match trace with
  | [] => (g, [])
  | i :: rest =>
      let '(g1, out1) := step g i in
      let '(g2, out2) := run g1 rest in
      (g2, out1 ++ out2)
  end.

End Gateway.

(** *** Vocabulary of the statements about the voice gateway *)

Definition is_participant (s : VoiceService) (roomId userId : string) : Prop :=
  ∃ room, voiceRooms s !! roomId = Some room ∧ is_Some (users room !! userId).

End VoiceGw.

Module ChatSpec.
Import Chat.

(** *** Further vocabulary for the chat gateway *)

(** What a room keeps while it exists: its creator, visibility and password,
    the messages it already has (new ones come after them), and the
    connections already on its allow-list. *)
Definition keeps (room room' : Room) : Prop :=
  creatorId room' = creatorId room
  ∧ isPrivate room' = isPrivate room
  ∧ password room' = password room
  ∧ messages room `prefix_of` messages room'
  ∧ match allowedUsers room, allowedUsers room' with
    | Some a, Some a' => a ⊆ a'
    | None, None => True
    | _, _ => False
    end.

(** The private room "secret" with password "x", created by A. *)
Definition secret_only : ChatGateway :=
  (run newChatGateway (secret_created "x")).1.

(** A created the public room "general"; A and B are in it. *)
Definition general_joined : ChatGateway :=
  (run newChatGateway two_joined).1.

(** A created the public room "general"; nobody has joined. *)
Definition general_only : ChatGateway :=
  (run newChatGateway
     [Connect "A"; Connect "B";
      Receive "A" 0 (CreateRoom "general" None None)]).1.

(** B got into "secret" with the password. *)
Definition secret_joined : ChatGateway :=
  (run secret_only [Receive "B" 1 (JoinRoom "secret" (Some "x"))]).1.

(** As [general_joined], and A has sent "one" to "general". *)
Definition general_talking : ChatGateway :=
  (run general_joined [Receive "A" 3 (SendMessage "general" "one")]).1.

(** The room "general" of [general_talking]. *)
Definition talking_room : Room :=
  {| users := {["A" := {| uid := "A"; uname := "User A" |};
                "B" := {| uid := "B"; uname := "User B" |}]};
     messages := [{| userId := "A"; userName := "User A"; message := "one";
                     timestamp := 3 |}];
     isPrivate := false; password := None; allowedUsers := Some ∅;
     creatorId := "A" |}.

(** A and B joined "general"; then A removed the room and created it again:
    B is still in the broadcast group and not a member. *)
Definition general_recreated : ChatGateway :=
  (run general_joined
     [Receive "A" 3 (RemoveRoom "general");
      Receive "A" 4 (CreateRoom "general" None None)]).1.

(** Membership, on the registry. *)
Definition member_in (s : ChatService) (roomId client : string) : Prop :=
  ∃ room, rooms s !! roomId = Some room ∧ is_Some (users room !! client).

End ChatSpec.

(** * Properties of the chat registry and gateway *)

Module ChatFacts.
Import Chat.

(** ** Display names *)

(** C10. Setting a display name to the empty string behaves as if the name
    were unset: afterwards [getUserName] gives "User " followed by the first
    six characters of the connection id, which is what it gives for a
    connection that never set a name, and not the empty string. *)
Theorem empty_name_falls_back (s : ChatService) (connId : string) :
  getUserName (setUserName connId "" s) connId
    = "User " +:+ String.substring 0 6 connId
  ∧ getUserName (setUserName connId "" s) connId
    = getUserName {| rooms := rooms s; userNames := delete connId (userNames s) |}
        connId
  ∧ getUserName (setUserName connId "" s) connId ≠ "".
Proof.
  unfold getUserName, setUserName, slice0; cbn [userNames].
  rewrite lookup_insert_eq, lookup_delete_eq; cbn.
  repeat split; discriminate.
Qed.

(** ** Room creation *)

Lemma createRoom_existing roomId creator priv pw s :
  is_Some (rooms s !! roomId) → createRoom roomId creator priv pw s = s.
Proof.
  intros Hex. unfold createRoom. by rewrite bool_decide_eq_true_2.
Qed.

Lemma createRoom_fresh roomId creator priv pw s :
  rooms s !! roomId = None →
  rooms (createRoom roomId creator priv pw s)
  = <[roomId := {| users := ∅; messages := []; isPrivate := priv;
                   password := pw; allowedUsers := Some ∅;
                   creatorId := creator |}]> (rooms s).
Proof.
  intros Hno. unfold createRoom.
  rewrite bool_decide_eq_false_2; [done|].
  rewrite Hno. by intros [? ?].
Qed.

Lemma createRoom_present roomId creator priv pw s :
  is_Some (rooms (createRoom roomId creator priv pw s) !! roomId).
Proof.
  destruct (rooms s !! roomId) as [r|] eqn:Hr.
  - rewrite createRoom_existing; rewrite Hr; eauto.
  - rewrite createRoom_fresh by done. rewrite lookup_insert_eq. eauto.
Qed.

(** C8. [createRoom] is idempotent.  A call for a name that is taken changes
    nothing, whatever its arguments and whatever members and messages the room
    has by then; a call for a free name adds one room, with the call's
    creator, visibility and password, and touches no other room.  So a second
    call with the same name, right after the first or later, leaves the
    service as it found it, messages and membership included, and the one
    room under that name has the first call's settings. *)
Theorem createRoom_idempotent (s : ChatService) (name : string)
    (creator1 creator2 : string) (priv1 priv2 : bool)
    (pw1 pw2 : option string) :
  let s1 := createRoom name creator1 priv1 pw1 s in
  let s2 := createRoom name creator2 priv2 pw2 s1 in
  s2 = s1
  ∧ (∀ room, rooms s !! name = Some room →
       createRoom name creator2 priv2 pw2 s = s)
  ∧ (rooms s !! name = None →
       rooms s2 !! name
       = Some {| users := ∅; messages := []; isPrivate := priv1;
                 password := pw1; allowedUsers := Some ∅;
                 creatorId := creator1 |}
       ∧ size (rooms s2) = S (size (rooms s))
       ∧ (∀ other, other ≠ name → rooms s2 !! other = rooms s !! other)).
Proof.
  intros s1 s2.
  assert (Hsame : s2 = s1).
  { subst s2. apply createRoom_existing. subst s1. apply createRoom_present. }
  split; [done|]. split.
  - intros room Hroom. apply createRoom_existing. rewrite Hroom. eauto.
  - intros Hfresh. rewrite Hsame. subst s1.
    rewrite createRoom_fresh by done.
    split; [apply lookup_insert_eq|].
    split; [by apply map_size_insert_None|].
    intros other Hne. by rewrite lookup_insert_ne.
Qed.

Lemma createRoom_idempotent_witness :
  (let s := chatService ChatSpec.general_talking in
   rooms s !! "general" = Some ChatSpec.talking_room
   ∧ createRoom "general" "B" true (Some "x") s = s)
  ∧ (rooms newChatService !! "general" = None
     ∧ let s1 := createRoom "general" "A" false None newChatService in
       let s2 := createRoom "general" "B" true (Some "x") s1 in
       s2 = s1
       ∧ rooms s2 !! "general"
         = Some {| users := ∅; messages := []; isPrivate := false;
                   password := None; allowedUsers := Some ∅;
                   creatorId := "A" |}
       ∧ size (rooms s2) = S (size (rooms newChatService))
       ∧ (∀ other, other ≠ "general" →
            rooms s2 !! other = rooms newChatService !! other)).
Proof.
  split.
  - split; [reflexivity|].
    destruct (createRoom_idempotent (chatService ChatSpec.general_talking)
                "general" "A" "B" false true None (Some "x"))
      as (_ & Htaken & _).
    apply (Htaken ChatSpec.talking_room). reflexivity.
  - split; [reflexivity|].
    destruct (createRoom_idempotent newChatService "general" "A" "B"
                false true None (Some "x")) as (Hsame & _ & Hfree).
    split; [exact Hsame|]. apply Hfree. reflexivity.
Defined.

(** ** Rooms reachable through the gateway list their creator *)

Lemma rooms_listed_alter f roomId s :
  (∀ room, creator_listed room → creator_listed (f room)) →
  rooms_listed s → rooms_listed (with_rooms (alter f roomId) s).
Proof.
  intros Hf Hs k room; cbn. rewrite lookup_alter.
  case_decide as Hk; [|by apply Hs].
  destruct (rooms s !! roomId) as [r|] eqn:Hr; [|done].
  intros [= <-]. eapply Hf, Hs, Hr.
Qed.

Lemma creator_listed_with_users f room :
  creator_listed room → creator_listed (Chat.with_users f room).
Proof. done. Qed.

Lemma creator_listed_with_messages f room :
  creator_listed room → creator_listed (with_messages f room).
Proof. done. Qed.

Lemma creator_listed_grant client room :
  creator_listed room →
  creator_listed (with_allowedUsers (λ a, {[client]} ∪ a) room).
Proof.
  unfold creator_listed, on_allowList; cbn.
  destruct (allowedUsers room) as [a|]; cbn; [|by intros [[] ?]].
  intros [_ Hc]. split; [eauto|]. intros Hp. set_solver.
Qed.

Lemma rooms_listed_addUserToRoom roomId client s :
  rooms_listed s → rooms_listed (addUserToRoom roomId client s).
Proof.
  unfold addUserToRoom. destruct (rooms s !! roomId); [|done].
  apply rooms_listed_alter, creator_listed_with_users.
Qed.

Lemma rooms_listed_removeUserFromRoom roomId client s :
  rooms_listed s → rooms_listed (removeUserFromRoom roomId client s).
Proof.
  unfold removeUserFromRoom. destruct (rooms s !! roomId); [|done].
  apply rooms_listed_alter, creator_listed_with_users.
Qed.

Lemma rooms_listed_addMessage roomId m s :
  rooms_listed s → rooms_listed (addMessage roomId m s).
Proof.
  unfold addMessage. destruct (rooms s !! roomId); [|done].
  apply rooms_listed_alter, creator_listed_with_messages.
Qed.

Lemma rooms_listed_grant roomId client s :
  rooms_listed s → rooms_listed (addUserToPrivateRoom roomId client s).2.
Proof.
  unfold addUserToPrivateRoom. destruct (rooms s !! roomId) as [r|]; [|done].
  destruct (isPrivate r); cbn; [|done].
  apply rooms_listed_alter, creator_listed_grant.
Qed.

Lemma rooms_listed_removeRoom roomId s :
  rooms_listed s → rooms_listed (removeRoom roomId s).
Proof.
  intros Hs k room; cbn. rewrite lookup_delete.
  case_decide; [done|apply Hs].
Qed.

(** [handleCreateRoom]'s two service calls, taken together. *)
Lemma rooms_listed_create roomName client (priv : bool) pw s :
  rooms_listed s →
  rooms_listed
    (if priv
     then (addUserToPrivateRoom roomName client
             (createRoom roomName client priv pw s)).2
     else createRoom roomName client priv pw s).
Proof.
  intros Hs.
  destruct (rooms s !! roomName) as [r|] eqn:Hr.
  - rewrite createRoom_existing by (rewrite Hr; eauto).
    destruct priv; [by apply rooms_listed_grant|done].
  - destruct priv.
    + unfold addUserToPrivateRoom.
      rewrite createRoom_fresh by done. rewrite lookup_insert_eq; cbn.
      intros k room; cbn. rewrite createRoom_fresh by done.
      rewrite alter_insert_eq, lookup_insert.
      case_decide; [|by apply Hs].
      intros [= <-]. split; cbn; [eauto|]. intros _.
      unfold on_allowList; cbn. set_solver.
    + intros k room. rewrite createRoom_fresh by done.
      rewrite lookup_insert. case_decide; [|by apply Hs].
      intros [= <-]. split; cbn; [eauto|done].
Qed.

Lemma rooms_listed_step g i :
  rooms_listed (chatService g) → rooms_listed (chatService (step g i).1).
Proof.
  intros Hg. destruct i as [c|c|c now e]; cbn.
  - done.
  - unfold handleDisconnect; cbn.
    destruct (userRooms g !! c) as [room|]; [|done].
    destruct (bool_decide (room ≠ "")); cbn; [|done].
    by apply rooms_listed_removeUserFromRoom.
  - destruct e as [n|rn ip pw| |rid pw|rid|rid txt|rid u|rid|rid u]; cbn.
    + unfold handleSetUserName; cbn.
      destruct (userRooms g !! c) as [room|]; [|done].
      by destruct (bool_decide (room ≠ "")).
    + unfold handleCreateRoom; cbn.
      pose proof (rooms_listed_create rn c (default false ip) pw _ Hg) as H.
      by destruct (default false ip).
    + done.
    + unfold handleJoinRoom, getRoom.
      destruct (rooms (chatService g) !! rid) as [room|]; [|done].
      destruct (isPrivate room && negb (canAccessRoom (chatService g) rid c)).
      * destruct (passwordAccepted (chatService g) rid pw); [|done].
        cbn. by apply rooms_listed_addUserToRoom, rooms_listed_grant.
      * cbn. by apply rooms_listed_addUserToRoom.
    + by apply rooms_listed_removeUserFromRoom.
    + by apply rooms_listed_addMessage.
    + unfold handleAddUserToPrivateRoom, getRoom.
      destruct (rooms (chatService g) !! rid) as [room|]; [|done].
      destruct (isPrivate room); cbn; [|done].
      by apply rooms_listed_grant.
    + unfold handleRemoveRoom.
      destruct (isRoomCreator (chatService g) rid c); cbn; [|done].
      by apply rooms_listed_removeRoom.
    + unfold handleRemoveUserFromRoom.
      destruct (isRoomCreator (chatService g) rid c); cbn; [|done].
      destruct (bool_decide (u ∈ connected g)); cbn;
        by apply rooms_listed_removeUserFromRoom.
Qed.

Lemma reachable_rooms_listed g :
  reachable g → rooms_listed (chatService g).
Proof.
  induction 1 as [|g i _ IH]; [done|]. by apply rooms_listed_step.
Qed.

(** On the registry alone the creator of a private room is not let in; it is
    [handleCreateRoom] that puts the creator on the allow-list. *)
Lemma creator_needs_listing :
  canAccessRoom (createRoom "secret" "A" true (Some "x") newChatService)
    "secret" "A" = false
  ∧ canAccessRoom
      (chatService
         (handleCreateRoom newChatGateway "A" "secret" (Some true)
            (Some "x")).1)
      "secret" "A" = true.
Proof. split; reflexivity. Qed.

(** C2. In every state the gateway can reach, for every existing private room
    and every connection id, [canAccessRoom] is true exactly when the room's
    allow-list contains the connection or the connection is the room's
    creator. *)
Theorem canAccess_private_iff (g : ChatGateway) (roomId : string) (room : Room)
    (connId : string) :
  reachable g →
  rooms (chatService g) !! roomId = Some room →
  isPrivate room = true →
  canAccessRoom (chatService g) roomId connId = true
  ↔ (on_allowList room connId ∨ creatorId room = connId).
Proof.
  intros Hg Hroom Hpriv.
  destruct (reachable_rooms_listed g Hg roomId room Hroom) as [_ Hc].
  specialize (Hc Hpriv).
  unfold canAccessRoom, on_allowList in *. rewrite Hroom, Hpriv; cbn.
  destruct (allowedUsers room) as [a|]; [|done].
  rewrite bool_decide_eq_true. split; [by left|].
  intros [?| <-]; done.
Qed.

Lemma reachable_run g trace : reachable g → reachable (run g trace).1.
Proof.
  revert g. induction trace as [|i rest IH]; intros g Hg; [done|].
  cbn. pose proof (reachable_step g i Hg) as H1.
  destruct (step g i) as [g1 out1]; cbn in *.
  specialize (IH g1 H1). by destruct (run g1 rest).
Qed.

Lemma canAccess_private_iff_witness :
  canAccessRoom (chatService (run newChatGateway (secret_created "x")).1)
    "secret" "A" = true
  ↔ (on_allowList secret_room "A" ∨ creatorId secret_room = "A").
Proof.
  apply (canAccess_private_iff (run newChatGateway (secret_created "x")).1
           "secret" secret_room "A").
  - apply reachable_run, reachable_init.
  - reflexivity.
  - reflexivity.
Defined.

(** ** Disconnecting *)

(** Nothing ever writes [userRooms]: no handler calls [userRooms.set]. *)
Lemma userRooms_never_set g : reachable g → userRooms g = ∅.
Proof.
  induction 1 as [|g i _ IH]; [done|].
  destruct i as [c|c|c now e]; cbn.
  - done.
  - unfold handleDisconnect; cbn. by rewrite IH.
  - destruct e as [n|rn ip pw| |rid pw|rid|rid txt|rid u|rid|rid u]; cbn.
    + unfold handleSetUserName; cbn. by rewrite IH.
    + unfold handleCreateRoom; cbn. by destruct (default false ip).
    + done.
    + unfold handleJoinRoom.
      destruct (getRoom (chatService g) rid) as [room|]; [|done].
      destruct (isPrivate room && negb (canAccessRoom (chatService g) rid c));
        [|done].
      by destruct (passwordAccepted (chatService g) rid pw).
    + by rewrite IH.
    + done.
    + unfold handleAddUserToPrivateRoom.
      destruct (getRoom (chatService g) rid) as [room|]; [|done].
      by destruct (isPrivate room).
    + unfold handleRemoveRoom.
      by destruct (isRoomCreator (chatService g) rid c).
    + unfold handleRemoveUserFromRoom.
      destruct (isRoomCreator (chatService g) rid c); [|done]; cbn.
      by destruct (bool_decide (u ∈ connected g)).
Qed.

(** So a disconnect changes neither the registry nor sends anything. *)
Lemma disconnect_keeps_membership g client roomId :
  reachable g →
  is_member g roomId client →
  is_member (step g (Disconnect client)).1 roomId client
  ∧ (step g (Disconnect client)).2 = [].
Proof.
  intros Hg Hm. cbn. unfold handleDisconnect; cbn.
  by rewrite (userRooms_never_set g Hg), lookup_empty.
Qed.

(** C1, on [two_joined]: B joined "general" through [join_room] and A is the
    other member.  When B disconnects, B is still in the room's membership
    map, nothing is sent at all although A is there to receive what goes to
    the room, and the roster of "general" still lists B. *)
Theorem disconnect_after_join_is_lost :
  let g := (run newChatGateway two_joined).1 in
  let after := step g (Disconnect "B") in
  is_member g "general" "A" ∧ is_member g "general" "B"
  ∧ is_member after.1 "general" "B"
  ∧ after.2 = []
  ∧ "A" ∈ recipients after.1 (ToRoom "general")
  ∧ "B" ∈ uid <$> roster (getRoom (chatService after.1) "general").
Proof.
  cbn zeta.
  split; [|split; [|split; [|split; [|split]]]].
  - eexists; split; [reflexivity|]. by vm_compute; eauto.
  - eexists; split; [reflexivity|]. by vm_compute; eauto.
  - eexists; split; [reflexivity|]. by vm_compute; eauto.
  - reflexivity.
  - by vm_compute.
  - vm_compute. apply list_elem_of_In. cbn. tauto.
Qed.

(** ** Joining a private room *)

Lemma admitToRoom_joined g client roomId :
  is_Some (rooms (chatService g) !! roomId) →
  joined (admitToRoom g client roomId) roomId client.
Proof.
  intros [room Hroom]. unfold joined, admitToRoom, is_member; cbn.
  unfold addUserToRoom, getRoom, getRoomCreator. rewrite Hroom; cbn.
  rewrite lookup_alter_eq, Hroom; cbn.
  split; [|split].
  - eexists; split; [done|]. cbn. rewrite lookup_insert_eq. eauto.
  - set_solver.
  - eexists _, _; split; [done|].
    apply list_elem_of_fmap.
    exists {| uid := client; uname := getUserName (chatService g) client |}.
    split; [done|]. apply list_elem_of_fmap.
    exists (client, {| uid := client;
                       uname := getUserName (chatService g) client |}).
    split; [done|]. apply elem_of_map_to_list, lookup_insert_eq.
Qed.

Lemma allowed_in_alter f k s roomId client :
  (∀ room, isPrivate (f room) = isPrivate room) →
  (∀ room, on_allowList room client → on_allowList (f room) client) →
  allowed_in s roomId client →
  allowed_in (with_rooms (alter f k) s) roomId client.
Proof.
  intros Hp Ha (room & Hroom & Hpriv & Hon). unfold allowed_in; cbn.
  rewrite lookup_alter. case_decide as Hk.
  - subst k. rewrite Hroom; cbn. eexists; split; [done|].
    split; [by rewrite Hp|by apply Ha].
  - eauto.
Qed.

Lemma on_allowList_grant u room client :
  on_allowList room client →
  on_allowList (with_allowedUsers (λ a, {[u]} ∪ a) room) client.
Proof.
  unfold on_allowList; cbn. destruct (allowedUsers room); cbn; set_solver.
Qed.

Lemma allowed_in_addUserToRoom k u s roomId client :
  allowed_in s roomId client → allowed_in (addUserToRoom k u s) roomId client.
Proof.
  unfold addUserToRoom. destruct (rooms s !! k); [|done].
  by apply allowed_in_alter.
Qed.

Lemma allowed_in_removeUserFromRoom k u s roomId client :
  allowed_in s roomId client →
  allowed_in (removeUserFromRoom k u s) roomId client.
Proof.
  unfold removeUserFromRoom. destruct (rooms s !! k); [|done].
  by apply allowed_in_alter.
Qed.

Lemma allowed_in_addMessage k m s roomId client :
  allowed_in s roomId client → allowed_in (addMessage k m s) roomId client.
Proof.
  unfold addMessage. destruct (rooms s !! k); [|done].
  by apply allowed_in_alter.
Qed.

Lemma allowed_in_grant k u s roomId client :
  allowed_in s roomId client →
  allowed_in (addUserToPrivateRoom k u s).2 roomId client.
Proof.
  unfold addUserToPrivateRoom. destruct (rooms s !! k) as [r|]; [|done].
  destruct (isPrivate r); cbn; [|done].
  apply allowed_in_alter; [done|]. intros room. apply on_allowList_grant.
Qed.

Lemma allowed_in_createRoom k u priv pw s roomId client :
  allowed_in s roomId client →
  allowed_in (createRoom k u priv pw s) roomId client.
Proof.
  intros (room & Hroom & Hrest).
  destruct (rooms s !! k) as [r|] eqn:Hk.
  - rewrite createRoom_existing by (rewrite Hk; eauto). by exists room.
  - exists room. rewrite createRoom_fresh by done.
    rewrite lookup_insert_ne by congruence. done.
Qed.

(** Whatever the gateway handles, short of removing the room, a connection
    on a private room's allow-list stays on it. *)
Lemma is_allowed_step g i roomId client :
  removes_room roomId i = false →
  is_allowed g roomId client → is_allowed (step g i).1 roomId client.
Proof.
  unfold is_allowed. intros Hi Hg. destruct i as [c|c|c now e]; cbn.
  - done.
  - unfold handleDisconnect; cbn.
    destruct (userRooms g !! c) as [room|]; [|done].
    destruct (bool_decide (room ≠ "")); cbn; [|done].
    by apply allowed_in_removeUserFromRoom.
  - destruct e as [n|rn ip pw| |rid pw|rid|rid txt|rid u|rid|rid u]; cbn.
    + unfold handleSetUserName; cbn.
      destruct (userRooms g !! c) as [room|]; [|done].
      by destruct (bool_decide (room ≠ "")).
    + unfold handleCreateRoom; cbn.
      destruct (default false ip); cbn.
      * by apply allowed_in_grant, allowed_in_createRoom.
      * by apply allowed_in_createRoom.
    + done.
    + unfold handleJoinRoom, getRoom.
      destruct (rooms (chatService g) !! rid) as [room|]; [|done].
      destruct (isPrivate room && negb (canAccessRoom (chatService g) rid c)).
      * destruct (passwordAccepted (chatService g) rid pw); [|done].
        cbn. by apply allowed_in_addUserToRoom, allowed_in_grant.
      * cbn. by apply allowed_in_addUserToRoom.
    + by apply allowed_in_removeUserFromRoom.
    + by apply allowed_in_addMessage.
    + unfold handleAddUserToPrivateRoom, getRoom.
      destruct (rooms (chatService g) !! rid) as [room|]; [|done].
      destruct (isPrivate room); cbn; [|done].
      by apply allowed_in_grant.
    + unfold handleRemoveRoom.
      destruct (isRoomCreator (chatService g) rid c); cbn; [|done].
      cbn in Hi. apply bool_decide_eq_false in Hi.
      destruct Hg as (room & Hroom & Hrest). exists room.
      unfold removeRoom; cbn. by rewrite lookup_delete_ne.
    + unfold handleRemoveUserFromRoom.
      destruct (isRoomCreator (chatService g) rid c); cbn; [|done].
      destruct (bool_decide (u ∈ connected g)); cbn;
        by apply allowed_in_removeUserFromRoom.
Qed.

Lemma is_allowed_run trace g roomId client :
  Forall (λ i, removes_room roomId i = false) trace →
  is_allowed g roomId client → is_allowed (run g trace).1 roomId client.
Proof.
  revert g. induction trace as [|i rest IH]; intros g Htr Hg; [done|].
  apply Forall_cons in Htr as [Hi Hrest]. cbn.
  pose proof (is_allowed_step g i roomId client Hi Hg) as H1.
  destruct (step g i) as [g1 out1]; cbn in *.
  specialize (IH g1 Hrest H1). by destruct (run g1 rest).
Qed.

(** Once on the allow-list, a join needs no password. *)
Lemma allowed_join g client roomId pw :
  is_allowed g roomId client →
  joined (handleJoinRoom g client roomId pw) roomId client.
Proof.
  intros (room & Hroom & Hpriv & Hon).
  unfold handleJoinRoom, getRoom, canAccessRoom. rewrite Hroom, Hpriv; cbn.
  unfold on_allowList in Hon. destruct (allowedUsers room) as [a|]; [|done].
  rewrite bool_decide_eq_true_2 by done; cbn.
  apply admitToRoom_joined. rewrite Hroom; eauto.
Qed.

(** C6, for a non-empty password.  Take a private room whose stored password
    [pw] is not the empty string and a connection that is not on its
    allow-list.  A [join_room] with anything but [pw] (or with no password)
    answers [Unauthorized] and changes nothing.  A [join_room] with [pw] goes
    through and puts the connection on the allow-list; from then on, as long
    as the room is not removed, the connection stays on the allow-list and
    its [join_room] goes through whatever password it sends, none
    included. *)
Theorem password_join (g : ChatGateway) (roomId : string) (room : Room)
    (pw : string) (a : gset string) (client : string) :
  rooms (chatService g) !! roomId = Some room →
  isPrivate room = true →
  password room = Some pw →
  pw ≠ "" →
  allowedUsers room = Some a →
  client ∉ a →
  (∀ attempt, attempt ≠ Some pw →
     handleJoinRoom g client roomId attempt = (g, unauthorized client))
  ∧ joined (handleJoinRoom g client roomId (Some pw)) roomId client
  ∧ is_allowed (handleJoinRoom g client roomId (Some pw)).1 roomId client
  ∧ (∀ trace later,
       Forall (λ i, removes_room roomId i = false) trace →
       let g' := (run (handleJoinRoom g client roomId (Some pw)).1 trace).1 in
       is_allowed g' roomId client
       ∧ joined (handleJoinRoom g' client roomId later) roomId client).
Proof.
  intros Hroom Hpriv Hpw Hne Ha Hnot.
  assert (Hin : handleJoinRoom g client roomId (Some pw)
                = admitToRoom
                    (with_service
                       (λ s, (addUserToPrivateRoom roomId client s).2) g)
                    client roomId).
  { unfold handleJoinRoom, getRoom, canAccessRoom, passwordAccepted,
      verifyRoomPassword, truthy.
    rewrite Hroom, Hpriv, Ha, Hpw; cbn.
    rewrite (bool_decide_eq_false_2 _ Hnot); cbn.
    by rewrite !bool_decide_eq_true_2. }
  assert (Hgrant : allowed_in (addUserToPrivateRoom roomId client
                                 (chatService g)).2 roomId client).
  { unfold addUserToPrivateRoom, allowed_in. rewrite Hroom, Hpriv; cbn.
    rewrite lookup_alter_eq, Hroom; cbn. eexists; split; [done|].
    split; [done|]. unfold on_allowList; cbn. rewrite Ha; cbn. set_solver. }
  assert (Hafter : is_allowed (handleJoinRoom g client roomId (Some pw)).1
                     roomId client).
  { rewrite Hin. unfold is_allowed, admitToRoom; cbn.
    by apply allowed_in_addUserToRoom. }
  split; [|split; [|split]].
  - intros attempt Hwrong.
    unfold handleJoinRoom, getRoom, canAccessRoom, passwordAccepted,
      verifyRoomPassword.
    rewrite Hroom, Hpriv, Ha; cbn.
    rewrite (bool_decide_eq_false_2 _ Hnot); cbn.
    destruct attempt as [q|]; [|done].
    rewrite Hpw; cbn.
    rewrite (bool_decide_eq_false_2 (Some pw = Some q)) by congruence.
    by rewrite andb_false_r.
  - rewrite Hin. apply admitToRoom_joined; cbn.
    destruct Hgrant as (r & -> & _). eauto.
  - done.
  - intros trace later Htrace g'.
    assert (is_allowed g' roomId client) by by apply is_allowed_run.
    split; [done|]. by apply allowed_join.
Qed.

Lemma password_join_witness :
  let g := (run newChatGateway (secret_created "x")).1 in
  (rooms (chatService g) !! "secret" = Some secret_room ∧ "B" ∉ ({["A"]} : gset string))
  ∧ (∀ attempt, attempt ≠ Some "x" →
       handleJoinRoom g "B" "secret" attempt = (g, unauthorized "B"))
  ∧ joined (handleJoinRoom g "B" "secret" (Some "x")) "secret" "B"
  ∧ is_allowed (handleJoinRoom g "B" "secret" (Some "x")).1 "secret" "B"
  ∧ (∀ trace later,
       Forall (λ i, removes_room "secret" i = false) trace →
       let g' := (run (handleJoinRoom g "B" "secret" (Some "x")).1 trace).1 in
       is_allowed g' "secret" "B"
       ∧ joined (handleJoinRoom g' "B" "secret" later) "secret" "B").
Proof.
  intros g.
  assert (Hnot : "B" ∉ ({["A"]} : gset string)) by (by vm_compute).
  split; [split; [reflexivity|exact Hnot]|].
  apply (password_join g "secret" secret_room "x" {["A"]} "B").
  - reflexivity.
  - reflexivity.
  - reflexivity.
  - discriminate.
  - reflexivity.
  - exact Hnot.
Defined.

(** C6 fails for the empty password: [password && ...] in [handleJoinRoom]
    takes the empty string for no password at all.  A creates "secret"
    private with password "", B is not on the allow-list, and B's
    [join_room] with exactly that password is answered [Unauthorized]. *)
Lemma empty_password_is_refused :
  let g := (run newChatGateway (secret_created "")).1 in
  (∃ room a, rooms (chatService g) !! "secret" = Some room
             ∧ isPrivate room = true ∧ password room = Some ""
             ∧ allowedUsers room = Some a ∧ "B" ∉ a)
  ∧ handleJoinRoom g "B" "secret" (Some "") = (g, unauthorized "B")
  ∧ ¬ joined (handleJoinRoom g "B" "secret" (Some "")) "secret" "B".
Proof.
  intros g. split; [|split].
  - exists {| users := ∅; messages := []; isPrivate := true;
              password := Some ""; allowedUsers := Some {["A"]};
              creatorId := "A" |}, {["A"]}.
    repeat split; by vm_compute.
  - reflexivity.
  - intros [(room & Hroom & Hin) _].
    vm_compute in Hroom. injection Hroom as <-.
    vm_compute in Hin. by destruct Hin.
Qed.

End ChatFacts.

(** * Properties of the voice service *)

Module VoiceFacts.
Import Voice.

Ltac run_m :=
  unfold bind, gets, ret, throw, modify, request in *; cbn in *.

Section WithEngine.

Variable E : MediaEngine.

(** ** Calls that name something that is not there *)

Lemma getOrCreateRouter_existing roomId room s :
  voiceRooms s !! roomId = Some room →
  getOrCreateRouter E roomId s = (Ok (router room), s).
Proof. intros H. unfold getOrCreateRouter. run_m. by rewrite H. Qed.

Lemma getOrCreateRouter_fresh roomId s :
  voiceRooms s !! roomId = None →
  rejects E (worker s) CreateRouter = false →
  getOrCreateRouter E roomId s
  = (Ok (minted (worker s)),
     {| worker := (worker_createRouter (worker s)).2;
        voiceRooms := <[roomId := {| roomId := roomId;
                                     router := minted (worker s);
                                     users := ∅ |}]> (voiceRooms s) |}).
Proof. intros H Hacc. unfold getOrCreateRouter. run_m. by rewrite H, Hacc. Qed.

Lemma getOrCreateRouter_rejected roomId s :
  voiceRooms s !! roomId = None →
  rejects E (worker s) CreateRouter = true →
  getOrCreateRouter E roomId s = (Throw (EngineRejected CreateRouter), s).
Proof. intros H Hrej. unfold getOrCreateRouter. run_m. by rewrite H, Hrej. Qed.

(** With no such room, these five throw and leave the service as it was. *)
Lemma missing_room_throws roomId s :
  voiceRooms s !! roomId = None →
  (∀ u t d, connectWebRtcTransport E roomId u t d s
            = (Throw (Err "Voice room not found"), s))
  ∧ (∀ u t k p, produce E roomId u t k p s
                = (Throw (Err "Voice room not found"), s))
  ∧ (∀ u p c, consume E roomId u p c s
              = (Throw (Err "Voice room not found"), s))
  ∧ (∀ u c, resumeConsumer E roomId u c s
            = (Throw (Err "Voice room not found"), s))
  ∧ (∀ u b, toggleMute E roomId u b s
            = (Throw (Err "Voice room not found"), s)).
Proof.
  intros H. repeat split; intros;
    unfold connectWebRtcTransport, produce, consume, resumeConsumer, toggleMute;
    run_m; by rewrite H.
Qed.

(** With the room but no such participant they throw as well, and again
    nothing has changed. *)
Lemma missing_user_throws roomId room userId s :
  voiceRooms s !! roomId = Some room →
  users room !! userId = None →
  (∀ t d, connectWebRtcTransport E roomId userId t d s
          = (Throw (Err "User not found"), s))
  ∧ (∀ t k p, produce E roomId userId t k p s
              = (Throw (Err "User or transport not found"), s))
  ∧ (∀ p c, ∃ e, consume E roomId userId p c s = (Throw (Err e), s))
  ∧ (∀ c, resumeConsumer E roomId userId c s
          = (Throw (Err "User not found"), s))
  ∧ (∀ b, toggleMute E roomId userId b s
          = (Throw (Err "User not found in voice room"), s)).
Proof.
  intros Hr Hu. repeat split; intros;
    unfold connectWebRtcTransport, produce, consume, resumeConsumer, toggleMute;
    run_m; rewrite Hr; cbn; try rewrite Hu; try done.
  destruct (canConsume E (worker s) (router room) p c); cbn; eauto.
Qed.

(** [createWebRtcTransport] is different: it goes through
    [getOrCreateRouter] before it looks for the participant. *)
Lemma createTransport_missing_room roomId userId direction s :
  voiceRooms s !! roomId = None →
  rejects E (worker s) CreateRouter = false →
  rejects E (worker_createRouter (worker s)).2
    (CreateWebRtcTransport (minted (worker s))) = false →
  createWebRtcTransport E roomId userId direction s
  = (Throw (Err "User not found"),
     {| worker :=
          (router_createWebRtcTransport (minted (worker s))
             (worker_createRouter (worker s)).2).2;
        voiceRooms := <[roomId := {| roomId := roomId;
                                     router := minted (worker s);
                                     users := ∅ |}]> (voiceRooms s) |}).
Proof.
  intros Hr Hacc1 Hacc2. unfold createWebRtcTransport.
  unfold bind at 1. rewrite getOrCreateRouter_fresh by done.
  unfold setUserTransport. run_m.
  rewrite lookup_insert_eq; cbn. rewrite Hacc2; cbn.
  rewrite lookup_insert_eq; cbn. by rewrite lookup_empty.
Qed.

End WithEngine.

(** C3, at [createWebRtcTransport "r1" "u1" send] on the service as it
    starts, with an engine that accepts every request: the call throws
    "User not found", and yet afterwards the table holds a voice room "r1"
    without participants that was not there before, and the worker has
    handed out a router and a transport. *)
Theorem createTransport_failure_leaves_room :
  let after := createWebRtcTransport permissive "r1" "u1" send newVoiceService in
  after.1 = Throw (Err "User not found")
  ∧ voiceRooms newVoiceService !! "r1" = None
  ∧ voiceRooms after.2 !! "r1"
    = Some {| roomId := "r1"; router := 0; users := ∅ |}
  ∧ minted (worker newVoiceService) = 0
  ∧ minted (worker after.2) = 2
  ∧ after.2 ≠ newVoiceService.
Proof.
  cbn zeta. repeat split. intros H.
  apply (f_equal (λ s, minted (worker s))) in H. vm_compute in H. discriminate.
Qed.

(** ** Rooms, routers and the last participant *)

Section Lifecycle.

Variable E : MediaEngine.

Local Arguments closeUser : simpl never.

Lemma closeUser_minted user w : minted (closeUser user w) = minted w.
Proof.
  unfold closeUser.
  assert (Hfold : ∀ l w0,
            minted (foldl (λ w c, close (HConsumer (consumer_id c)) w) w0 l)
            = minted w0).
  { induction l as [|c l IH]; intros w0; cbn; [done|]. by rewrite IH. }
  destruct (consumerTransport user), (producerTransport user), (producer user);
    cbn; by rewrite Hfold.
Qed.

Lemma close_routers h w n :
  (∀ m, h ≠ HRouter m) →
  HRouter n ∈ closed (close h w) ↔ HRouter n ∈ closed w.
Proof.
  intros Hh; cbn. rewrite elem_of_cons. split; [|by right].
  intros [Heq|Hin]; [|done]. by destruct (Hh n).
Qed.

Lemma closeUser_routers user w n :
  HRouter n ∈ closed (closeUser user w) ↔ HRouter n ∈ closed w.
Proof.
  unfold closeUser.
  assert (Hfold : ∀ l w0,
            HRouter n ∈ closed
              (foldl (λ w c, close (HConsumer (consumer_id c)) w) w0 l)
            ↔ HRouter n ∈ closed w0).
  { induction l as [|c l IH]; intros w0; cbn [foldl]; [done|].
    rewrite IH. by apply close_routers. }
  destruct (consumerTransport user), (producerTransport user), (producer user);
    rewrite ?close_routers by done; rewrite Hfold;
    rewrite ?close_routers by done; done.
Qed.

Lemma routers_minted_exec c s :
  routers_minted s → routers_minted (exec E c s).
Proof.
  intros [Hr Hc]. destruct c; cbn;
  unfold joinVoiceChannel, leaveVoiceChannel, toggleMute,
    getRouterRtpCapabilities, createWebRtcTransport, connectWebRtcTransport,
    produce, consume, resumeConsumer, getOrCreateRouter, setUserTransport;
  run_m; repeat (case_match; simplify_map_eq/=).
  all: try done.
  all: split; cbn; [intros k vr Hk|intros n Hn].
  all: try (rewrite closeUser_minted).
  all: try (rewrite ?elem_of_cons, ?closeUser_routers in Hn).
  all: repeat (first [rewrite lookup_alter in Hk | rewrite lookup_insert in Hk
                     | rewrite lookup_delete in Hk]; try case_decide);
    simplify_eq/=.
  all: try lia.
  all: try match goal with
           | H : _ <$> ?o = Some _ |- _ => destruct o eqn:?; simplify_eq/=
           end.
  all: try match goal with
           | H : _ ∨ _ |- _ => destruct H as [?|?]; simplify_eq/=
           end.
  all: try (by eapply Nat.lt_le_trans; [eapply Hr; eassumption|lia]).
  all: try (by eapply Nat.lt_le_trans; [eapply Hc; eassumption|lia]).
Qed.

Lemma reachable_routers_minted s : reachable E s → routers_minted s.
Proof.
  induction 1 as [|s c _ IH]; [|by apply routers_minted_exec].
  split; [intros k vr|intros n]; cbn; [by rewrite lookup_empty|].
  by rewrite elem_of_nil.
Qed.

Lemma size_alter {A} (f : A → A) (k : string) (m : gmap string A) :
  size (alter f k m) = size m.
Proof. by rewrite <-!size_dom, dom_alter_L. Qed.

Lemma populated_exec c s :
  router_only s c = false → populated s → populated (exec E c s).
Proof.
  intros Hc Hp. destruct c; cbn in Hc |- *;
  unfold joinVoiceChannel, leaveVoiceChannel, toggleMute,
    getRouterRtpCapabilities, createWebRtcTransport, connectWebRtcTransport,
    produce, consume, resumeConsumer, getOrCreateRouter, setUserTransport;
  run_m; repeat (case_match; simplify_map_eq/=).
  all: try done.
  all: intros k vr Hk; cbn in Hk.
  all: repeat (first [rewrite lookup_alter in Hk | rewrite lookup_insert in Hk
                     | rewrite lookup_delete in Hk]; try case_decide);
    simplify_eq/=.
  all: try match goal with
           | H : _ <$> ?o = Some _ |- _ => destruct o eqn:?; simplify_eq/=
           end.
  all: rewrite ?size_alter.
  all: try (by eapply Hp).
  all: try (rewrite map_size_insert; case_match; unfold id;
            [by eapply Hp|lia]).
  - rewrite map_size_insert_None by apply lookup_empty. lia.
  - match goal with
    | H : bool_decide (_ = 0) = false |- _ => apply bool_decide_eq_false in H
    end.
    lia.
Qed.

Lemma by_joining_populated s : reachable_by_joining E s → populated s.
Proof.
  induction 1 as [|s c _ IH Hc]; [|by apply populated_exec].
  intros k vr; cbn. by rewrite lookup_empty.
Qed.

Lemma by_joining_reachable s : reachable_by_joining E s → reachable E s.
Proof. induction 1; by constructor. Qed.

Lemma leave_keeps_no_empty_room roomId userId room s :
  voiceRooms (leaveVoiceChannel roomId userId s).2 !! roomId = Some room →
  1 ≤ size (users room).
Proof.
  unfold leaveVoiceChannel; run_m.
  repeat (case_match; simplify_map_eq/=); try done.
  all: intros ?; simplify_eq/=.
  all: repeat match goal with
              | H : bool_decide _ = false |- _ =>
                  apply bool_decide_eq_false in H
              end; lia.
Qed.

Lemma leave_last roomId userId user room s :
  voiceRooms s !! roomId = Some room →
  users room = {[userId := user]} →
  leaveVoiceChannel roomId userId s
  = (Ok (),
     {| worker := close (HRouter (router room)) (closeUser user (worker s));
        voiceRooms :=
          delete roomId
            (alter (with_users (delete userId)) roomId (voiceRooms s)) |}).
Proof.
  intros Hroom Husers. unfold leaveVoiceChannel; run_m.
  rewrite Hroom; cbn. rewrite Husers, lookup_singleton_eq; cbn.
  rewrite lookup_alter_eq, Hroom; cbn.
  rewrite Husers, delete_singleton_eq.
  by rewrite bool_decide_eq_true_2 by apply map_size_empty.
Qed.

Lemma join_fresh roomId userId userName s :
  voiceRooms s !! roomId = None →
  rejects E (worker s) CreateRouter = false →
  (joinVoiceChannel E roomId userId userName s).2
  = {| worker := (worker_createRouter (worker s)).2;
       voiceRooms :=
         <[roomId :=
             {| roomId := roomId; router := minted (worker s);
                users := {[userId :=
                             {| userId := userId; userName := userName;
                                producerTransport := None;
                                consumerTransport := None; producer := None;
                                consumers := ∅; isMuted := false |}]} |}]>
           (voiceRooms s) |}.
Proof.
  intros Hroom Hacc. unfold joinVoiceChannel.
  unfold bind at 1. rewrite getOrCreateRouter_fresh by done.
  run_m. rewrite lookup_insert_eq; cbn. rewrite lookup_empty; cbn.
  unfold with_voiceRooms; cbn. rewrite alter_insert_eq.
  unfold with_users; cbn. by rewrite insert_empty.
Qed.

(** C4, without the calls that only fetch a router.  In every state the
    service reaches: if rooms came into the table through [joinVoiceChannel]
    only, every room in it has at least one participant; whatever
    [leaveVoiceChannel] is called with, the room it names is afterwards out
    of the table or has a participant; and when it removes the only
    participant of a room, the room's router is closed, the room is out of
    the table, and a [joinVoiceChannel] that follows (the engine granting a
    router) puts the room back with a router that is neither the old one nor
    closed. *)
Theorem voice_room_lifecycle (s : VoiceService) :
  reachable E s →
  (reachable_by_joining E s → populated s)
  ∧ (∀ roomId userId room,
       voiceRooms (leaveVoiceChannel roomId userId s).2 !! roomId = Some room →
       1 ≤ size (users room))
  ∧ (∀ roomId userId user room,
       voiceRooms s !! roomId = Some room →
       users room = {[userId := user]} →
       let left := (leaveVoiceChannel roomId userId s).2 in
       voiceRooms left !! roomId = None
       ∧ HRouter (router room) ∈ closed (worker left)
       ∧ ∀ userId' userName',
           rejects E (worker left) CreateRouter = false →
           let back := (joinVoiceChannel E roomId userId' userName' left).2 in
           ∃ room', voiceRooms back !! roomId = Some room'
                    ∧ is_Some (users room' !! userId')
                    ∧ router room' ≠ router room
                    ∧ HRouter (router room') ∉ closed (worker back)).
Proof.
  intros Hs. split; [apply by_joining_populated|].
  split; [intros roomId userId room; apply leave_keeps_no_empty_room|].
  intros roomId userId user room Hroom Husers.
  destruct (reachable_routers_minted s Hs) as [Hr Hc].
  rewrite (leave_last _ _ _ _ _ Hroom Husers); cbn.
  split; [apply lookup_delete_eq|]. split; [apply list_elem_of_here|].
  intros userId' userName' Hacc.
  rewrite join_fresh by (try apply lookup_delete_eq; done); cbn.
  rewrite lookup_insert_eq, closeUser_minted.
  eexists; split; [done|]; cbn.
  split; [rewrite lookup_singleton_eq; eauto|].
  specialize (Hr _ _ Hroom).
  split; [lia|].
  rewrite elem_of_cons, closeUser_routers. intros [[= Heq]|Hin]; [lia|].
  apply Hc in Hin. lia.
Qed.

End Lifecycle.

Lemma voice_room_lifecycle_witness :
  reachable permissive alone
  ∧ (reachable_by_joining permissive alone → populated alone)
  ∧ (∀ roomId userId room,
       voiceRooms (leaveVoiceChannel roomId userId alone).2 !! roomId
       = Some room →
       1 ≤ size (users room))
  ∧ (∀ roomId userId user room,
       voiceRooms alone !! roomId = Some room →
       users room = {[userId := user]} →
       let left := (leaveVoiceChannel roomId userId alone).2 in
       voiceRooms left !! roomId = None
       ∧ HRouter (router room) ∈ closed (worker left)
       ∧ ∀ userId' userName',
           rejects permissive (worker left) CreateRouter = false →
           let back :=
             (joinVoiceChannel permissive roomId userId' userName' left).2 in
           ∃ room', voiceRooms back !! roomId = Some room'
                    ∧ is_Some (users room' !! userId')
                    ∧ router room' ≠ router room
                    ∧ HRouter (router room') ∉ closed (worker back)).
Proof.
  assert (H : reachable permissive alone)
    by apply reachable_exec, reachable_init.
  split; [exact H|].
  apply (voice_room_lifecycle permissive alone). exact H.
Defined.

(** C4 fails as stated: asking for a room's RTP capabilities before anyone
    has joined goes through [getOrCreateRouter] and leaves a room without
    participants in the table. *)
Lemma capabilities_request_leaves_empty_room :
  let s := exec permissive (GetRouterRtpCapabilities "r1") newVoiceService in
  reachable permissive s
  ∧ voiceRooms s !! "r1" = Some {| roomId := "r1"; router := 0; users := ∅ |}
  ∧ ¬ populated s.
Proof.
  cbn zeta. split; [apply reachable_exec, reachable_init|].
  split; [reflexivity|]. intros Hp.
  specialize (Hp "r1" {| roomId := "r1"; router := 0; users := ∅ |} eq_refl).
  vm_compute in Hp. lia.
Qed.

(** ** Muting and producing *)

Section Media.

Variable E : MediaEngine.

Lemma toggleMute_found roomId userId room user (isMuted : bool) s :
  voiceRooms s !! roomId = Some room →
  users room !! userId = Some user →
  (∀ p, producer user = Some p →
        rejects E (worker s)
          (if isMuted then ProducerPause p else ProducerResume p) = false) →
  toggleMute E roomId userId isMuted s
  = (Ok isMuted,
     {| worker := match producer user with
                  | Some p => (set_producerPaused p isMuted (worker s)).2
                  | None => worker s
                  end;
        voiceRooms :=
          alter (with_users (alter (set_isMuted isMuted) userId)) roomId
            (voiceRooms s) |}).
Proof.
  intros Hroom Huser Hacc. unfold toggleMute; run_m.
  rewrite Hroom; cbn. rewrite Huser; cbn.
  destruct (producer user) as [p|]; [|by destruct s].
  specialize (Hacc p eq_refl).
  destruct isMuted; cbn; by rewrite Hacc.
Qed.

Lemma produce_found roomId userId transportId kind rtp room user t s :
  voiceRooms s !! roomId = Some room →
  users room !! userId = Some user →
  producerTransport user = Some t →
  rejects E (worker s) (TransportProduce t kind rtp) = false →
  produce E roomId userId transportId kind rtp s
  = (Ok (pretty (minted (worker s))),
     {| worker := (transport_produce kind None (worker s)).2;
        voiceRooms :=
          alter
            (with_users
               (alter (set_producer (transport_produce kind None (worker s)).1)
                  userId))
            roomId (voiceRooms s) |}).
Proof.
  intros Hroom Huser Ht Hacc. unfold produce; run_m.
  rewrite Hroom; cbn. rewrite Huser; cbn. rewrite Ht; cbn. by rewrite Hacc.
Qed.

(** C5, as the service has it.  For a participant of a voice room,
    [toggleMute] (the engine accepting the pause or resume) returns the flag
    it was given, stores it on the participant, and pauses or resumes the
    producer the participant has, if any.  The stored flag is still there
    after a later [produce], but the producer that [produce] creates starts
    unpaused whatever the flag says. *)
Theorem toggleMute_then_produce (s : VoiceService) (roomId userId : string)
    (room : VoiceRoom) (user : VoiceUser) (isMuted : bool) :
  voiceRooms s !! roomId = Some room →
  users room !! userId = Some user →
  (∀ p, producer user = Some p →
        rejects E (worker s)
          (if isMuted then ProducerPause p else ProducerResume p) = false) →
  let muted := toggleMute E roomId userId isMuted s in
  muted.1 = Ok isMuted
  ∧ (∃ room1, voiceRooms muted.2 !! roomId = Some room1
              ∧ users room1 !! userId = Some (set_isMuted isMuted user))
  ∧ (∀ p, producer user = Some p →
          producerPaused (worker muted.2) !! producer_id p = Some isMuted)
  ∧ (∀ t transportId kind rtp,
       producerTransport user = Some t →
       rejects E (worker muted.2) (TransportProduce t kind rtp) = false →
       let produced := produce E roomId userId transportId kind rtp muted.2 in
       ∃ p room2 user2,
         produced.1 = Ok (producer_id p)
         ∧ producer_kind p = kind
         ∧ voiceRooms produced.2 !! roomId = Some room2
         ∧ users room2 !! userId = Some user2
         ∧ producer user2 = Some p
         ∧ Voice.isMuted user2 = isMuted
         ∧ producerPaused (worker produced.2) !! producer_id p = Some false).
Proof.
  intros Hroom Huser Hacc.
  rewrite (toggleMute_found _ _ _ _ _ _ Hroom Huser Hacc); cbn [fst snd].
  assert (Hroom1 :
    alter (with_users (alter (set_isMuted isMuted) userId)) roomId
      (voiceRooms s) !! roomId
    = Some (with_users (alter (set_isMuted isMuted) userId) room))
    by (by rewrite lookup_alter_eq, Hroom).
  assert (Huser1 :
    users (with_users (alter (set_isMuted isMuted) userId) room) !! userId
    = Some (set_isMuted isMuted user))
    by (cbn; by rewrite lookup_alter_eq, Huser).
  split; [done|]. split; [eauto|]. split.
  - intros p Hp. cbn. rewrite Hp; cbn. apply lookup_insert_eq.
  - intros t transportId kind rtp Ht Hacc2.
    erewrite produce_found; [|exact Hroom1|exact Huser1|exact Ht|exact Hacc2].
    cbn. eexists {| producer_id := _; producer_kind := kind |}, _, _.
    split; [done|]. split; [done|].
    split; [by rewrite lookup_alter_eq, Hroom1|]. cbn.
    split; [by rewrite lookup_alter_eq, lookup_alter_eq, Huser|].
    split; [done|]. split; [done|]. apply lookup_insert_eq.
Qed.

End Media.

Lemma toggleMute_then_produce_witness :
  let muted := toggleMute permissive "r1" "A" true with_transports in
  muted.1 = Ok true
  ∧ (∃ room1 user, voiceRooms muted.2 !! "r1" = Some room1
                   ∧ users room1 !! "A" = Some user ∧ isMuted user = true)
  ∧ (∀ transportId kind rtp,
       let produced := produce permissive "r1" "A" transportId kind rtp muted.2 in
       ∃ p room2 user2,
         produced.1 = Ok (producer_id p)
         ∧ producer_kind p = kind
         ∧ voiceRooms produced.2 !! "r1" = Some room2
         ∧ users room2 !! "A" = Some user2
         ∧ producer user2 = Some p
         ∧ isMuted user2 = true
         ∧ producerPaused (worker produced.2) !! producer_id p = Some false).
Proof.
  destruct (toggleMute_then_produce permissive with_transports "r1" "A"
              {| roomId := "r1"; router := 0;
                 users :=
                   {["A" := {| userId := "A"; userName := "Ann";
                               producerTransport := Some (mkTransport "1" 0);
                               consumerTransport := Some (mkTransport "2" 0);
                               producer := None; consumers := ∅;
                               isMuted := false |}]} |}
              {| userId := "A"; userName := "Ann";
                 producerTransport := Some (mkTransport "1" 0);
                 consumerTransport := Some (mkTransport "2" 0);
                 producer := None; consumers := ∅; isMuted := false |}
              true)
    as (H1 & (room1 & Hr1 & Hu1) & _ & H4).
  - reflexivity.
  - reflexivity.
  - intros p Hp. reflexivity.
  - intros muted. split; [exact H1|]. split.
    + exists room1. eexists. split; [exact Hr1|]. split; [exact Hu1|reflexivity].
    + intros transportId kind rtp.
      apply (H4 (mkTransport "1" 0) transportId kind rtp); reflexivity.
Defined.

(** C5 fails as stated: A joins "r1", creates both transports, mutes, and
    then produces.  The participant is still flagged muted, and the producer
    just created is not paused. *)
Lemma produce_after_mute_is_unpaused :
  ∃ pid s room user,
    muted_then_produced = (Ok pid, s)
    ∧ voiceRooms s !! "r1" = Some room
    ∧ users room !! "A" = Some user
    ∧ isMuted user = true
    ∧ producer user = Some {| producer_id := pid; producer_kind := audio |}
    ∧ producerPaused (worker s) !! pid = Some false
    ∧ producerPaused (worker s) !! pid ≠ Some true.
Proof.
  eexists _, _, _, _. split; [reflexivity|].
  split; [reflexivity|]. split; [reflexivity|].
  split; [reflexivity|]. split; [reflexivity|].
  split; [reflexivity|]. vm_compute. discriminate.
Qed.

(** ** Consuming *)

Section Consuming.

Variable E : MediaEngine.

Lemma consume_found roomId userId producerId caps room user t s :
  voiceRooms s !! roomId = Some room →
  canConsume E (worker s) (router room) producerId caps = true →
  users room !! userId = Some user →
  consumerTransport user = Some t →
  rejects E (worker s) (TransportConsume t producerId caps) = false →
  consume E roomId userId producerId caps s
  = (Ok (transport_consume E producerId caps (Some true) (worker s)).1,
     {| worker := (transport_consume E producerId caps (Some true) (worker s)).2;
        voiceRooms :=
          alter
            (with_users
               (alter
                  (add_consumer
                     (transport_consume E producerId caps (Some true)
                        (worker s)).1)
                  userId))
            roomId (voiceRooms s) |}).
Proof.
  intros Hroom Hcan Huser Ht Hacc. unfold consume; run_m.
  rewrite Hroom; cbn. rewrite Hcan; cbn. rewrite Huser; cbn.
  rewrite Ht; cbn. by rewrite Hacc.
Qed.

Lemma consume_ok_inv roomId userId producerId caps s :
  is_ok (consume E roomId userId producerId caps s).1 = true →
  ∃ room user t,
    voiceRooms s !! roomId = Some room
    ∧ canConsume E (worker s) (router room) producerId caps = true
    ∧ users room !! userId = Some user
    ∧ consumerTransport user = Some t
    ∧ rejects E (worker s) (TransportConsume t producerId caps) = false.
Proof.
  unfold consume; run_m.
  destruct (voiceRooms s !! roomId) as [room|] eqn:Hroom; cbn; [|done].
  destruct (canConsume E (worker s) (router room) producerId caps) eqn:Hcan;
    cbn; [|done].
  destruct (users room !! userId) as [user|] eqn:Huser; cbn; [|done].
  destruct (consumerTransport user) as [t|] eqn:Ht; cbn; [|done].
  destruct (rejects E (worker s) (TransportConsume t producerId caps)) eqn:Hacc;
    cbn; [done|].
  intros _. by exists room, user, t.
Qed.

(** C7.  Provided the engine does not reject the request made on the
    participant's receive transport, [consume] succeeds exactly when the room
    and the participant exist, the room's router reports the producer id
    consumable under the capabilities supplied, and the participant has a
    receive transport.  When it succeeds, the consumer is for the producer
    asked for, it is paused, and it sits in the participant's consumer map
    under its own id. *)
Theorem consume_succeeds_iff (s : VoiceService)
    (roomId userId producerId caps : string) :
  (∀ room user t,
     voiceRooms s !! roomId = Some room →
     users room !! userId = Some user →
     consumerTransport user = Some t →
     rejects E (worker s) (TransportConsume t producerId caps) = false) →
  let after := consume E roomId userId producerId caps s in
  (is_ok after.1 = true
   ↔ ∃ room user t,
       voiceRooms s !! roomId = Some room
       ∧ canConsume E (worker s) (router room) producerId caps = true
       ∧ users room !! userId = Some user
       ∧ consumerTransport user = Some t)
  ∧ (∀ c, after.1 = Ok c →
       consumer_producerId c = producerId
       ∧ consumerPaused (worker after.2) !! consumer_id c = Some true
       ∧ ∃ room1 user1,
           voiceRooms after.2 !! roomId = Some room1
           ∧ users room1 !! userId = Some user1
           ∧ consumers user1 !! consumer_id c = Some c).
Proof.
  intros Hacc after. subst after. split; [split|].
  - intros Hok. apply consume_ok_inv in Hok as (room & user & t & ? & ? & ? & ? & _).
    by exists room, user, t.
  - intros (room & user & t & Hroom & Hcan & Huser & Ht).
    by rewrite (consume_found _ _ _ _ _ _ _ _ Hroom Hcan Huser Ht
                  (Hacc _ _ _ Hroom Huser Ht)).
  - intros c Hc.
    assert (Hok : is_ok (consume E roomId userId producerId caps s).1 = true)
      by (by rewrite Hc).
    apply consume_ok_inv in Hok
      as (room & user & t & Hroom & Hcan & Huser & Ht & Hrej).
    rewrite (consume_found _ _ _ _ _ _ _ _ Hroom Hcan Huser Ht Hrej) in Hc |- *.
    cbn in Hc |- *. injection Hc as <-. cbn.
    split; [done|]. split; [apply lookup_insert_eq|].
    set (c := {| consumer_id := pretty (minted (worker s)) |}).
    exists (with_users (alter (add_consumer c) userId) room),
           (add_consumer c user).
    split; [by rewrite lookup_alter_eq, Hroom|].
    split; [cbn; by rewrite lookup_alter_eq, Huser|].
    cbn. apply lookup_insert_eq.
Qed.

Lemma getProducersForUser_excludes_caller s roomId userId e :
  e ∈ getProducersForUser s roomId userId → entry_userId e ≠ userId.
Proof.
  unfold getProducersForUser.
  destruct (voiceRooms s !! roomId) as [room|]; [|by rewrite elem_of_nil].
  rewrite list_elem_of_omap. intros ([uid user] & _ & He); cbn in He.
  destruct (producer user) as [p|]; [|done].
  destruct (bool_decide (uid ≠ userId)) eqn:Hne; [|done].
  injection He as <-. cbn. by apply bool_decide_eq_true in Hne.
Qed.

(** C9.  [consume] does not look at who owns the producer: a participant
    with a receive transport can consume any producer id the router reports
    consumable (the engine accepting the request), the participant's own
    producer included, although [getProducersForUser] never lists an entry
    of the caller. *)
Theorem consume_ignores_owner (s : VoiceService)
    (roomId userId producerId caps : string) (room : VoiceRoom)
    (user : VoiceUser) (t : WebRtcTransport) :
  voiceRooms s !! roomId = Some room →
  users room !! userId = Some user →
  consumerTransport user = Some t →
  canConsume E (worker s) (router room) producerId caps = true →
  rejects E (worker s) (TransportConsume t producerId caps) = false →
  (∃ c, (consume E roomId userId producerId caps s).1 = Ok c
        ∧ consumer_producerId c = producerId)
  ∧ (∀ p, producer user = Some p → producerId = producer_id p →
          ∃ c, (consume E roomId userId (producer_id p) caps s).1 = Ok c
               ∧ consumer_producerId c = producer_id p)
  ∧ (∀ e, e ∈ getProducersForUser s roomId userId → entry_userId e ≠ userId).
Proof.
  intros Hroom Huser Ht Hcan Hacc.
  assert (Hc : ∃ c, (consume E roomId userId producerId caps s).1 = Ok c
                    ∧ consumer_producerId c = producerId).
  { rewrite (consume_found _ _ _ _ _ _ _ _ Hroom Hcan Huser Ht Hacc).
    by eexists. }
  split; [exact Hc|]. split.
  - by intros p _ <-.
  - intros e. apply getProducersForUser_excludes_caller.
Qed.

End Consuming.

Lemma consume_succeeds_iff_witness :
  let after := consume permissive "r1" "A" "3" "opus" producing in
  (is_ok after.1 = true
   ↔ ∃ room user t,
       voiceRooms producing !! "r1" = Some room
       ∧ canConsume permissive (worker producing) (router room) "3" "opus"
         = true
       ∧ users room !! "A" = Some user
       ∧ consumerTransport user = Some t)
  ∧ (∀ c, after.1 = Ok c →
       consumer_producerId c = "3"
       ∧ consumerPaused (worker after.2) !! consumer_id c = Some true
       ∧ ∃ room1 user1,
           voiceRooms after.2 !! "r1" = Some room1
           ∧ users room1 !! "A" = Some user1
           ∧ consumers user1 !! consumer_id c = Some c).
Proof.
  apply (consume_succeeds_iff permissive producing "r1" "A" "3" "opus").
  intros room user t _ _ _. reflexivity.
Defined.

Lemma consume_ignores_owner_witness :
  (∃ c, (consume permissive "r1" "A" "3" "opus" producing).1 = Ok c
        ∧ consumer_producerId c = "3")
  ∧ (∀ p, Some (mkProducer "3" audio) = Some p → "3" = producer_id p →
          ∃ c, (consume permissive "r1" "A" (producer_id p) "opus" producing).1
               = Ok c
               ∧ consumer_producerId c = producer_id p)
  ∧ (∀ e, e ∈ getProducersForUser producing "r1" "A" → entry_userId e ≠ "A").
Proof.
  apply (consume_ignores_owner permissive producing "r1" "A" "3" "opus"
           {| roomId := "r1"; router := 0;
              users :=
                {["A" := {| userId := "A"; userName := "Ann";
                            producerTransport := Some (mkTransport "1" 0);
                            consumerTransport := Some (mkTransport "2" 0);
                            producer := Some (mkProducer "3" audio);
                            consumers := ∅; isMuted := false |}]} |}
           {| userId := "A"; userName := "Ann";
              producerTransport := Some (mkTransport "1" 0);
              consumerTransport := Some (mkTransport "2" 0);
              producer := Some (mkProducer "3" audio);
              consumers := ∅; isMuted := false |}
           (mkTransport "2" 0)).
  - reflexivity.
  - reflexivity.
  - reflexivity.
  - reflexivity.
  - reflexivity.
Defined.

End VoiceFacts.

(** * Further properties of the chat registry and gateway *)

Module ChatMore.
Import Chat ChatSpec ChatFacts.

(** ** Who gets into a room *)

(** X1. A [join_room] for an existing public room goes through for any
    connection and any password, and writes nothing but the member entry:
    the connection's id with the display name it has at that moment. *)
Theorem public_room_admits_anyone (g : ChatGateway) (roomId : string)
    (room : Room) (client : string) (pw : option string) :
  rooms (chatService g) !! roomId = Some room →
  isPrivate room = false →
  joined (handleJoinRoom g client roomId pw) roomId client
  ∧ rooms (chatService (handleJoinRoom g client roomId pw).1) !! roomId
    = Some (Chat.with_users
              (insert client
                 {| uid := client;
                    uname := getUserName (chatService g) client |}) room)
  ∧ (∀ other, other ≠ roomId →
       rooms (chatService (handleJoinRoom g client roomId pw).1) !! other
       = rooms (chatService g) !! other).
Proof.
  intros Hroom Hpub.
  assert (Heq : handleJoinRoom g client roomId pw = admitToRoom g client roomId).
  { unfold handleJoinRoom, getRoom. by rewrite Hroom, Hpub. }
  rewrite Heq. split; [apply admitToRoom_joined; rewrite Hroom; eauto|].
  unfold admitToRoom, addUserToRoom; cbn. rewrite Hroom; cbn.
  split; [by rewrite lookup_alter_eq, Hroom|].
  intros other Hne. by rewrite lookup_alter_ne.
Qed.

Lemma public_room_admits_anyone_witness :
  joined (handleJoinRoom general_only "B" "general" (Some "guess"))
    "general" "B".
Proof.
  apply (public_room_admits_anyone general_only "general"
           {| users := ∅; messages := []; isPrivate := false;
              password := None; allowedUsers := Some ∅; creatorId := "A" |}
           "B" (Some "guess")); reflexivity.
Defined.

(** X2. [add_user_to_private_room] asks nothing of its sender: in every state
    the gateway reaches, any connection can put any connection (itself
    included) on the allow-list of any private room, after which that
    connection's [join_room] goes through without the password. *)
Theorem anyone_can_grant_access (g : ChatGateway) (roomId : string)
    (room : Room) (sender target : string) :
  reachable g →
  rooms (chatService g) !! roomId = Some room →
  isPrivate room = true →
  let granted := handleAddUserToPrivateRoom g sender roomId target in
  granted.2 = [emit ToAll "room_list_updated" RoomListUpdated]
  ∧ is_allowed granted.1 roomId target
  ∧ ∀ pw, joined (handleJoinRoom granted.1 target roomId pw) roomId target.
Proof.
  intros Hg Hroom Hpriv granted.
  destruct (reachable_rooms_listed g Hg roomId room Hroom) as [[a Ha] _].
  assert (Hres : granted
    = (with_service (λ s, (addUserToPrivateRoom roomId target s).2) g,
       [emit ToAll "room_list_updated" RoomListUpdated])).
  { subst granted. unfold handleAddUserToPrivateRoom, getRoom.
    by rewrite Hroom, Hpriv. }
  rewrite Hres; cbn [fst snd].
  assert (Hall : is_allowed
            (with_service (λ s, (addUserToPrivateRoom roomId target s).2) g)
            roomId target).
  { unfold is_allowed, allowed_in; cbn. unfold addUserToPrivateRoom.
    rewrite Hroom, Hpriv; cbn. rewrite lookup_alter_eq, Hroom; cbn.
    eexists; split; [done|]. split; [done|].
    unfold on_allowList; cbn. rewrite Ha; cbn. set_solver. }
  split; [done|]. split; [done|]. intros pw. by apply allowed_join.
Qed.

Lemma anyone_can_grant_access_witness :
  let granted := handleAddUserToPrivateRoom secret_only "B" "secret" "B" in
  granted.2 = [emit ToAll "room_list_updated" RoomListUpdated]
  ∧ is_allowed granted.1 "secret" "B"
  ∧ ∀ pw, joined (handleJoinRoom granted.1 "B" "secret" pw) "secret" "B".
Proof.
  apply (anyone_can_grant_access secret_only "secret" secret_room "B" "B").
  - apply reachable_run, reachable_init.
  - reflexivity.
  - reflexivity.
Defined.

(** X3. A [create_room] for a name that is taken leaves the room's creator,
    visibility, password, members and messages as they are, yet announces
    [room_created] to everyone with the sender as creator; and when both the
    room and the request are private, it puts the sender on the room's
    allow-list. *)
Theorem create_room_on_taken_name (g : ChatGateway) (roomName : string)
    (room : Room) (sender : string) (priv : option bool)
    (pw : option string) :
  reachable g →
  rooms (chatService g) !! roomName = Some room →
  let created := handleCreateRoom g sender roomName priv pw in
  created.2 = [emit ToAll "room_created"
                 (RoomCreated roomName (default false priv) sender)]
  ∧ getRoomCreator (chatService created.1) roomName = Some (creatorId room)
  ∧ (∃ room', rooms (chatService created.1) !! roomName = Some room'
              ∧ isPrivate room' = isPrivate room
              ∧ password room' = password room
              ∧ users room' = users room
              ∧ messages room' = messages room)
  ∧ (isPrivate room = true → default false priv = true →
     is_allowed created.1 roomName sender).
Proof.
  intros Hg Hroom created.
  destruct (reachable_rooms_listed g Hg roomName room Hroom) as [[a Ha] _].
  subst created. unfold handleCreateRoom, with_service.
  cbn [chatService userRooms connected memberOf fst snd].
  rewrite createRoom_existing by (rewrite Hroom; eauto).
  split; [by destruct (default false priv)|].
  destruct (default false priv) eqn:Hp; cbn.
  - unfold addUserToPrivateRoom, getRoomCreator. rewrite Hroom.
    destruct (isPrivate room) eqn:Hpriv; cbn.
    + rewrite lookup_alter_eq, Hroom; cbn. split; [done|].
      split; [eexists; split; [done|]; by cbn|].
      intros _ _. unfold is_allowed, allowed_in; cbn.
      rewrite lookup_alter_eq, Hroom; cbn. eexists; split; [done|].
      split; [done|]. unfold on_allowList; cbn. rewrite Ha; cbn. set_solver.
    + rewrite Hroom; cbn. split; [done|]. split; [by exists room|done].
  - unfold getRoomCreator. rewrite Hroom; cbn.
    split; [done|]. split; [by exists room|done].
Qed.

Lemma create_room_on_taken_name_witness :
  let created :=
    handleCreateRoom secret_only "B" "secret" (Some true) (Some "mine") in
  created.2 = [emit ToAll "room_created" (RoomCreated "secret" true "B")]
  ∧ getRoomCreator (chatService created.1) "secret" = Some "A"
  ∧ is_allowed created.1 "secret" "B".
Proof.
  destruct (create_room_on_taken_name secret_only "secret" secret_room "B"
              (Some true) (Some "mine"))
    as (H1 & H2 & _ & H4).
  - apply reachable_run, reachable_init.
  - reflexivity.
  - intros created. split; [exact H1|]. split; [exact H2|].
    apply H4; reflexivity.
Defined.


Lemma missing_room_has_no_creator (s : ChatService) (roomId client : string) :
  rooms s !! roomId = None → isRoomCreator s roomId client = false.
Proof. intros H. unfold isRoomCreator. by rewrite H. Qed.

Lemma removeUser_service g sender roomId target :
  isRoomCreator (chatService g) roomId sender = true →
  chatService (handleRemoveUserFromRoom g sender roomId target).1
  = removeUserFromRoom roomId target (chatService g).
Proof.
  intros H. unfold handleRemoveUserFromRoom. rewrite H; cbn.
  by case_bool_decide.
Qed.

(** X5. Removing a member does not take back access.  When the creator of a
    private room removes a connection that is on the allow-list, the
    connection is out of the membership map but still on the allow-list, so
    its next [join_room] goes through without a password.  Anyone but the
    creator gets an error and changes nothing. *)
Theorem removed_member_can_rejoin (g : ChatGateway) (roomId : string)
    (room : Room) (sender target : string) :
  rooms (chatService g) !! roomId = Some room →
  isPrivate room = true →
  on_allowList room target →
  let removed := handleRemoveUserFromRoom g sender roomId target in
  if bool_decide (creatorId room = sender) then
    (¬ is_member removed.1 roomId target
     ∧ is_allowed removed.1 roomId target
     ∧ ∀ pw, joined (handleJoinRoom removed.1 target roomId pw) roomId target)
  else
    removed = (g, [emit (ToClient sender) "error"
                     (Error "Apenas o criador pode remover usuários")]).
Proof.
  intros Hroom Hpriv Hon removed. subst removed.
  destruct (bool_decide (creatorId room = sender)) eqn:Hc.
  - assert (Hcreator : isRoomCreator (chatService g) roomId sender = true)
      by (unfold isRoomCreator; by rewrite Hroom).
    pose proof (removeUser_service g sender roomId target Hcreator) as Hres.
    assert (Hlook :
      rooms (chatService (handleRemoveUserFromRoom g sender roomId target).1)
        !! roomId
      = Some (Chat.with_users (delete target) room)).
    { rewrite Hres. unfold removeUserFromRoom. rewrite Hroom; cbn.
      by rewrite lookup_alter_eq, Hroom. }
    assert (Hall : is_allowed
              (handleRemoveUserFromRoom g sender roomId target).1
              roomId target).
    { exists (Chat.with_users (delete target) room). by rewrite Hlook. }
    split; [|split; [done|]].
    + intros (room' & Hr & Hin). rewrite Hlook in Hr. injection Hr as <-.
      cbn in Hin. rewrite lookup_delete_eq in Hin. by destruct Hin.
    + intros pw. by apply allowed_join.
  - unfold handleRemoveUserFromRoom, isRoomCreator. by rewrite Hroom, Hc.
Qed.

Lemma removed_member_can_rejoin_witness :
  let removed := handleRemoveUserFromRoom secret_joined "A" "secret" "B" in
  ¬ is_member removed.1 "secret" "B"
  ∧ is_allowed removed.1 "secret" "B"
  ∧ ∀ pw, joined (handleJoinRoom removed.1 "B" "secret" pw) "secret" "B".
Proof.
  refine (removed_member_can_rejoin secret_joined "secret"
            {| users := {["B" := {| uid := "B"; uname := "User B" |}]};
               messages := []; isPrivate := true; password := Some "x";
               allowedUsers := Some ({["B"]} ∪ {["A"]}); creatorId := "A" |}
            "A" "B" _ _ _).
  - reflexivity.
  - reflexivity.
  - by vm_compute.
Defined.

(** X6. Joining and then leaving undoes itself in the registry, not always
    in the broadcast group.  For a public room the connection is not a
    member of, [leave_room] after [join_room] gives back the registry
    (rooms, members, messages, names) as it was before the join, deletes
    the connection's entry in [userRooms] and leaves the connection outside
    the room's broadcast group.  So the gateway is exactly as before the
    join if and only if the connection was not in that group and had no
    entry in [userRooms]. *)
Theorem join_then_leave_restores (g : ChatGateway) (roomId : string)
    (room : Room) (client : string) (pw : option string) :
  rooms (chatService g) !! roomId = Some room →
  isPrivate room = false →
  users room !! client = None →
  let after :=
    (handleLeaveRoom (handleJoinRoom g client roomId pw).1 client roomId).1 in
  chatService after = chatService g
  ∧ userRooms after = delete client (userRooms g)
  ∧ connected after = connected g
  ∧ memberOf after = memberOf g ∖ {[(client, roomId)]}
  ∧ (after = g
     ↔ ((client, roomId) ∉ memberOf g) ∧ userRooms g !! client = None).
Proof.
  intros Hroom Hpub Hnot after.
  assert (Heq : handleJoinRoom g client roomId pw = admitToRoom g client roomId).
  { unfold handleJoinRoom, getRoom. by rewrite Hroom, Hpub. }
  assert (Hs : chatService after = chatService g).
  { subst after. rewrite Heq. unfold handleLeaveRoom, admitToRoom; cbn.
    destruct g as [[rs ns] ur conn grp]; cbn in *.
    unfold removeUserFromRoom, addUserToRoom; cbn.
    rewrite Hroom; cbn. rewrite lookup_alter_eq, Hroom; cbn.
    unfold with_rooms; cbn. f_equal.
    apply map_eq. intros k. rewrite !lookup_alter.
    case_decide as Hk; [|done]. subst k.
    rewrite Hroom; cbn. unfold Chat.with_users; cbn.
    assert (Hu : ∀ x, delete client (<[client:=x]> (users room)) = users room).
    { intros x. apply map_eq. intros j.
      rewrite lookup_delete, lookup_insert.
      by repeat case_decide; simplify_eq. }
    rewrite decide_True by done; cbn. rewrite Hu. by destruct room. }
  assert (Hur : userRooms after = delete client (userRooms g)).
  { subst after. by rewrite Heq. }
  assert (Hc : connected after = connected g).
  { subst after. by rewrite Heq. }
  assert (Hm : memberOf after = memberOf g ∖ {[(client, roomId)]}).
  { subst after. rewrite Heq. unfold handleLeaveRoom, admitToRoom; cbn.
    apply set_eq. intros x.
    rewrite !elem_of_difference, elem_of_union, elem_of_singleton.
    split; [by intros [[?|?] ?]|]. intros [Hx Hne]. split; [by right|done]. }
  repeat (split; [done|]).
  split.
  - intros Hg. rewrite Hg in Hm, Hur. split.
    + intros Hin. assert (Hin' : (client, roomId) ∈ memberOf g ∖ {[(client, roomId)]})
        by (by rewrite <- Hm).
      apply elem_of_difference in Hin' as [_ Hn]. apply Hn.
      by apply elem_of_singleton.
    + rewrite Hur. apply lookup_delete_eq.
  - intros [Hgrp Hnone].
    destruct after as [sa ua ca ma], g as [sg ug cg mg]; cbn in *.
    f_equal; [done| |done|].
    + rewrite Hur. apply map_eq. intros j. rewrite lookup_delete.
      by case_decide; simplify_eq.
    + rewrite Hm. apply set_eq. intros x.
      rewrite elem_of_difference, elem_of_singleton.
      split; [by intros [? ?]|]. intros Hx. split; [done|]. by intros ->.
Qed.

Lemma join_then_leave_restores_witness :
  (handleLeaveRoom (handleJoinRoom general_only "B" "general" None).1
     "B" "general").1 = general_only
  ∧ (handleLeaveRoom (handleJoinRoom general_recreated "B" "general" None).1
       "B" "general").1 ≠ general_recreated.
Proof.
  split.
  - destruct (join_then_leave_restores general_only "general"
                {| users := ∅; messages := []; isPrivate := false;
                   password := None; allowedUsers := Some ∅;
                   creatorId := "A" |}
                "B" None) as (_ & _ & _ & _ & Hiff).
    + reflexivity.
    + reflexivity.
    + reflexivity.
    + apply Hiff. split; [by vm_compute|reflexivity].
  - destruct (join_then_leave_restores general_recreated "general"
                {| users := ∅; messages := []; isPrivate := false;
                   password := None; allowedUsers := Some ∅;
                   creatorId := "A" |}
                "B" None) as (_ & _ & _ & _ & Hiff).
    + reflexivity.
    + reflexivity.
    + reflexivity.
    + intros Hsame. apply Hiff in Hsame as [Hgrp _]. apply Hgrp.
      by vm_compute.
Defined.

(** ** Messages *)

(** X7. [send_message] checks neither membership nor access.  Whoever sends
    it, the message goes to the end of an existing room's message list,
    a private room the sender cannot enter included, with the sender's id,
    the sender's display name then, the text and the time, and nothing else
    in the registry changes; the message is sent to the room's group. *)
Theorem send_message_is_unchecked (g : ChatGateway) (roomId : string)
    (room : Room) (client text : string) (now : nat) :
  rooms (chatService g) !! roomId = Some room →
  let m := {| userId := client;
              userName := getUserName (chatService g) client;
              message := text; timestamp := now |} in
  let sent := handleSendMessage g client now roomId text in
  sent.2 = [emit (ToRoom roomId) "new_message" (NewMessage m)]
  ∧ rooms (chatService sent.1) !! roomId
    = Some (with_messages (λ ms, ms ++ [m]) room)
  ∧ (∀ other, other ≠ roomId →
       rooms (chatService sent.1) !! other = rooms (chatService g) !! other)
  ∧ userNames (chatService sent.1) = userNames (chatService g).
Proof.
  intros Hroom m sent. subst sent m. unfold handleSendMessage; cbn.
  unfold addMessage. rewrite Hroom; cbn.
  split; [done|]. split; [by rewrite lookup_alter_eq, Hroom|].
  split; [|done]. intros other Hne. by rewrite lookup_alter_ne.
Qed.

Lemma send_message_is_unchecked_witness :
  canAccessRoom (chatService secret_only) "secret" "B" = false
  ∧ ∃ room, rooms (chatService
                     (handleSendMessage secret_only "B" 7 "secret" "hi").1)
              !! "secret" = Some room
            ∧ messages room
              = [{| userId := "B"; userName := "User B"; message := "hi";
                    timestamp := 7 |}].
Proof.
  split; [reflexivity|].
  destruct (send_message_is_unchecked secret_only "secret" secret_room
              "B" "hi" 7) as (_ & H2 & _).
  - reflexivity.
  - eexists. split; [exact H2|reflexivity].
Defined.

(** X8. A [send_message] for a room that does not exist stores nothing, and
    the message is sent to the group of that name all the same. *)
Theorem send_message_to_missing_room (g : ChatGateway)
    (roomId client text : string) (now : nat) :
  rooms (chatService g) !! roomId = None →
  handleSendMessage g client now roomId text
  = (g, [emit (ToRoom roomId) "new_message"
           (NewMessage {| userId := client;
                          userName := getUserName (chatService g) client;
                          message := text; timestamp := now |})]).
Proof.
  intros Hroom. unfold handleSendMessage, with_service, addMessage.
  rewrite Hroom. by destruct g.
Qed.

Lemma send_message_to_missing_room_witness :
  handleSendMessage newChatGateway "A" 3 "nowhere" "hello"
  = (newChatGateway,
     [emit (ToRoom "nowhere") "new_message"
        (NewMessage {| userId := "A"; userName := "User A";
                       message := "hello"; timestamp := 3 |})]).
Proof.
  apply (send_message_to_missing_room newChatGateway "nowhere" "A" "hello" 3).
  reflexivity.
Defined.

(** ** Room lists *)

Lemma elem_of_getRooms (s : ChatService) (roomId : string) :
  roomId ∈ getRooms s ↔ is_Some (rooms s !! roomId).
Proof.
  unfold getRooms. rewrite list_elem_of_fmap. split.
  - intros ([k r] & -> & Hin). apply elem_of_map_to_list in Hin. by exists r.
  - intros [r Hr]. exists (roomId, r). split; [done|].
    by apply elem_of_map_to_list.
Qed.

Lemma canAccessRoom_true (s : ChatService) (roomId client : string) :
  canAccessRoom s roomId client = true
  ↔ ∃ room, rooms s !! roomId = Some room
            ∧ (isPrivate room = false ∨ on_allowList room client).
Proof.
  unfold canAccessRoom, on_allowList.
  destruct (rooms s !! roomId) as [room|] eqn:Hroom;
    [|split; [done|by intros (? & ? & _)]].
  destruct (isPrivate room) eqn:Hpriv; cbn.
  - destruct (allowedUsers room) as [a|] eqn:Ha.
    + rewrite bool_decide_eq_true. split.
      * intros Hin. exists room. rewrite Ha. by split; [|right].
      * intros (room' & [= <-] & [?|Hin]); [congruence|]. by rewrite Ha in Hin.
    + split; [done|].
      intros (room' & [= <-] & [?|Hin]); [congruence|]. by rewrite Ha in Hin.
  - split; [|done]. intros _. exists room. by split; [|left].
Qed.

(** X9. The [room_list] that answers [get_rooms] holds exactly the rooms the
    connection may enter: the public ones and the private ones that list it.
    The [room_list] sent when a connection opens holds every room there is,
    the private rooms the connection may not enter included. *)
Theorem room_lists (g : ChatGateway) (client : string) :
  (∃ l, handleGetRooms g client
        = (g, [emit (ToClient client) "room_list" (RoomList l)])
        ∧ ∀ roomId,
            roomId ∈ l
            ↔ ∃ room, rooms (chatService g) !! roomId = Some room
                      ∧ (isPrivate room = false ∨ on_allowList room client))
  ∧ (∃ l, handleConnection g client
          = (g, [emit (ToClient client) "connected" (Connected client);
                 emit (ToClient client) "room_list" (RoomList l)])
          ∧ ∀ roomId, roomId ∈ l ↔ is_Some (rooms (chatService g) !! roomId)).
Proof.
  split.
  - eexists; split; [reflexivity|]. intros roomId.
    rewrite list_elem_of_In, filter_In, <-list_elem_of_In.
    rewrite elem_of_getRooms, canAccessRoom_true.
    split; [by intros [_ ?]|]. intros (room & Hroom & H).
    split; [by exists room|by exists room].
  - eexists; split; [reflexivity|]. apply elem_of_getRooms.
Qed.

(** X10. [roomsContaining]: [getRoomsByUserId] gives exactly the names of the
    rooms whose membership map holds the connection. *)
Theorem getRoomsByUserId_spec (s : ChatService) (client roomId : string) :
  roomId ∈ getRoomsByUserId s client
  ↔ ∃ room, rooms s !! roomId = Some room ∧ is_Some (users room !! client).
Proof.
  unfold getRoomsByUserId. rewrite list_elem_of_fmap. split.
  - intros ([k r] & -> & Hin).
    apply list_elem_of_In, filter_In in Hin as [Hin Hmem].
    apply list_elem_of_In, elem_of_map_to_list in Hin.
    apply bool_decide_eq_true in Hmem. by exists r.
  - intros (room & Hroom & Hmem). exists (roomId, room). split; [done|].
    apply list_elem_of_In, filter_In. split.
    + by apply list_elem_of_In, elem_of_map_to_list.
    + by apply bool_decide_eq_true.
Qed.

(** ** Display names *)

(** X11. Renaming does not reach back into rooms.  In every state the
    gateway reaches, [set_user_name] leaves every room, and so every roster
    with the names taken at join time, as it is and sends nothing; the new
    name, when it is not empty, is what [getUserName] gives from then on for
    that connection and for no other. *)
Theorem set_user_name_keeps_rosters (g : ChatGateway) (client name : string) :
  reachable g →
  let renamed := handleSetUserName g client name in
  renamed.2 = []
  ∧ rooms (chatService renamed.1) = rooms (chatService g)
  ∧ (∀ roomId, roster (getRoom (chatService renamed.1) roomId)
               = roster (getRoom (chatService g) roomId))
  ∧ (name ≠ "" → getUserName (chatService renamed.1) client = name)
  ∧ (∀ other, other ≠ client →
       getUserName (chatService renamed.1) other
       = getUserName (chatService g) other).
Proof.
  intros Hg renamed. subst renamed. unfold handleSetUserName; cbn.
  rewrite (userRooms_never_set g Hg), lookup_empty; cbn.
  split; [done|]. split; [done|]. split; [done|].
  unfold getUserName; cbn. split.
  - intros Hne. rewrite lookup_insert_eq; cbn.
    by rewrite bool_decide_eq_true_2.
  - intros other Hne. by rewrite lookup_insert_ne.
Qed.

Lemma set_user_name_keeps_rosters_witness :
  let renamed := handleSetUserName general_joined "B" "Bea" in
  renamed.2 = []
  ∧ roster (getRoom (chatService renamed.1) "general")
    = [{| uid := "A"; uname := "User A" |};
       {| uid := "B"; uname := "User B" |}]
  ∧ getUserName (chatService renamed.1) "B" = "Bea".
Proof.
  destruct (set_user_name_keeps_rosters general_joined "B" "Bea")
    as (H1 & _ & H3 & H4 & _).
  - apply reachable_run, reachable_init.
  - intros renamed. split; [exact H1|]. split.
    + subst renamed. rewrite H3. reflexivity.
    + by apply H4.
Defined.

(** ** What a room keeps *)

Lemma keeps_refl room : keeps room room.
Proof.
  unfold keeps. repeat split; try done. by destruct (allowedUsers room).
Qed.

Lemma keeps_trans r1 r2 r3 : keeps r1 r2 → keeps r2 r3 → keeps r1 r3.
Proof.
  unfold keeps. intros (Hc1 & Hp1 & Hw1 & Hm1 & Ha1) (Hc2 & Hp2 & Hw2 & Hm2 & Ha2).
  repeat split; try congruence; [by etrans|].
  destruct (allowedUsers r1), (allowedUsers r2), (allowedUsers r3);
    try done. by etrans.
Qed.

Lemma keeps_with_users f room : keeps room (Chat.with_users f room).
Proof.
  unfold keeps; cbn. repeat split; try done. by destruct (allowedUsers room).
Qed.

Lemma keeps_with_messages m room :
  keeps room (with_messages (λ ms, ms ++ [m]) room).
Proof.
  unfold keeps; cbn. repeat split; try done; [by apply prefix_app_r|].
  by destruct (allowedUsers room).
Qed.

Lemma keeps_grant u room :
  keeps room (with_allowedUsers (λ a, {[u]} ∪ a) room).
Proof.
  unfold keeps; cbn. repeat split; try done.
  destruct (allowedUsers room); cbn; [|done]. apply union_subseteq_r.
Qed.

(** The room at [roomId] is still there, having kept what it keeps. *)
Lemma kept_alter f k s roomId room :
  (∀ x, keeps x (f x)) →
  rooms s !! roomId = Some room →
  ∃ room', rooms (with_rooms (alter f k) s) !! roomId = Some room'
           ∧ keeps room room'.
Proof.
  intros Hf Hroom; cbn. rewrite lookup_alter. case_decide as Hk.
  - subst k. rewrite Hroom; cbn. eauto.
  - exists room. split; [done|apply keeps_refl].
Qed.

Lemma kept_addUserToRoom k u s roomId room :
  rooms s !! roomId = Some room →
  ∃ room', rooms (addUserToRoom k u s) !! roomId = Some room' ∧ keeps room room'.
Proof.
  intros Hroom. unfold addUserToRoom.
  destruct (rooms s !! k); [|exists room; split; [done|apply keeps_refl]].
  by apply kept_alter; [intros x; apply keeps_with_users|].
Qed.

Lemma kept_removeUserFromRoom k u s roomId room :
  rooms s !! roomId = Some room →
  ∃ room', rooms (removeUserFromRoom k u s) !! roomId = Some room'
           ∧ keeps room room'.
Proof.
  intros Hroom. unfold removeUserFromRoom.
  destruct (rooms s !! k); [|exists room; split; [done|apply keeps_refl]].
  by apply kept_alter; [intros x; apply keeps_with_users|].
Qed.

Lemma kept_addMessage k m s roomId room :
  rooms s !! roomId = Some room →
  ∃ room', rooms (addMessage k m s) !! roomId = Some room' ∧ keeps room room'.
Proof.
  intros Hroom. unfold addMessage.
  destruct (rooms s !! k); [|exists room; split; [done|apply keeps_refl]].
  by apply kept_alter; [intros x; apply keeps_with_messages|].
Qed.

Lemma kept_grant k u s roomId room :
  rooms s !! roomId = Some room →
  ∃ room', rooms (addUserToPrivateRoom k u s).2 !! roomId = Some room'
           ∧ keeps room room'.
Proof.
  intros Hroom. unfold addUserToPrivateRoom.
  destruct (rooms s !! k) as [r|];
    [|exists room; split; [done|apply keeps_refl]].
  destruct (isPrivate r); cbn;
    [|exists room; split; [done|apply keeps_refl]].
  by apply kept_alter; [intros x; apply keeps_grant|].
Qed.

Lemma kept_createRoom k u priv pw s roomId room :
  rooms s !! roomId = Some room →
  ∃ room', rooms (createRoom k u priv pw s) !! roomId = Some room'
           ∧ keeps room room'.
Proof.
  intros Hroom. exists room. split; [|apply keeps_refl].
  destruct (rooms s !! k) as [r|] eqn:Hk.
  - by rewrite createRoom_existing by (rewrite Hk; eauto).
  - rewrite createRoom_fresh by done. rewrite lookup_insert_ne; [done|].
    congruence.
Qed.

Lemma kept_step g i roomId room :
  removes_room roomId i = false →
  rooms (chatService g) !! roomId = Some room →
  ∃ room', rooms (chatService (step g i).1) !! roomId = Some room'
           ∧ keeps room room'.
Proof.
  intros Hi Hroom.
  assert (Hsame : ∃ room', rooms (chatService g) !! roomId = Some room'
                           ∧ keeps room room')
    by (exists room; split; [done|apply keeps_refl]).
  destruct i as [c|c|c now e]; cbn.
  - done.
  - unfold handleDisconnect; cbn.
    destruct (userRooms g !! c) as [r|]; [|done].
    destruct (bool_decide (r ≠ "")); cbn; [|done].
    by apply kept_removeUserFromRoom.
  - destruct e as [n|rn ip pw| |rid pw|rid|rid txt|rid u|rid|rid u]; cbn.
    + unfold handleSetUserName; cbn.
      destruct (userRooms g !! c) as [r|]; [|done].
      by destruct (bool_decide (r ≠ "")).
    + unfold handleCreateRoom; cbn.
      destruct (kept_createRoom rn c (default false ip) pw _ _ _ Hroom)
        as (r1 & Hr1 & Hk1).
      destruct (default false ip); cbn; [|eauto].
      destruct (kept_grant rn c _ _ _ Hr1) as (r2 & Hr2 & Hk2).
      exists r2. split; [done|]. by eapply keeps_trans.
    + done.
    + unfold handleJoinRoom, getRoom.
      destruct (rooms (chatService g) !! rid) as [r|]; [|done].
      destruct (isPrivate r && negb (canAccessRoom (chatService g) rid c)).
      * destruct (passwordAccepted (chatService g) rid pw); [|done]. cbn.
        destruct (kept_grant rid c _ _ _ Hroom) as (r1 & Hr1 & Hk1).
        destruct (kept_addUserToRoom rid c _ _ _ Hr1) as (r2 & Hr2 & Hk2).
        exists r2. split; [done|]. by eapply keeps_trans.
      * cbn. by apply kept_addUserToRoom.
    + by apply kept_removeUserFromRoom.
    + by apply kept_addMessage.
    + unfold handleAddUserToPrivateRoom, getRoom.
      destruct (rooms (chatService g) !! rid) as [r|]; [|done].
      destruct (isPrivate r); cbn; [|done].
      by apply kept_grant.
    + unfold handleRemoveRoom.
      destruct (isRoomCreator (chatService g) rid c); cbn; [|done].
      cbn in Hi. apply bool_decide_eq_false in Hi.
      exists room. split; [|apply keeps_refl].
      unfold removeRoom; cbn. by rewrite lookup_delete_ne.
    + unfold handleRemoveUserFromRoom.
      destruct (isRoomCreator (chatService g) rid c); cbn; [|done].
      destruct (bool_decide (u ∈ connected g)); cbn;
        by apply kept_removeUserFromRoom.
Qed.

Lemma kept_run trace g roomId room :
  Forall (λ i, removes_room roomId i = false) trace →
  rooms (chatService g) !! roomId = Some room →
  ∃ room', rooms (chatService (run g trace).1) !! roomId = Some room'
           ∧ keeps room room'.
Proof.
  revert g room. induction trace as [|i rest IH]; intros g room Htr Hroom.
  - exists room. split; [done|apply keeps_refl].
  - apply Forall_cons in Htr as [Hi Hrest]. cbn.
    destruct (kept_step g i roomId room Hi Hroom) as (r1 & Hr1 & Hk1).
    destruct (step g i) as [g1 out1]; cbn in *.
    destruct (IH g1 r1 Hrest Hr1) as (r2 & Hr2 & Hk2).
    destruct (run g1 rest) as [g2 out2]; cbn in *.
    exists r2. split; [done|]. by eapply keeps_trans.
Qed.

(** X12. A room's settings are fixed at creation.  Over any sequence of
    inputs that does not remove the room, the room is still there with the
    creator, visibility and password it had, and every connection that was
    on its allow-list is still on it. *)
Theorem room_settings_are_fixed (g : ChatGateway) (trace : list Input)
    (roomId : string) (room : Room) :
  rooms (chatService g) !! roomId = Some room →
  Forall (λ i, removes_room roomId i = false) trace →
  ∃ room', rooms (chatService (run g trace).1) !! roomId = Some room'
           ∧ creatorId room' = creatorId room
           ∧ isPrivate room' = isPrivate room
           ∧ password room' = password room
           ∧ ∀ client, on_allowList room client → on_allowList room' client.
Proof.
  intros Hroom Htr.
  destruct (kept_run trace g roomId room Htr Hroom)
    as (room' & Hr & Hc & Hp & Hw & _ & Ha).
  exists room'. repeat split; try done.
  intros client. unfold on_allowList.
  destruct (allowedUsers room), (allowedUsers room'); try done.
  intros Hin. by apply Ha.
Qed.

Lemma room_settings_are_fixed_witness :
  ∃ room',
    rooms (chatService
             (run secret_only
                [Receive "B" 1 (CreateRoom "secret" (Some false) (Some "y"));
                 Receive "B" 2 (JoinRoom "secret" (Some "x"));
                 Receive "B" 3 (LeaveRoom "secret")]).1) !! "secret"
    = Some room'
    ∧ creatorId room' = "A" ∧ isPrivate room' = true
    ∧ password room' = Some "x".
Proof.
  destruct (room_settings_are_fixed secret_only
              [Receive "B" 1 (CreateRoom "secret" (Some false) (Some "y"));
               Receive "B" 2 (JoinRoom "secret" (Some "x"));
               Receive "B" 3 (LeaveRoom "secret")]
              "secret" secret_room)
    as (room' & Hr & Hc & Hp & Hw & _).
  - reflexivity.
  - repeat constructor.
  - by exists room'.
Defined.

(** X13. Messages are only ever appended.  Over any sequence of inputs that
    does not remove the room, the messages the room had are the first
    messages it has afterwards, in the same order. *)
Theorem messages_are_append_only (g : ChatGateway) (trace : list Input)
    (roomId : string) (room : Room) :
  rooms (chatService g) !! roomId = Some room →
  Forall (λ i, removes_room roomId i = false) trace →
  ∃ room', rooms (chatService (run g trace).1) !! roomId = Some room'
           ∧ messages room `prefix_of` messages room'.
Proof.
  intros Hroom Htr.
  destruct (kept_run trace g roomId room Htr Hroom)
    as (room' & Hr & _ & _ & _ & Hm & _).
  by exists room'.
Qed.

Lemma messages_are_append_only_witness :
  ∃ room',
    rooms (chatService
             (run general_talking
                [Receive "B" 6 (SendMessage "general" "two");
                 Receive "B" 7 (LeaveRoom "general");
                 Receive "A" 8 (CreateRoom "general" None None)]).1)
      !! "general"
    = Some room'
    ∧ [{| userId := "A"; userName := "User A"; message := "one";
          timestamp := 3 |}] `prefix_of` messages room'.
Proof.
  refine (messages_are_append_only general_talking
            [Receive "B" 6 (SendMessage "general" "two");
             Receive "B" 7 (LeaveRoom "general");
             Receive "A" 8 (CreateRoom "general" None None)]
            "general" talking_room _ _).
  - reflexivity.
  - repeat constructor.
Defined.

(** ** Where members come from *)

Lemma member_alter f k s roomId client :
  (∀ x, is_Some (users (f x) !! client) → is_Some (users x !! client)) →
  member_in (with_rooms (alter f k) s) roomId client →
  member_in s roomId client.
Proof.
  intros Hf (room & Hroom & Hin). cbn in Hroom. rewrite lookup_alter in Hroom.
  case_decide as Hk; [|by exists room]. subst k.
  destruct (rooms s !! roomId) as [r|] eqn:Hr; [|done].
  injection Hroom as <-. exists r. split; [done|by apply Hf].
Qed.

Lemma member_addUserToRoom k u s roomId client :
  member_in (addUserToRoom k u s) roomId client →
  member_in s roomId client ∨ (k = roomId ∧ u = client).
Proof.
  unfold addUserToRoom. destruct (rooms s !! k) eqn:Hk; [|by left].
  destruct (decide (k = roomId ∧ u = client)) as [|Hne]; [by right|].
  intros (room & Hroom & Hin). left.
  cbn in Hroom. rewrite lookup_alter in Hroom.
  case_decide as Hkr; [|by exists room]. subst k. rewrite Hk in Hroom.
  injection Hroom as <-. eexists; split; [done|]. cbn in Hin.
  rewrite lookup_insert_ne in Hin; [done|]. intros ->. by apply Hne.
Qed.

Lemma member_removeUserFromRoom k u s roomId client :
  member_in (removeUserFromRoom k u s) roomId client →
  member_in s roomId client.
Proof.
  unfold removeUserFromRoom. destruct (rooms s !! k); [|done].
  apply member_alter. intros x; cbn. rewrite lookup_delete.
  by case_decide; [intros []|].
Qed.

Lemma member_addMessage k m s roomId client :
  member_in (addMessage k m s) roomId client → member_in s roomId client.
Proof.
  unfold addMessage. destruct (rooms s !! k); [|done].
  by apply member_alter.
Qed.

Lemma member_grant k u s roomId client :
  member_in (addUserToPrivateRoom k u s).2 roomId client →
  member_in s roomId client.
Proof.
  unfold addUserToPrivateRoom. destruct (rooms s !! k) as [r|]; [|done].
  destruct (isPrivate r); cbn; [|done]. by apply member_alter.
Qed.

Lemma member_createRoom k u priv pw s roomId client :
  member_in (createRoom k u priv pw s) roomId client →
  member_in s roomId client.
Proof.
  destruct (rooms s !! k) as [r|] eqn:Hk.
  - by rewrite createRoom_existing by (rewrite Hk; eauto).
  - intros (room & Hroom & Hin). rewrite createRoom_fresh in Hroom by done.
    rewrite lookup_insert in Hroom. case_decide; [|by exists room].
    injection Hroom as <-. cbn in Hin. rewrite lookup_empty in Hin.
    by destruct Hin.
Qed.

Lemma member_removeRoom k s roomId client :
  member_in (removeRoom k s) roomId client → member_in s roomId client.
Proof.
  intros (room & Hroom & Hin). cbn in Hroom. rewrite lookup_delete in Hroom.
  case_decide; [done|]. by exists room.
Qed.

(** X14. Nobody is made a member by someone else.  Whatever the gateway
    handles, a connection that is a member of a room afterwards was a member
    before, or the input was that connection's own [join_room] for that
    room. *)
Theorem members_come_from_own_join (g : ChatGateway) (i : Input)
    (roomId client : string) :
  is_member (step g i).1 roomId client →
  is_member g roomId client
  ∨ ∃ now pw, i = Receive client now (JoinRoom roomId pw).
Proof.
  change (member_in (chatService (step g i).1) roomId client →
          member_in (chatService g) roomId client
          ∨ ∃ now pw, i = Receive client now (JoinRoom roomId pw)).
  destruct i as [c|c|c now e]; cbn.
  - by left.
  - unfold handleDisconnect; cbn.
    destruct (userRooms g !! c) as [r|]; [|by left].
    destruct (bool_decide (r ≠ "")); cbn; [|by left].
    intros H. left. by eapply member_removeUserFromRoom.
  - destruct e as [n|rn ip pw| |rid pw|rid|rid txt|rid u|rid|rid u]; cbn.
    + unfold handleSetUserName; cbn.
      destruct (userRooms g !! c) as [r|]; [|by left].
      by destruct (bool_decide (r ≠ "")); left.
    + unfold handleCreateRoom; cbn. intros H. left.
      destruct (default false ip); cbn in H.
      * by eapply member_createRoom, member_grant.
      * by eapply member_createRoom.
    + by left.
    + unfold handleJoinRoom, getRoom.
      destruct (rooms (chatService g) !! rid) as [r|]; [|by left].
      destruct (isPrivate r && negb (canAccessRoom (chatService g) rid c)).
      * destruct (passwordAccepted (chatService g) rid pw); [|by left]. cbn.
        intros H. apply member_addUserToRoom in H as [H|[-> ->]].
        -- left. by eapply member_grant.
        -- right. eauto.
      * cbn. intros H. apply member_addUserToRoom in H as [H|[-> ->]].
        -- by left.
        -- right. eauto.
    + intros H. left. by eapply member_removeUserFromRoom.
    + intros H. left. by eapply member_addMessage.
    + unfold handleAddUserToPrivateRoom, getRoom.
      destruct (rooms (chatService g) !! rid) as [r|]; [|by left].
      destruct (isPrivate r); cbn; [|by left].
      intros H. left. by eapply member_grant.
    + unfold handleRemoveRoom.
      destruct (isRoomCreator (chatService g) rid c); cbn; [|by left].
      intros H. left. by eapply member_removeRoom.
    + unfold handleRemoveUserFromRoom.
      destruct (isRoomCreator (chatService g) rid c); cbn; [|by left].
      destruct (bool_decide (u ∈ connected g)); cbn;
        intros H; left; by eapply member_removeUserFromRoom.
Qed.

Lemma members_come_from_own_join_witness :
  is_member general_only "general" "B"
  ∨ ∃ now pw,
      Receive "B" 4 (JoinRoom "general" None)
      = Receive "B" now (JoinRoom "general" pw).
Proof.
  apply (members_come_from_own_join general_only
           (Receive "B" 4 (JoinRoom "general" None)) "general" "B").
  eexists. split; [reflexivity|]. by vm_compute; eauto.
Defined.

End ChatMore.

(** * Further properties of the voice service *)

Module VoiceMore.
Import Voice VoiceSpec VoiceFacts.

Section Joining.

Variable E : MediaEngine.

Lemma join_existing roomId userId userName room s :
  voiceRooms s !! roomId = Some room →
  is_Some (users room !! userId) →
  joinVoiceChannel E roomId userId userName s
  = (Ok (getVoiceUsers s roomId), s).
Proof.
  intros Hroom Huser. unfold joinVoiceChannel, getVoiceUsers.
  unfold bind at 1. rewrite (getOrCreateRouter_existing E _ _ _ Hroom).
  run_m. rewrite Hroom; cbn. rewrite bool_decide_eq_true_2 by done; cbn.
  by rewrite Hroom.
Qed.

Lemma join_ok_participant roomId userId userName s :
  is_ok (joinVoiceChannel E roomId userId userName s).1 = true →
  ∃ room, voiceRooms (joinVoiceChannel E roomId userId userName s).2 !! roomId
          = Some room
          ∧ is_Some (users room !! userId).
Proof.
  destruct (voiceRooms s !! roomId) as [room|] eqn:Hroom.
  - destruct (decide (is_Some (users room !! userId))) as [Hu|Hu].
    + rewrite (join_existing _ _ _ _ _ Hroom Hu). by exists room.
    + intros _. unfold joinVoiceChannel. unfold bind at 1.
      rewrite (getOrCreateRouter_existing E _ _ _ Hroom).
      run_m. rewrite Hroom; cbn. rewrite bool_decide_eq_false_2 by done; cbn.
      rewrite lookup_alter_eq, Hroom; cbn.
      eexists; split; [done|]. cbn. rewrite lookup_insert_eq. eauto.
  - destruct (rejects E (worker s) CreateRouter) eqn:Hrej.
    + unfold joinVoiceChannel. unfold bind at 1 3.
      by rewrite (getOrCreateRouter_rejected E _ _ Hroom Hrej).
    + intros _. rewrite (join_fresh E _ _ _ _ Hroom Hrej); cbn.
      rewrite lookup_insert_eq. eexists; split; [done|]. cbn.
      rewrite lookup_singleton_eq. eauto.
Qed.

(** X15. Joining twice is joining once.  After a [joinVoiceChannel] that
    succeeded, another one for the same room and connection, under whatever
    display name, changes nothing (the name stays the first one) and
    returns the roster of the room. *)
Theorem join_voice_is_idempotent (s : VoiceService)
    (roomId userId name1 name2 : string) :
  is_ok (joinVoiceChannel E roomId userId name1 s).1 = true →
  let s1 := (joinVoiceChannel E roomId userId name1 s).2 in
  joinVoiceChannel E roomId userId name2 s1
  = (Ok (getVoiceUsers s1 roomId), s1).
Proof.
  intros Hok s1.
  destruct (join_ok_participant _ _ _ _ Hok) as (room & Hroom & Hu).
  by eapply join_existing.
Qed.

End Joining.

Lemma join_voice_is_idempotent_witness :
  joinVoiceChannel permissive "r1" "A" "Anna" alone
  = (Ok (getVoiceUsers alone "r1"), alone).
Proof.
  apply (join_voice_is_idempotent permissive newVoiceService "r1" "A"
           "Ann" "Anna").
  reflexivity.
Defined.

Section Leaving.

Variable E : MediaEngine.

Lemma leave_nothing_to_do roomId userId s :
  match voiceRooms s !! roomId with
  | None => True
  | Some room => users room !! userId = None ∧ size (users room) ≠ 0
  end →
  leaveVoiceChannel roomId userId s = (Ok (), s).
Proof.
  unfold leaveVoiceChannel; run_m.
  destruct (voiceRooms s !! roomId) as [room|] eqn:Hroom; cbn; [|done].
  intros [Hu Hsize]. rewrite Hu; cbn. rewrite Hroom; cbn.
  by rewrite bool_decide_eq_false_2.
Qed.

Lemma leave_leaves_nothing_to_do roomId userId s :
  match voiceRooms (leaveVoiceChannel roomId userId s).2 !! roomId with
  | None => True
  | Some room => users room !! userId = None ∧ size (users room) ≠ 0
  end.
Proof.
  unfold leaveVoiceChannel; run_m.
  destruct (voiceRooms s !! roomId) as [room|] eqn:Hroom; cbn;
    [|by rewrite Hroom].
  destruct (users room !! userId) as [user|] eqn:Hu; cbn.
  - rewrite lookup_alter_eq, Hroom; cbn.
    case_bool_decide as Hsize; cbn.
    + by rewrite lookup_delete_eq.
    + rewrite lookup_alter_eq, Hroom; cbn. by rewrite lookup_delete_eq.
  - rewrite Hroom; cbn. case_bool_decide as Hsize; cbn.
    + by rewrite lookup_delete_eq.
    + by rewrite Hroom.
Qed.

Lemma leave_voice_is_ok roomId userId s :
  (leaveVoiceChannel roomId userId s).1 = Ok ().
Proof.
  unfold leaveVoiceChannel; run_m.
  repeat (case_match; simplify_eq/=); done.
Qed.

(** X16. Leaving twice is leaving once: [leaveVoiceChannel] never throws,
    and a second call for the same room and connection changes nothing, no
    further [close()] included.  A call changes nothing in the first place
    exactly when there is nothing to do: the room is not in the table, or
    the connection is not in the room and the room has participants. *)
Theorem leave_voice_is_idempotent (s : VoiceService) (roomId userId : string) :
  (leaveVoiceChannel roomId userId s).1 = Ok ()
  ∧ leaveVoiceChannel roomId userId (leaveVoiceChannel roomId userId s).2
    = (Ok (), (leaveVoiceChannel roomId userId s).2)
  ∧ (leaveVoiceChannel roomId userId s = (Ok (), s)
     ↔ voiceRooms s !! roomId = None
       ∨ ∃ room, voiceRooms s !! roomId = Some room
                 ∧ users room !! userId = None
                 ∧ size (users room) ≠ 0).
Proof.
  split; [|split].
  - unfold leaveVoiceChannel; run_m.
    repeat (case_match; simplify_eq/=); done.
  - apply leave_nothing_to_do, leave_leaves_nothing_to_do.
  - split.
    + intros Hsame.
      pose proof (leave_leaves_nothing_to_do roomId userId s) as Hdone.
      rewrite Hsame in Hdone; cbn in Hdone.
      destruct (voiceRooms s !! roomId) as [room|]; [|by left].
      right. by exists room.
    + intros [Hnone|(room & Hroom & Huser & Hsize)];
        apply leave_nothing_to_do.
      * by rewrite Hnone.
      * by rewrite Hroom.
Qed.

(** X17. Joining a room that is not in the table and leaving it again gives
    the table back as it was; the router made for the room is closed, and
    the worker has handed out exactly that one id. *)
Theorem join_then_leave_voice (s : VoiceService)
    (roomId userId userName : string) :
  voiceRooms s !! roomId = None →
  rejects E (worker s) CreateRouter = false →
  let s1 := (joinVoiceChannel E roomId userId userName s).2 in
  let s2 := (leaveVoiceChannel roomId userId s1).2 in
  voiceRooms s2 = voiceRooms s
  ∧ closed (worker s2) = HRouter (minted (worker s)) :: closed (worker s)
  ∧ minted (worker s2) = S (minted (worker s)).
Proof.
  intros Hroom Hacc s1 s2. subst s2 s1.
  rewrite (join_fresh E _ _ _ _ Hroom Hacc).
  erewrite leave_last; [|apply lookup_insert_eq|done]. cbn.
  split; [|done].
  apply map_eq. intros k. rewrite lookup_delete, lookup_alter.
  case_decide as Hk; [by subst k|]. by rewrite lookup_insert_ne.
Qed.

End Leaving.

Lemma leave_voice_is_idempotent_witness :
  leaveVoiceChannel "r1" "C" two_in_room = (Ok (), two_in_room)
  ∧ leaveVoiceChannel "r1" "B" two_in_room ≠ (Ok (), two_in_room).
Proof.
  destruct (leave_voice_is_idempotent two_in_room "r1" "C")
    as (_ & _ & Hiff).
  destruct (leave_voice_is_idempotent two_in_room "r1" "B")
    as (_ & _ & Hiff').
  split.
  - apply Hiff. right. eexists. split; [by vm_compute|].
    split; [reflexivity|]. by vm_compute.
  - intros Hsame. apply Hiff' in Hsame as [Hnone|(room & Hroom & Huser & _)].
    + by vm_compute in Hnone.
    + vm_compute in Hroom. injection Hroom as <-. by vm_compute in Huser.
Defined.

Lemma join_then_leave_voice_witness :
  let s1 := (joinVoiceChannel permissive "r9" "C" "Cy" producing).2 in
  let s2 := (leaveVoiceChannel "r9" "C" s1).2 in
  voiceRooms s2 = voiceRooms producing
  ∧ closed (worker s2) = HRouter (minted (worker producing))
                           :: closed (worker producing)
  ∧ minted (worker s2) = S (minted (worker producing)).
Proof.
  apply (join_then_leave_voice permissive producing "r9" "C" "Cy");
    reflexivity.
Defined.

Section Transports.

Variable E : MediaEngine.

Lemma findTransport_spec (user : VoiceUser) (transportId : string) :
  match findTransport user transportId with
  | Some t =>
      transport_id t = transportId
      ∧ (transport_id <$> producerTransport user = Some transportId
         ∨ transport_id <$> consumerTransport user = Some transportId)
  | None =>
      ¬ (transport_id <$> producerTransport user = Some transportId
         ∨ transport_id <$> consumerTransport user = Some transportId)
  end.
Proof.
  unfold findTransport.
  case_bool_decide as Hp.
  - destruct (producerTransport user) as [t|]; [|done].
    injection Hp as Hp. split; [done|]. left. cbn. by f_equal.
  - case_bool_decide as Hc.
    + destruct (consumerTransport user) as [t|]; [|done].
      injection Hc as Hc. split; [done|]. right. cbn. by f_equal.
    + by intros [?|?].
Qed.

(** X18. [connectWebRtcTransport] goes by the transport id: for a
    participant of a room, the engine accepting the connect, it succeeds
    exactly when the id is that of the participant's send or receive
    transport.  Then that transport is connected and the table is as it
    was; otherwise it throws "Transport not found" and nothing changes. *)
Theorem connect_needs_own_transport (s : VoiceService)
    (roomId userId transportId dtls : string) (room : VoiceRoom)
    (user : VoiceUser) :
  voiceRooms s !! roomId = Some room →
  users room !! userId = Some user →
  (∀ t, rejects E (worker s) (TransportConnect t dtls) = false) →
  let after := connectWebRtcTransport E roomId userId transportId dtls s in
  if bool_decide
       (transport_id <$> producerTransport user = Some transportId
        ∨ transport_id <$> consumerTransport user = Some transportId)
  then
    (after.1 = Ok ()
     ∧ voiceRooms after.2 = voiceRooms s
     ∧ connectedTransports (worker after.2)
       = {[transportId]} ∪ connectedTransports (worker s))
  else after = (Throw (Err "Transport not found"), s).
Proof.
  intros Hroom Huser Hacc after. subst after.
  pose proof (findTransport_spec user transportId) as Hfind.
  unfold connectWebRtcTransport; run_m.
  rewrite Hroom; cbn. rewrite Huser; cbn.
  destruct (findTransport user transportId) as [t|]; cbn.
  - destruct Hfind as [Hid Hslot].
    rewrite (bool_decide_eq_true_2 _ Hslot). rewrite Hacc; cbn.
    by rewrite Hid.
  - by rewrite (bool_decide_eq_false_2 _ Hfind).
Qed.

End Transports.

Lemma connect_needs_own_transport_witness :
  (connectWebRtcTransport permissive "r1" "A" "2" "dtls" with_transports).1
  = Ok ()
  ∧ connectWebRtcTransport permissive "r1" "A" "7" "dtls" with_transports
    = (Throw (Err "Transport not found"), with_transports).
Proof.
  split.
  - apply (connect_needs_own_transport permissive with_transports "r1" "A"
             "2" "dtls"
             {| roomId := "r1"; router := 0;
                users := {["A" := ann_ready]} |} ann_ready);
      reflexivity.
  - apply (connect_needs_own_transport permissive with_transports "r1" "A"
             "7" "dtls"
             {| roomId := "r1"; router := 0;
                users := {["A" := ann_ready]} |} ann_ready);
      reflexivity.
Defined.

Section Streams.

Variable E : MediaEngine.

Lemma resume_found roomId userId consumerId room user c s :
  voiceRooms s !! roomId = Some room →
  users room !! userId = Some user →
  consumers user !! consumerId = Some c →
  rejects E (worker s) (ConsumerResume c) = false →
  resumeConsumer E roomId userId consumerId s
  = (Ok (), {| worker := (consumer_resume c (worker s)).2;
               voiceRooms := voiceRooms s |}).
Proof.
  intros Hroom Huser Hc Hacc. unfold resumeConsumer; run_m.
  rewrite Hroom; cbn. rewrite Huser; cbn. rewrite Hc; cbn. by rewrite Hacc.
Qed.

(** X19. Consume, then resume.  When [consume] has returned a consumer, a
    [resumeConsumer] by the same participant with that consumer's id (the
    engine accepting it) succeeds and leaves the consumer unpaused; with an
    id that is not in the participant's consumer map it throws
    "Consumer not found" and changes nothing. *)
Theorem resume_after_consume (s : VoiceService)
    (roomId userId producerId caps : string) (c : Consumer) :
  (consume E roomId userId producerId caps s).1 = Ok c →
  let s1 := (consume E roomId userId producerId caps s).2 in
  consumerPaused (worker s1) !! consumer_id c = Some true
  ∧ (rejects E (worker s1) (ConsumerResume c) = false →
     (resumeConsumer E roomId userId (consumer_id c) s1).1 = Ok ()
     ∧ consumerPaused
         (worker (resumeConsumer E roomId userId (consumer_id c) s1).2)
         !! consumer_id c = Some false)
  ∧ (∀ other room user,
       voiceRooms s1 !! roomId = Some room →
       users room !! userId = Some user →
       consumers user !! other = None →
       resumeConsumer E roomId userId other s1
       = (Throw (Err "Consumer not found"), s1)).
Proof.
  intros Hc s1.
  assert (Hok : is_ok (consume E roomId userId producerId caps s).1 = true)
    by (by rewrite Hc).
  apply consume_ok_inv in Hok
    as (room & user & t & Hroom & Hcan & Huser & Ht & Hrej).
  subst s1.
  rewrite (consume_found E _ _ _ _ _ _ _ _ Hroom Hcan Huser Ht Hrej) in Hc |- *.
  cbn [fst snd] in *. injection Hc as <-.
  set (c := (transport_consume E producerId caps (Some true) (worker s)).1).
  split; [apply lookup_insert_eq|]. split.
  - intros Hacc.
    erewrite resume_found; cbn [fst snd].
    + split; [done|]. apply lookup_insert_eq.
    + cbn. by rewrite lookup_alter_eq, Hroom.
    + cbn. by rewrite lookup_alter_eq, Huser.
    + cbn. apply lookup_insert_eq.
    + exact Hacc.
  - intros other room' user' Hr Hu Hno.
    unfold resumeConsumer; run_m. rewrite Hr; cbn. rewrite Hu; cbn.
    by rewrite Hno.
Qed.

Lemma produce_ok_inv roomId userId transportId kind rtp s :
  is_ok (produce E roomId userId transportId kind rtp s).1 = true →
  ∃ room user t,
    voiceRooms s !! roomId = Some room
    ∧ users room !! userId = Some user
    ∧ producerTransport user = Some t
    ∧ rejects E (worker s) (TransportProduce t kind rtp) = false.
Proof.
  unfold produce; run_m.
  destruct (voiceRooms s !! roomId) as [room|] eqn:Hroom; cbn; [|done].
  destruct (users room !! userId) as [user|] eqn:Huser; cbn; [|done].
  destruct (producerTransport user) as [t|] eqn:Ht; cbn; [|done].
  destruct (rejects E (worker s) (TransportProduce t kind rtp)) eqn:Hacc;
    cbn; [done|].
  intros _. by exists room, user, t.
Qed.

(** X20. [produce] never looks at the transport id it is given.  The engine
    accepting the request, it succeeds exactly when the room and the
    participant exist and the participant has a send transport, and gives
    the same result whatever the id is; afterwards the participant's record
    holds the new producer and the roster shows it as having one. *)
Theorem produce_ignores_transport_id (s : VoiceService)
    (roomId userId transportId : string) (kind : MediaKind) (rtp : string) :
  (∀ t, rejects E (worker s) (TransportProduce t kind rtp) = false) →
  let after := produce E roomId userId transportId kind rtp s in
  (is_ok after.1 = true
   ↔ ∃ room user t,
       voiceRooms s !! roomId = Some room
       ∧ users room !! userId = Some user
       ∧ producerTransport user = Some t)
  ∧ (∀ other, produce E roomId userId other kind rtp s = after)
  ∧ (∀ id, after.1 = Ok id →
       ∃ room' user',
         voiceRooms after.2 !! roomId = Some room'
         ∧ users room' !! userId = Some user'
         ∧ producer user' = Some {| producer_id := id; producer_kind := kind |}
         ∧ userInfo user' ∈ getVoiceUsers after.2 roomId
         ∧ info_hasProducer (userInfo user') = true).
Proof.
  intros Hacc after. subst after. split; [|split].
  - split.
    + intros Hok.
      apply produce_ok_inv in Hok as (room & user & t & ? & ? & ? & _).
      by exists room, user, t.
    + intros (room & user & t & Hroom & Huser & Ht).
      by rewrite (produce_found E _ _ _ _ _ _ _ _ _ Hroom Huser Ht (Hacc t)).
  - done.
  - intros id Hid.
    assert (Hok : is_ok (produce E roomId userId transportId kind rtp s).1
                  = true) by (by rewrite Hid).
    apply produce_ok_inv in Hok
      as (room & user & t & Hroom & Huser & Ht & Hrej).
    rewrite (produce_found E _ _ _ _ _ _ _ _ _ Hroom Huser Ht Hrej) in Hid |- *.
    cbn [fst snd] in *. injection Hid as <-.
    set (p := {| producer_id := pretty (minted (worker s));
                 producer_kind := kind |}).
    assert (Hr : alter (with_users (alter (set_producer p) userId)) roomId
                   (voiceRooms s) !! roomId
                 = Some (with_users (alter (set_producer p) userId) room))
      by (by rewrite lookup_alter_eq, Hroom).
    assert (Hu : users (with_users (alter (set_producer p) userId) room)
                   !! userId = Some (set_producer p user))
      by (cbn; by rewrite lookup_alter_eq, Huser).
    exists (with_users (alter (set_producer p) userId) room),
           (set_producer p user).
    split; [exact Hr|]. split; [exact Hu|]. split; [done|].
    split; [|done].
    unfold getVoiceUsers. cbn [voiceRooms]. change (transport_produce kind None (worker s)).1 with p.
    rewrite Hr.
    apply list_elem_of_fmap. exists (set_producer p user). split; [done|].
    apply list_elem_of_fmap. exists (userId, set_producer p user).
    split; [done|]. by apply elem_of_map_to_list.
Qed.

End Streams.

Lemma resume_after_consume_witness :
  let s1 := (consume permissive "r1" "A" "3" "opus" producing).2 in
  consumerPaused (worker s1) !! "4" = Some true
  ∧ (resumeConsumer permissive "r1" "A" "4" s1).1 = Ok ()
  ∧ consumerPaused (worker (resumeConsumer permissive "r1" "A" "4" s1).2)
      !! "4" = Some false.
Proof.
  destruct (resume_after_consume permissive producing "r1" "A" "3" "opus"
              (mkConsumer "4" "3" audio "opus"))
    as (H1 & H2 & _).
  - reflexivity.
  - intros s1. split; [exact H1|]. apply H2. reflexivity.
Defined.

Lemma produce_ignores_transport_id_witness :
  let after := produce permissive "r1" "A" "2" audio "opus" with_transports in
  (is_ok after.1 = true
   ↔ ∃ room user t,
       voiceRooms with_transports !! "r1" = Some room
       ∧ users room !! "A" = Some user
       ∧ producerTransport user = Some t)
  ∧ (∀ other, produce permissive "r1" "A" other audio "opus" with_transports
              = after)
  ∧ (∀ id, after.1 = Ok id →
       ∃ room' user',
         voiceRooms after.2 !! "r1" = Some room'
         ∧ users room' !! "A" = Some user'
         ∧ producer user' = Some {| producer_id := id; producer_kind := audio |}
         ∧ userInfo user' ∈ getVoiceUsers after.2 "r1"
         ∧ info_hasProducer (userInfo user') = true).
Proof.
  apply (produce_ignores_transport_id permissive with_transports "r1" "A" "2"
           audio "opus").
  intros t. reflexivity.
Defined.

Section Replacing.

Variable E : MediaEngine.

Lemma closeUser_producers user w x :
  HProducer x ∈ closed (closeUser user w)
  ↔ HProducer x ∈ closed w
    ∨ ∃ p, producer user = Some p ∧ producer_id p = x.
Proof.
  unfold closeUser.
  assert (Hfold : ∀ l w0,
            HProducer x ∈ closed
              (foldl (λ w c, close (HConsumer (consumer_id c)) w) w0 l)
            ↔ HProducer x ∈ closed w0).
  { induction l as [|c l IH]; intros w0; cbn [foldl]; [done|].
    rewrite IH; cbn. rewrite elem_of_cons. split; [by intros [?|?]|by right]. }
  assert (Ht : ∀ o w0,
            HProducer x ∈ closed
              match o with
              | Some t => close (HTransport (transport_id t)) w0
              | None => w0
              end
            ↔ HProducer x ∈ closed w0).
  { intros [t|] w0; [|done]; cbn. rewrite elem_of_cons.
    split; [by intros [?|?]|by right]. }
  rewrite (Ht (consumerTransport user)), (Ht (producerTransport user)), Hfold.
  destruct (producer user) as [p|]; cbn.
  - rewrite elem_of_cons. split.
    + intros [[= ->]|?]; [right; by exists p|by left].
    + intros [?|(p' & [= <-] & <-)]; [by right|by left].
  - split; [by left|]. by intros [?|(? & ? & _)].
Qed.

Lemma leave_worker roomId userId room user s :
  voiceRooms s !! roomId = Some room →
  users room !! userId = Some user →
  worker (leaveVoiceChannel roomId userId s).2
  = (if bool_decide (size (delete userId (users room)) = 0)
     then close (HRouter (router room)) (closeUser user (worker s))
     else closeUser user (worker s)).
Proof.
  intros Hroom Huser. unfold leaveVoiceChannel; run_m.
  rewrite Hroom; cbn. rewrite Huser; cbn.
  rewrite lookup_alter_eq, Hroom; cbn. by case_bool_decide.
Qed.

(** X21. A replaced producer is never closed.  When a participant produces
    twice (the engine accepting both), the second producer takes the first
    one's place in the participant's record under a different id, and when
    the participant then leaves, [close()] is called on the second producer
    but not on the first. *)
Theorem replaced_producer_is_not_closed (s : VoiceService)
    (roomId userId tid1 tid2 : string) (k1 k2 : MediaKind)
    (rtp1 rtp2 : string) (room : VoiceRoom) (user : VoiceUser)
    (t : WebRtcTransport) :
  voiceRooms s !! roomId = Some room →
  users room !! userId = Some user →
  producerTransport user = Some t →
  (∀ w k rtp, rejects E w (TransportProduce t k rtp) = false) →
  let first := produce E roomId userId tid1 k1 rtp1 s in
  let second := produce E roomId userId tid2 k2 rtp2 first.2 in
  let left := (leaveVoiceChannel roomId userId second.2).2 in
  ∃ id1 id2,
    first.1 = Ok id1 ∧ second.1 = Ok id2 ∧ id1 ≠ id2
    ∧ HProducer id2 ∈ closed (worker left)
    ∧ (HProducer id1 ∈ closed (worker left) → HProducer id1 ∈ closed (worker s)).
Proof.
  intros Hroom Huser Ht Hacc first second left.
  subst left second first.
  rewrite (produce_found E _ _ tid1 k1 rtp1 _ _ _ _ Hroom Huser Ht (Hacc _ _ _)).
  cbn [fst snd].
  set (p1 := (transport_produce k1 None (worker s)).1).
  set (w1 := (transport_produce k1 None (worker s)).2).
  set (s1 := {| worker := w1;
                voiceRooms :=
                  alter (with_users (alter (set_producer p1) userId)) roomId
                    (voiceRooms s) |}).
  assert (Hroom1 : voiceRooms s1 !! roomId
                   = Some (with_users (alter (set_producer p1) userId) room))
    by (cbn; by rewrite lookup_alter_eq, Hroom).
  assert (Huser1 : users (with_users (alter (set_producer p1) userId) room)
                     !! userId = Some (set_producer p1 user))
    by (cbn; by rewrite lookup_alter_eq, Huser).
  rewrite (produce_found E _ _ tid2 k2 rtp2 _ _ _ _ Hroom1 Huser1 Ht
             (Hacc _ _ _)).
  cbn [fst snd].
  set (p2 := (transport_produce k2 None (worker s1)).1).
  set (w2 := (transport_produce k2 None (worker s1)).2).
  set (s2 := {| worker := w2; voiceRooms := _ |}).
  assert (Hroom2 : voiceRooms s2 !! roomId
                   = Some (with_users (alter (set_producer p2) userId)
                             (with_users (alter (set_producer p1) userId) room)))
    by (subst s2; cbn [voiceRooms]; by rewrite lookup_alter_eq, Hroom1).
  assert (Huser2 : users (with_users (alter (set_producer p2) userId)
                            (with_users (alter (set_producer p1) userId) room))
                     !! userId = Some (set_producer p2 (set_producer p1 user)))
    by (cbn; by rewrite lookup_alter_eq, lookup_alter_eq, Huser).
  assert (Hne : pretty (minted (worker s)) ≠ pretty (S (minted (worker s)))).
  { intros H. apply (inj pretty) in H. lia. }
  exists (pretty (minted (worker s))), (pretty (S (minted (worker s)))).
  split; [done|]. split; [done|]. split; [done|].
  rewrite (leave_worker _ _ _ _ _ Hroom2 Huser2).
  assert (Hstep : ∀ x,
    HProducer x ∈ closed
      (if bool_decide
            (size (delete userId
                     (users (with_users (alter (set_producer p2) userId)
                               (with_users (alter (set_producer p1) userId)
                                  room)))) = 0)
       then close (HRouter (router
                     (with_users (alter (set_producer p2) userId)
                        (with_users (alter (set_producer p1) userId) room))))
              (closeUser (set_producer p2 (set_producer p1 user)) (worker s2))
       else closeUser (set_producer p2 (set_producer p1 user)) (worker s2))
    ↔ HProducer x ∈ closed (worker s) ∨ pretty (S (minted (worker s))) = x).
  { intros x.
    transitivity (HProducer x ∈ closed
                    (closeUser (set_producer p2 (set_producer p1 user))
                       (worker s2))).
    - case_bool_decide; [|done]. cbn [closed close].
      rewrite elem_of_cons. split; [by intros [?|?]|by right].
    - rewrite closeUser_producers. cbn. split.
      + intros [?|(p & [= <-] & <-)]; [by left|by right].
      + intros [?|<-]; [by left|]. right. by eexists. }
  split.
  - apply Hstep. by right.
  - intros Hin. apply Hstep in Hin as [?|?]; [done|]. by destruct Hne.
Qed.

(** X22. A refused pause still leaves the flag set.  When the participant
    has a producer and the engine rejects the pause (or resume),
    [toggleMute] throws what the engine threw, the pause state of the
    producer is as before, and the participant's mute flag has already been
    written. *)
Theorem refused_mute_still_sets_flag (s : VoiceService)
    (roomId userId : string) (room : VoiceRoom) (user : VoiceUser)
    (p : Producer) (flag : bool) :
  voiceRooms s !! roomId = Some room →
  users room !! userId = Some user →
  producer user = Some p →
  rejects E (worker s) (if flag then ProducerPause p else ProducerResume p)
  = true →
  toggleMute E roomId userId flag s
  = (Throw (EngineRejected
              (if flag then ProducerPause p else ProducerResume p)),
     update_user roomId userId (set_isMuted flag) s)
  ∧ worker (update_user roomId userId (set_isMuted flag) s) = worker s
  ∧ ∃ room', voiceRooms (update_user roomId userId (set_isMuted flag) s)
               !! roomId = Some room'
             ∧ isMuted <$> users room' !! userId = Some flag.
Proof.
  intros Hroom Huser Hp Hrej. split; [|split; [done|]].
  - unfold toggleMute; run_m. rewrite Hroom; cbn. rewrite Huser; cbn.
    rewrite Hp; cbn. destruct flag; cbn; by rewrite Hrej.
  - cbn. rewrite lookup_alter_eq, Hroom; cbn. eexists; split; [done|].
    cbn. by rewrite lookup_alter_eq, Huser.
Qed.

End Replacing.

Lemma replaced_producer_is_not_closed_witness :
  let first := produce permissive "r1" "A" "1" audio "opus" with_transports in
  let second := produce permissive "r1" "A" "1" audio "opus" first.2 in
  let left := (leaveVoiceChannel "r1" "A" second.2).2 in
  ∃ id1 id2,
    first.1 = Ok id1 ∧ second.1 = Ok id2 ∧ id1 ≠ id2
    ∧ HProducer id2 ∈ closed (worker left)
    ∧ (HProducer id1 ∈ closed (worker left)
       → HProducer id1 ∈ closed (worker with_transports)).
Proof.
  apply (replaced_producer_is_not_closed permissive with_transports "r1" "A"
           "1" "1" audio audio "opus" "opus"
           {| roomId := "r1"; router := 0; users := {["A" := ann_ready]} |}
           ann_ready (mkTransport "1" 0)).
  - reflexivity.
  - reflexivity.
  - reflexivity.
  - intros w k rtp. reflexivity.
Defined.

Lemma refused_mute_still_sets_flag_witness :
  toggleMute no_pause "r1" "A" true producing
  = (Throw (EngineRejected (ProducerPause (mkProducer "3" audio))),
     update_user "r1" "A" (set_isMuted true) producing)
  ∧ worker (update_user "r1" "A" (set_isMuted true) producing)
    = worker producing
  ∧ ∃ room', voiceRooms (update_user "r1" "A" (set_isMuted true) producing)
               !! "r1" = Some room'
             ∧ isMuted <$> users room' !! "A" = Some true.
Proof.
  apply (refused_mute_still_sets_flag no_pause producing "r1" "A"
           {| roomId := "r1"; router := 0; users := {["A" := ann_producing]} |}
           ann_producing (mkProducer "3" audio) true); reflexivity.
Defined.


Section Isolation.

Variable E : MediaEngine.

Lemma exec_frames_others (c : Call) (s : VoiceService)
    (roomId userId : string) (room : VoiceRoom) (user : VoiceUser) :
  voiceRooms s !! roomId = Some room →
  users room !! userId = Some user →
  roomId ≠ room_of c ∨ user_of c ≠ Some userId →
  ∃ room', voiceRooms (exec E c s) !! roomId = Some room'
           ∧ users room' !! userId = Some user.
Proof.
  intros Hroom Huser Hother.
  assert (Hsize : ∀ u, u ≠ userId → size (delete u (users room)) ≠ 0).
  { intros u Hu. apply (map_size_ne_0_lookup_2 _ userId).
    rewrite lookup_delete_ne by done. eauto. }
  destruct c; cbn in Hother |- *;
  unfold joinVoiceChannel, leaveVoiceChannel, toggleMute,
    getRouterRtpCapabilities, createWebRtcTransport, connectWebRtcTransport,
    produce, consume, resumeConsumer, getOrCreateRouter, setUserTransport;
  run_m; repeat (case_match; simplify_eq/=).
  all: try (by exists room).
  all: repeat first [ rewrite lookup_alter | rewrite lookup_insert
                    | rewrite lookup_delete | case_decide
                    | progress simplify_eq/= ].
  all: try (by exists room).
  all: try (by destruct Hother).
  all: rewrite ?Hroom; cbn.
  all: try (eexists; split; [done|]; cbn;
            repeat first [ rewrite lookup_alter | rewrite lookup_insert
                         | rewrite lookup_delete | case_decide
                         | progress simplify_eq/= ];
            try done; try (by destruct Hother)).
  - rewrite lookup_alter_eq, Hroom in H0. simplify_eq/=.
    exfalso. eapply Hsize; [|done]. intros ->. by destruct Hother.
  - exfalso. by eapply (map_size_ne_0_lookup_2 (users room) userId).
Qed.

(** X24. A call touches only the participant it names.  Whatever call the
    gateway makes, every other participant record, in the same room or in
    another, is afterwards where it was and unchanged. *)
Theorem calls_leave_others_alone (c : Call) (s : VoiceService)
    (roomId userId : string) (room : VoiceRoom) (user : VoiceUser) :
  voiceRooms s !! roomId = Some room →
  users room !! userId = Some user →
  roomId ≠ room_of c ∨ user_of c ≠ Some userId →
  ∃ room', voiceRooms (exec E c s) !! roomId = Some room'
           ∧ users room' !! userId = Some user.
Proof. apply exec_frames_others. Qed.

Lemma join_roster (s : VoiceService) (roomId userId userName : string)
    (l : list VoiceUserInfo) :
  (joinVoiceChannel E roomId userId userName s).1 = Ok l →
  l = getVoiceUsers (joinVoiceChannel E roomId userId userName s).2 roomId.
Proof.
  unfold joinVoiceChannel, getVoiceUsers, getOrCreateRouter. run_m.
  repeat (case_match; simplify_map_eq/=); intros Hl; by simplify_eq/=.
Qed.

(** X25. What [joinVoiceChannel] returns is the roster of the room as it is
    after the call, and the joiner is on it; a connection that was not in
    the room before is listed under the name given, unmuted and without a
    producer. *)
Theorem join_returns_the_roster (s : VoiceService)
    (roomId userId userName : string) (l : list VoiceUserInfo) :
  (joinVoiceChannel E roomId userId userName s).1 = Ok l →
  let s1 := (joinVoiceChannel E roomId userId userName s).2 in
  l = getVoiceUsers s1 roomId
  ∧ ∃ room user,
      voiceRooms s1 !! roomId = Some room
      ∧ users room !! userId = Some user
      ∧ userInfo user ∈ l
      ∧ (¬ VoiceGw.is_participant s roomId userId →
         userInfo user
         = {| info_userId := userId; info_userName := userName;
              info_isMuted := false; info_hasProducer := false |}).
Proof.
  intros Hl s1. subst s1.
  assert (Hok : is_ok (joinVoiceChannel E roomId userId userName s).1 = true)
    by (by rewrite Hl).
  destruct (join_ok_participant E _ _ _ _ Hok)
    as (room & Hroom & [user Huser]).
  pose proof (join_roster _ _ _ _ _ Hl) as Hroster.
  split; [done|]. exists room, user. split; [done|]. split; [done|].
  split.
  - rewrite Hroster. unfold getVoiceUsers. rewrite Hroom.
    apply list_elem_of_fmap. exists user. split; [done|].
    apply list_elem_of_fmap. exists (userId, user). split; [done|].
    by apply elem_of_map_to_list.
  - intros Hnot. clear Hroster. revert Hroom Huser.
    destruct (voiceRooms s !! roomId) as [room0|] eqn:Hr0.
    + destruct (users room0 !! userId) as [user0|] eqn:Hu0.
      * destruct Hnot. exists room0. split; [done|eauto].
      * unfold joinVoiceChannel. unfold bind at 1.
        rewrite (getOrCreateRouter_existing E _ _ _ Hr0).
        run_m. rewrite Hr0; cbn.
        rewrite bool_decide_eq_false_2 by (rewrite Hu0; by intros []); cbn.
        rewrite lookup_alter_eq, Hr0; cbn. intros [= <-]; cbn.
        rewrite lookup_insert_eq. by intros [= <-].
    + destruct (rejects E (worker s) CreateRouter) eqn:Hrej.
      * revert Hok. unfold joinVoiceChannel. unfold bind at 1.
        by rewrite (getOrCreateRouter_rejected E _ _ Hr0 Hrej).
      * rewrite (join_fresh E _ _ _ _ Hr0 Hrej); cbn.
        rewrite lookup_insert_eq. intros [= <-]; cbn.
        rewrite lookup_singleton_eq. by intros [= <-].
Qed.

End Isolation.

Lemma join_returns_the_roster_witness :
  let s1 := (joinVoiceChannel permissive "r1" "B" "Bob" producing).2 in
  getVoiceUsers two_in_room "r1" = getVoiceUsers s1 "r1"
  ∧ ∃ room user,
      voiceRooms s1 !! "r1" = Some room
      ∧ users room !! "B" = Some user
      ∧ userInfo user ∈ getVoiceUsers two_in_room "r1"
      ∧ (¬ VoiceGw.is_participant producing "r1" "B" →
         userInfo user
         = {| info_userId := "B"; info_userName := "Bob";
              info_isMuted := false; info_hasProducer := false |}).
Proof.
  apply (join_returns_the_roster permissive producing "r1" "B" "Bob"
           (getVoiceUsers two_in_room "r1")).
  reflexivity.
Defined.

Lemma calls_leave_others_alone_witness :
  ∃ room', voiceRooms (exec permissive (LeaveVoiceChannel "r1" "B") two_in_room)
             !! "r1" = Some room'
           ∧ users room' !! "A" = Some ann_producing.
Proof.
  apply (calls_leave_others_alone permissive (LeaveVoiceChannel "r1" "B")
           two_in_room "r1" "A"
           {| roomId := "r1"; router := 0;
              users := {["A" := ann_producing;
                         "B" := {| userId := "B"; userName := "Bob";
                                   producerTransport := None;
                                   consumerTransport := None;
                                   producer := None; consumers := ∅;
                                   isMuted := false |}]} |}
           ann_producing).
  - reflexivity.
  - reflexivity.
  - right. discriminate.
Defined.

Section Slots.

Variable E : MediaEngine.

(** What [createWebRtcTransport] does for a participant when the engine
    grants the transport. *)
Lemma createTransport_granted (s : VoiceService) (roomId userId : string)
    (direction : Direction) (room : VoiceRoom) (user : VoiceUser) :
  voiceRooms s !! roomId = Some room →
  users room !! userId = Some user →
  rejects E (worker s) (CreateWebRtcTransport (router room)) = false →
  createWebRtcTransport E roomId userId direction s
  = let t := {| transport_id := pretty (minted (worker s));
                transport_router := router room |} in
    (Ok t,
     update_user roomId userId
       match direction with
       | send => set_producerTransport t
       | recv => set_consumerTransport t
       end
       {| worker := (router_createWebRtcTransport (router room) (worker s)).2;
          voiceRooms := voiceRooms s |}).
Proof.
  intros Hroom Huser Hacc. unfold createWebRtcTransport.
  unfold bind at 1. rewrite (getOrCreateRouter_existing E _ _ _ Hroom).
  unfold setUserTransport. run_m. rewrite Hroom; cbn. rewrite Hacc; cbn.
  rewrite Hroom; cbn. rewrite Huser; cbn. by destruct direction.
Qed.

(** X30. [createWebRtcTransport] fills one slot.  For a participant of a
    room that is in the table, the engine granting the transport, the call
    returns a new transport on the room's router and writes it into the
    participant's send or receive slot as the direction says; the other
    slot, the producer, the consumers and the mute flag stay as they are,
    and [close()] is called on nothing, a transport that was in the slot
    included. *)
Theorem createTransport_fills_one_slot (s : VoiceService)
    (roomId userId : string) (direction : Direction) (room : VoiceRoom)
    (user : VoiceUser) :
  voiceRooms s !! roomId = Some room →
  users room !! userId = Some user →
  rejects E (worker s) (CreateWebRtcTransport (router room)) = false →
  let after := createWebRtcTransport E roomId userId direction s in
  let t := {| transport_id := pretty (minted (worker s));
              transport_router := router room |} in
  after.1 = Ok t
  ∧ (∃ room', voiceRooms after.2 !! roomId = Some room'
              ∧ users room' !! userId
                = Some match direction with
                       | send => set_producerTransport t user
                       | recv => set_consumerTransport t user
                       end)
  ∧ closed (worker after.2) = closed (worker s).
Proof.
  intros Hroom Huser Hacc after t. subst after t.
  rewrite (createTransport_granted _ _ _ _ _ _ Hroom Huser Hacc).
  cbn [fst snd]. split; [done|]. split; [|done].
  unfold update_user; cbn. rewrite lookup_alter_eq, Hroom; cbn.
  eexists; split; [done|]; cbn. rewrite lookup_alter_eq, Huser.
  by destruct direction.
Qed.

End Slots.

Lemma createTransport_fills_one_slot_witness :
  let after := createWebRtcTransport permissive "r1" "A" send producing in
  let t := {| transport_id := "4"; transport_router := 0 |} in
  after.1 = Ok t
  ∧ (∃ room', voiceRooms after.2 !! "r1" = Some room'
              ∧ users room' !! "A"
                = Some (set_producerTransport t ann_producing))
  ∧ closed (worker after.2) = closed (worker producing).
Proof.
  apply (createTransport_fills_one_slot permissive producing "r1" "A" send
           {| roomId := "r1"; router := 0; users := {["A" := ann_producing]} |}
           ann_producing); reflexivity.
Defined.

End VoiceMore.

(** * Properties of the voice gateway *)

Module VoiceGwFacts.
Import Voice VoiceSpec VoiceGw VoiceFacts VoiceMore.

Lemma length_append (a b : string) :
  String.length (a +:+ b) = String.length a + String.length b.
Proof.
  induction a as [|c a IH]; [done|].
  change (String c a +:+ b) with (String c (a +:+ b)).
  cbn [String.length]. by rewrite IH.
Qed.

Lemma voiceGroup_differs (roomId : string) : voiceGroup roomId ≠ roomId.
Proof.
  unfold voiceGroup. intros H. apply (f_equal String.length) in H.
  rewrite length_append in H. cbn in H. lia.
Qed.

Lemma leave_removes_participant (s : VoiceService) (roomId userId : string) :
  ¬ is_participant (leaveVoiceChannel roomId userId s).2 roomId userId.
Proof.
  intros (room & Hroom & Hin).
  pose proof (leave_leaves_nothing_to_do roomId userId s) as H.
  rewrite Hroom in H. destruct H as [Hno _]. rewrite Hno in Hin.
  by destruct Hin.
Qed.

Section Facts.

Variable E : MediaEngine.

(** X26. Disconnecting cleans up the recorded voice room, and tells the
    wrong group.  For a connection recorded in a voice room with a non-empty
    name, the disconnect takes the connection out of that room and forgets
    the record, and the one thing sent is [voice_user_left], addressed to the
    group named like the room and not to the room's voice group, with no
    roster update.  When the recorded name is the empty string, nothing is
    cleaned up and nothing is sent. *)
Theorem voice_disconnect_cleanup (g : VoiceGateway) (client roomId : string) :
  userVoiceRooms g !! client = Some roomId →
  let after := step E g (Disconnect client) in
  if bool_decide (roomId ≠ "") then
    (¬ is_participant (voiceService after.1) roomId client
     ∧ userVoiceRooms after.1 !! client = None
     ∧ after.2 = [emit (ToRoom roomId) "voice_user_left"
                    (VoiceUserLeft client roomId)]
     ∧ ToRoom roomId ≠ ToRoom (voiceGroup roomId))
  else
    (voiceService after.1 = voiceService g ∧ after.2 = []).
Proof.
  intros Hrec after. subst after. cbn. unfold handleDisconnect; cbn.
  rewrite Hrec; cbn. case_bool_decide as Hne; cbn; [|done].
  split; [apply leave_removes_participant|].
  split; [apply lookup_delete_eq|]. split; [done|].
  intros [= H]. by apply (voiceGroup_differs roomId).
Qed.

Lemma join_voice_ok (g : VoiceGateway) (client roomId userName : string) :
  is_ok (joinVoiceChannel E roomId client userName (voiceService g)).1 = true →
  let g1 := (handleJoinVoiceChannel E g client roomId userName).1 in
  voiceService g1
  = (joinVoiceChannel E roomId client userName (voiceService g)).2
  ∧ userVoiceRooms g1 = <[client := roomId]> (userVoiceRooms g).
Proof.
  unfold handleJoinVoiceChannel.
  by destruct (joinVoiceChannel E roomId client userName (voiceService g))
    as [[l|e] s1].
Qed.

Lemma leave_voice_ok (g : VoiceGateway) (client roomId : string) :
  let g1 := (handleLeaveVoiceChannel g client roomId).1 in
  voiceService g1
  = exec E (LeaveVoiceChannel roomId client) (voiceService g)
  ∧ userVoiceRooms g1 !! client = None.
Proof.
  unfold handleLeaveVoiceChannel, exec.
  pose proof (leave_voice_is_ok roomId client (voiceService g)) as Hl.
  destruct (leaveVoiceChannel roomId client (voiceService g))
    as [[[]|e] s2]; [|done].
  split; [done|apply lookup_delete_eq].
Qed.

Lemma participant_framed (c : Call) (s : VoiceService) (roomId userId : string) :
  is_participant s roomId userId →
  roomId ≠ room_of c ∨ user_of c ≠ Some userId →
  is_participant (exec E c s) roomId userId.
Proof.
  intros (room & Hroom & [user Huser]) Hother.
  destruct (exec_frames_others E c s roomId userId room user Hroom Huser Hother)
    as (room' & Hr & Hu).
  exists room'. split; [done|eauto].
Qed.

Lemma disconnect_service (g : VoiceGateway) (client : string) :
  voiceService (step E g (Disconnect client)).1 = voiceService g
  ∨ ∃ roomId, userVoiceRooms g !! client = Some roomId
              ∧ voiceService (step E g (Disconnect client)).1
                = exec E (LeaveVoiceChannel roomId client) (voiceService g).
Proof.
  cbn. unfold handleDisconnect; cbn.
  destruct (userVoiceRooms g !! client) as [r|]; [|by left].
  destruct (bool_decide (r ≠ "")); cbn; [|by left].
  right. by exists r.
Qed.

(** X27. Only the last voice room joined is remembered.  A connection that
    joins one voice room and then another, without leaving the first, is
    still a participant of the first after it disconnects: the disconnect
    cleans up the second room only. *)
Theorem second_join_forgets_the_first (g : VoiceGateway)
    (client room1 room2 name1 name2 : string) :
  room1 ≠ room2 →
  let g1 := (handleJoinVoiceChannel E g client room1 name1).1 in
  let g2 := (handleJoinVoiceChannel E g1 client room2 name2).1 in
  let g3 := (step E g2 (Disconnect client)).1 in
  is_ok (joinVoiceChannel E room1 client name1 (voiceService g)).1 = true →
  is_ok (joinVoiceChannel E room2 client name2 (voiceService g1)).1 = true →
  userVoiceRooms g2 !! client = Some room2
  ∧ is_participant (voiceService g2) room1 client
  ∧ is_participant (voiceService g3) room1 client.
Proof.
  intros Hne g1 g2 g3 Hok1 Hok2.
  destruct (join_voice_ok g client room1 name1 Hok1) as [Hs1 Hu1].
  destruct (join_voice_ok g1 client room2 name2 Hok2) as [Hs2 Hu2].
  fold g1 in Hs1, Hu1. fold g2 in Hs2, Hu2.
  assert (Hp1 : is_participant (voiceService g1) room1 client).
  { rewrite Hs1. by apply join_ok_participant. }
  assert (Hp2 : is_participant (voiceService g2) room1 client).
  { rewrite Hs2.
    apply (participant_framed (JoinVoiceChannel room2 client name2));
      [done|by left]. }
  assert (Hrec : userVoiceRooms g2 !! client = Some room2)
    by (by rewrite Hu2, lookup_insert_eq).
  split; [done|]. split; [done|].
  subst g3. destruct (disconnect_service g2 client) as [->|(r & Hr & ->)];
    [done|].
  rewrite Hrec in Hr. injection Hr as <-.
  apply (participant_framed (LeaveVoiceChannel room2 client)); [done|by left].
Qed.

(** X28. Leaving any voice room forgets the recorded one.  A connection that
    has joined a voice room and then sends [leave_voice_channel] for another
    room has no record left, so when it disconnects nothing is cleaned up or
    sent, and it is still a participant of the room it joined. *)
Theorem leaving_another_room_forgets (g : VoiceGateway)
    (client joined other name : string) :
  joined ≠ other →
  let g1 := (handleJoinVoiceChannel E g client joined name).1 in
  let g2 := (handleLeaveVoiceChannel g1 client other).1 in
  let after := step E g2 (Disconnect client) in
  is_ok (joinVoiceChannel E joined client name (voiceService g)).1 = true →
  userVoiceRooms g2 !! client = None
  ∧ after.2 = []
  ∧ is_participant (voiceService after.1) joined client.
Proof.
  intros Hne g1 g2 after Hok.
  destruct (join_voice_ok g client joined name Hok) as [Hs1 Hu1].
  fold g1 in Hs1, Hu1.
  assert (Hp1 : is_participant (voiceService g1) joined client).
  { rewrite Hs1. by apply join_ok_participant. }
  destruct (leave_voice_ok g1 client other) as [Hs2 Hu2].
  fold g2 in Hs2, Hu2.
  assert (Hp2 : is_participant (voiceService g2) joined client).
  { rewrite Hs2.
    apply (participant_framed (LeaveVoiceChannel other client));
      [done|by left]. }
  split; [done|]. subst after. cbn. unfold handleDisconnect; cbn.
  by rewrite Hu2.
Qed.


End Facts.

Lemma voice_disconnect_cleanup_witness :
  let g := (handleJoinVoiceChannel permissive newVoiceGateway "A" "r1" "Ann").1 in
  let after := step permissive g (Disconnect "A") in
  ¬ is_participant (voiceService after.1) "r1" "A"
  ∧ userVoiceRooms after.1 !! "A" = None
  ∧ after.2 = [emit (ToRoom "r1") "voice_user_left" (VoiceUserLeft "A" "r1")]
  ∧ ToRoom "r1" ≠ ToRoom (voiceGroup "r1").
Proof.
  apply (voice_disconnect_cleanup permissive
           (handleJoinVoiceChannel permissive newVoiceGateway "A" "r1" "Ann").1
           "A" "r1").
  reflexivity.
Defined.

Lemma second_join_forgets_the_first_witness :
  let g1 := (handleJoinVoiceChannel permissive newVoiceGateway "A" "r1" "Ann").1 in
  let g2 := (handleJoinVoiceChannel permissive g1 "A" "r2" "Ann").1 in
  let g3 := (step permissive g2 (Disconnect "A")).1 in
  userVoiceRooms g2 !! "A" = Some "r2"
  ∧ is_participant (voiceService g2) "r1" "A"
  ∧ is_participant (voiceService g3) "r1" "A".
Proof.
  apply (second_join_forgets_the_first permissive newVoiceGateway "A"
           "r1" "r2" "Ann" "Ann").
  - discriminate.
  - reflexivity.
  - reflexivity.
Defined.

Lemma leaving_another_room_forgets_witness :
  let g1 := (handleJoinVoiceChannel permissive newVoiceGateway "A" "r1" "Ann").1 in
  let g2 := (handleLeaveVoiceChannel g1 "A" "r2").1 in
  let after := step permissive g2 (Disconnect "A") in
  userVoiceRooms g2 !! "A" = None
  ∧ after.2 = []
  ∧ is_participant (voiceService after.1) "r1" "A".
Proof.
  apply (leaving_another_room_forgets permissive newVoiceGateway "A"
           "r1" "r2" "Ann").
  - discriminate.
  - reflexivity.
Defined.

End VoiceGwFacts.
